(** * Window lifecycle and session restoration: the windows manager

    A shallow embedding of [src/vs/code/electron-main/windows.ts]
    (class [WindowsManager]) and the properties its specification
    states about it.

    Conventions of the embedding.
    - A TypeScript interface is a record; an optional property is an
      [option]; a property that the code only tests for truthiness is
      read through [truthy] (a string is falsy when absent or empty).
    - Record projections carry a short prefix where two interfaces of
      the source share a property name ([to_] for [IWindowToOpen],
      [o_] for [IOpenBrowserWindowOptions], [ui_] for the geometry,
      [ws_] for a workspace identifier).
    - The services injected into the constructor are type classes; the
      manager only reads them, except the storage service, whose
      content is part of the manager's state.
    - A [CodeWindow] is identified by [win_id]; a [CodeWindow[]] that
      the source compares by object identity is compared by [win_id].
    - A window loads a configuration after an asynchronous unload
      negotiation: the manager's state records the request, and the
      members of the live windows do not change during one call.
    - A statement that raises (a member read on [undefined]) makes the
      function return [None].
    - Effects on collaborators that no stated property observes
      (message boxes, focus requests, the recently-opened history, IPC
      sends, telemetry) are not tracked. *)

From stdpp Require Import base option list strings gmap.
From Stdlib Require Import ZArith Lia Ascii.

Open Scope string_scope.
Open Scope list_scope.
Open Scope nat_scope.

(** ** JavaScript truthiness of the values the code tests *)

(** A string that is neither absent nor empty. *)
Definition nonEmpty (s : option string) : option string :=
  match s with
  | Some s => if String.eqb s EmptyString then None else Some s
  | None => None
  end.

Definition truthy (s : option string) : bool :=
  match nonEmpty s with Some _ => true | None => false end.

Definition isSome {A} (o : option A) : bool :=
  match o with Some _ => true | None => false end.

(** ** Data model *)

(** Modelled from the spec: [WindowMode] and [ISingleWindowState] are
    declared in [window.ts], which is not part of the sources; the UI
    state snapshot is "x/y/width/height/mode/display". *)
Inductive WindowMode := Maximized | Normal | Minimized | Fullscreen.

Record ISingleWindowState := {
  ui_width : option Z;
  ui_height : option Z;
  ui_x : option Z;
  ui_y : option Z;
  ui_mode : WindowMode;
  ui_display : option Z
}.

Record IWorkspaceIdentifier := {
  ws_id : string;
  ws_configPath : string
}.

Record IWindowState := {
  workspace : option IWorkspaceIdentifier;
  folderPath : option string;
  backupPath : option string;
  uiState : ISingleWindowState
}.

Record IWindowsState := {
  lastActiveWindow : option IWindowState;
  lastPluginDevelopmentHostWindow : option IWindowState;
  openedWindows : list IWindowState
}.

(** The legacy shapes of the persisted blob.  [ILegacyWindowState
    extends IWindowState] with [workspacePath]; [ILegacyWindowsState
    extends IWindowsState] with [openedFolders].  In the raw blob
    [openedWindows] itself may be missing, which the migration tests.
    A property whose value has not the declared type fails the tests
    of the migration as an absent one does, and is represented as
    absent. *)
Module Legacy.

Record ILegacyWindowState := {
  state : IWindowState;
  workspacePath : option string
}.

Record ILegacyWindowsState := {
  lastActiveWindow : option ILegacyWindowState;
  lastPluginDevelopmentHostWindow : option ILegacyWindowState;
  openedWindows : option (list ILegacyWindowState);
  openedFolders : option (list ILegacyWindowState)
}.

(** The body of the [states.forEach] callback of
    [migrateLegacyWindowState]: [typeof state.workspacePath ===
    'string'] is [Some]. *)
Definition migrateWindow (s : ILegacyWindowState) : ILegacyWindowState :=
  match workspacePath s with
  | Some p =>
      {| state := {| workspace := workspace (state s);
                     folderPath := Some p;
                     backupPath := backupPath (state s);
                     uiState := uiState (state s) |};
         workspacePath := None |}
  | None => s
  end.

(** First half of [migrateLegacyWindowState]: [openedFolders] becomes
    [openedWindows] when it is a non-empty array; otherwise a missing
    [openedWindows] becomes the empty array. *)
Definition migrateContainer (s : ILegacyWindowsState) : ILegacyWindowsState :=
  match openedFolders s with
  | Some (f :: fs) =>
      {| lastActiveWindow := lastActiveWindow s;
         lastPluginDevelopmentHostWindow := lastPluginDevelopmentHostWindow s;
         openedWindows := Some (f :: fs);
         openedFolders := None |}
  | _ =>
      match openedWindows s with
      | Some _ => s
      | None =>
          {| lastActiveWindow := lastActiveWindow s;
             lastPluginDevelopmentHostWindow := lastPluginDevelopmentHostWindow s;
             openedWindows := Some [];
             openedFolders := openedFolders s |}
      end
  end.

(** Second half: the rename is applied to [lastActiveWindow],
    [lastPluginDevelopmentHostWindow] and every entry of
    [openedWindows]; an absent window ([state && ...]) is skipped. *)
Definition migrateWindows (s : ILegacyWindowsState) : ILegacyWindowsState :=
  {| lastActiveWindow := option_map migrateWindow (lastActiveWindow s);
     lastPluginDevelopmentHostWindow :=
       option_map migrateWindow (lastPluginDevelopmentHostWindow s);
     openedWindows := option_map (map migrateWindow) (openedWindows s);
     openedFolders := openedFolders s |}.

Definition migrateLegacyWindowState (s : ILegacyWindowsState) : ILegacyWindowsState :=
  migrateWindows (migrateContainer s).

(** What the typed code sees of a migrated blob (the upcast from
    [ILegacyWindowsState] to [IWindowsState]). *)
Definition upcast (s : ILegacyWindowsState) : IWindowsState :=
  Build_IWindowsState
    (option_map state (lastActiveWindow s))
    (option_map state (lastPluginDevelopmentHostWindow s))
    (map state (default [] (openedWindows s))).

(** A window state written by the current code has no legacy field. *)
Definition ofState (s : IWindowState) : ILegacyWindowState :=
  {| state := s; workspacePath := None |}.

End Legacy.

(** ** Live windows *)

(** Modelled from the spec: [CodeWindow] is declared in [window.ts],
    which is not part of the sources.  A window handle "carries
    openedWorkspace?, openedFolderPath?, backupPath,
    isExtensionDevelopmentHost, isExtensionTestHost" and "can
    serialize its current UI geometry on demand"; these are the
    members the manager reads. *)
Record CodeWindow := {
  win_id : nat;
  openedWorkspace : option IWorkspaceIdentifier;
  openedFolderPath : option string;
  win_backupPath : option string;
  isExtensionDevelopmentHost : bool;
  isExtensionTestHost : bool;
  serializeWindowState : ISingleWindowState
}.

(** Modelled from the spec: the "origination context (CLI/dock/dialog/
    API)" of an open request, declared outside the sources. *)
Inductive OpenContext := CLI | DOCK | MENU | DIALOG | DESKTOP | API.

(** Modelled from the spec: the "CLI args", declared outside the
    sources, with the members the manager reads; [args_] is [cli._]. *)
Record ParsedArgs := {
  args_ : list string;
  goto : bool;
  diff : bool;
  wait : bool;
  waitMarkerFilePath : option string;
  extensionDevelopmentPath : option string;
  extensionTestsPath : option string
}.

(** Modelled from the spec: "the full set of flags controlling one
    open() invocation -- explicit paths, force-new/force-reuse/
    force-empty, diff-mode, initial-startup flag, CLI args, origination
    context", declared outside the sources. *)
Record IOpenConfiguration := {
  context : OpenContext;
  cli : ParsedArgs;
  userEnv : option (gmap string string);
  pathsToOpen : option (list string);
  preferNewWindow : bool;
  forceNewWindow : bool;
  forceReuseWindow : bool;
  forceEmpty : bool;
  diffMode : bool;
  initialStartup : bool
}.

(** [IWindowToOpen extends IPath]. *)
Record IWindowToOpen := {
  to_workspace : option IWorkspaceIdentifier;
  to_folderPath : option string;
  to_backupPath : option string;
  filePath : option string;
  lineNumber : option Z;
  columnNumber : option Z;
  createFilePath : bool
}.

(** [Object.create(null)]: the target of an empty window. *)
Definition emptyWindow : IWindowToOpen :=
  {| to_workspace := None; to_folderPath := None; to_backupPath := None;
     filePath := None; lineNumber := None; columnNumber := None;
     createFilePath := false |}.

Record IOpenBrowserWindowOptions := {
  o_userEnv : option (gmap string string);
  o_cli : ParsedArgs;
  o_workspace : option IWorkspaceIdentifier;
  o_folderPath : option string;
  o_initialStartup : bool;
  o_filesToOpen : list IWindowToOpen;
  o_filesToCreate : list IWindowToOpen;
  o_filesToDiff : list IWindowToOpen;
  o_forceNewWindow : bool;
  o_windowToUse : option CodeWindow;
  o_emptyWindowBackupFolder : option string
}.

(** Modelled from the spec: the [window] section of the user settings
    (the restore-mode setting and its legacy name, the new-window
    settings), declared outside the sources; the values are the raw
    strings the code compares. *)
Record IWindowSettings := {
  openFilesInNewWindow : option string;
  openFoldersInNewWindow : option string;
  restoreWindows : option string;
  reopenFolders : option string;
  restoreFullscreen : bool;
  newWindowDimensions : option string
}.

Inductive RestoreWindowsSetting := RestoreAll | RestoreFolders | RestoreOne | RestoreNone.

(** Modelled from the spec: the event "windows-count-changed{old,new}",
    declared outside the sources. *)
Record IWindowsCountChangedEvent := {
  oldCount : nat;
  newCount : nat
}.

(** ** Collaborators

    The services handed to the constructor, and the helper modules the
    manager imports, as interfaces. *)

(** [vs/base/common/platform]. *)
Class Platform := {
  isWindows : bool;
  isMacintosh : bool;
  isLinux : bool
}.

(** What [fs.statSync] answers for a path of the disk.  The manager asks
    [isFile()] only: a directory and every other kind of path (a FIFO, a
    socket, a device) are the same to it. *)
Inductive Stats := IsFile | IsDirectory | IsOther.

(** Node's [path] and [fs], JavaScript's string methods, and the
    helpers of [vs/base/common/paths] and [vs/code/node/paths].
    [statSync] is [None] when the call throws. *)
Class Host := {
  statSync : string -> option Stats;
  normalize : string -> string;
  basename : string -> string;
  toLowerCase : string -> string;
  parseLineAndColumnAware : string -> string * option Z * option Z;
  isEqual : option string -> string -> bool -> bool
}.

Class ILifecycleService := {
  isQuitRequested : bool;
  wasRestarted : bool
}.

Class IBackupMainService := {
  getFolderBackupPaths : list string;
  getWorkspaceBackups : list IWorkspaceIdentifier;
  getEmptyWindowBackupPaths : list string
}.

(** Modelled from the spec: [TPromise] is declared in
    [vs/base/common/winjs.base], which is not part of the sources; a
    save "succeeds or fails".  This is how a promise settles. *)
Inductive Settled (A : Type) :=
| Fulfilled (value : A)
| Rejected (error : string).
Arguments Fulfilled {A} value.
Arguments Rejected {A} error.

(** [promise.then(onFulfilled, onRejected)] with callbacks that return
    plain values: the result is fulfilled either way. *)
Definition then_ {A B} (p : Settled A) (onFulfilled : A -> B) (onRejected : string -> B) :
  Settled B :=
  match p with
  | Fulfilled a => Fulfilled (onFulfilled a)
  | Rejected e => Fulfilled (onRejected e)
  end.

Record IStoredWorkspace := {
  sw_id : string;
  sw_folders : list string
}.

(** [resolveWorkspaceSync] yields the workspace stored at a
    configuration path, if there is one; [saveWorkspace] is how the
    promise it returns settles. *)
Class IWorkspacesMainService := {
  resolveWorkspaceSync : string -> option IStoredWorkspace;
  isUntitledWorkspace : IWorkspaceIdentifier -> bool;
  saveWorkspace : IWorkspaceIdentifier -> string -> Settled IWorkspaceIdentifier
}.

Class IConfigurationService := {
  windowConfig : option IWindowSettings
}.

(** Result of [findBestWindowOrFolderForFile]. *)
Inductive BestWindowOrFolder :=
| BestWindow (w : CodeWindow)
| BestFolder (folder : string)
| BestNone.

(** [vs/code/node/windowsFinder].  The last active window is one of the
    windows it is given. *)
Class WindowsFinder := {
  getLastActiveWindow : list CodeWindow -> option CodeWindow;
  findWindowOnWorkspace :
    list CodeWindow -> IWorkspaceIdentifier + string -> option CodeWindow;
  findBestWindowOrFolderForFile :
    list CodeWindow -> option bool -> bool -> OpenContext -> option string ->
    BestWindowOrFolder;
  getLastActiveWindow_elem : forall ws w,
    getLastActiveWindow ws = Some w -> w ∈ ws
}.

(** The places of the manager that hold a stored window state:
    [lastClosedWindowState], and in [windowsState] the last active
    window, the last extension development host window and the opened
    windows by index. *)
Inductive StoredPlace :=
| LastClosed
| LastActive
| LastPluginDevelopmentHost
| Opened (index : nat).

(** The construction of a native window, together with the geometry
    [getNewWindowState] computes for it from Electron's screen.  Window
    geometry is outside this development: the step is abstract.  The
    new [CodeWindow] carries the identity it is given.

    [getNewWindowState] can return the [uiState] object of a stored
    window state itself, not a copy.  [openInBrowserWindow] then sets
    the [mode] of that object to normal when it is full screen and full
    screen is not allowed ([downgradeFullscreen]), and hands the object
    to the constructor of [CodeWindow]; every stored state that holds
    the same object shows what was written.  Which stored states hold one object is not
    told by their values ([onBeforeWindowClose] puts one object in
    several), so what a stored [uiState] is after the creation of a
    window is given by [storedUiState], place by place, from what it
    was. *)
Class IInstantiationService := {
  createInstance :
    nat -> IOpenBrowserWindowOptions -> list CodeWindow -> IWindowsState ->
    CodeWindow;
  createInstance_id : forall n o ws st,
    win_id (createInstance n o ws st) = n;
  storedUiState :
    nat -> IOpenBrowserWindowOptions -> list CodeWindow -> IWindowsState ->
    option IWindowState -> StoredPlace -> ISingleWindowState -> ISingleWindowState
}.

(** ** The manager's state *)

(** What the storage service holds under a key. *)
Inductive StorageItem :=
| StoredWindowsState (s : Legacy.ILegacyWindowsState)
| StoredString (s : string).

(** [WINDOWS], [windowsState] and [lastClosedWindowState] are the
    members of the class.  [storage] is the content of the storage
    service.  [countChanged] lists the events fired on
    [onWindowsCountChanged], each with the value of [getWindowCount()]
    a listener reads when it receives the event; [windowClose] lists
    the events fired on [onWindowClose].  [pendingLoads] are the loads
    handed to the asynchronous unload negotiation.  [nextWindowId] is
    the identity the next native window receives. *)
Record WindowsManager := {
  WINDOWS : list CodeWindow;
  windowsState : IWindowsState;
  lastClosedWindowState : option IWindowState;
  storage : gmap string StorageItem;
  countChanged : list (IWindowsCountChangedEvent * nat);
  windowClose : list nat;
  pendingLoads : list (nat * IOpenBrowserWindowOptions);
  nextWindowId : nat
}.

Definition windowsStateStorageKey : string := "windowsState".

Definition getWindowCount (m : WindowsManager) : nat := length (WINDOWS m).

Definition set_WINDOWS (ws : list CodeWindow) (m : WindowsManager) :=
  {| WINDOWS := ws; windowsState := windowsState m;
     lastClosedWindowState := lastClosedWindowState m;
     storage := storage m; countChanged := countChanged m;
     windowClose := windowClose m; pendingLoads := pendingLoads m;
     nextWindowId := nextWindowId m |}.

Definition set_windowsState (st : IWindowsState) (m : WindowsManager) :=
  {| WINDOWS := WINDOWS m; windowsState := st;
     lastClosedWindowState := lastClosedWindowState m;
     storage := storage m; countChanged := countChanged m;
     windowClose := windowClose m; pendingLoads := pendingLoads m;
     nextWindowId := nextWindowId m |}.

Definition set_lastClosedWindowState (st : option IWindowState) (m : WindowsManager) :=
  {| WINDOWS := WINDOWS m; windowsState := windowsState m;
     lastClosedWindowState := st;
     storage := storage m; countChanged := countChanged m;
     windowClose := windowClose m; pendingLoads := pendingLoads m;
     nextWindowId := nextWindowId m |}.

(** [storageService.setItem(key, value)]. *)
Definition setItem (key : string) (v : StorageItem) (m : WindowsManager) :=
  {| WINDOWS := WINDOWS m; windowsState := windowsState m;
     lastClosedWindowState := lastClosedWindowState m;
     storage := <[key := v]> (storage m); countChanged := countChanged m;
     windowClose := windowClose m; pendingLoads := pendingLoads m;
     nextWindowId := nextWindowId m |}.

(** [storageService.getItem<IWindowsState>(key)], where what is stored
    under the key is a blob of the windows state, as [onBeforeQuit]
    stores it.  A value of another type under the key is [None] here;
    the constructor, which takes any truthy value for the blob, is
    given its error in [construct]. *)
Definition getItem (key : string) (st : gmap string StorageItem) :
  option Legacy.ILegacyWindowsState :=
  match st !! key with
  | Some (StoredWindowsState s) => Some s
  | _ => None
  end.

(** [_onWindowsCountChanged.fire(e)]. *)
Definition fireWindowsCountChanged (e : IWindowsCountChangedEvent) (m : WindowsManager) :=
  {| WINDOWS := WINDOWS m; windowsState := windowsState m;
     lastClosedWindowState := lastClosedWindowState m;
     storage := storage m;
     countChanged := countChanged m ++ [(e, getWindowCount m)];
     windowClose := windowClose m; pendingLoads := pendingLoads m;
     nextWindowId := nextWindowId m |}.

(** [_onWindowClose.fire(id)]. *)
Definition fireWindowClose (i : nat) (m : WindowsManager) :=
  {| WINDOWS := WINDOWS m; windowsState := windowsState m;
     lastClosedWindowState := lastClosedWindowState m;
     storage := storage m; countChanged := countChanged m;
     windowClose := windowClose m ++ [i]; pendingLoads := pendingLoads m;
     nextWindowId := nextWindowId m |}.

(** [if (state.mode === WindowMode.Fullscreen && !allowFullscreen)
    state.mode = WindowMode.Normal], the write [openInBrowserWindow]
    makes to the state of a new window. *)
Definition downgradeFullscreen (allowFullscreen : bool) (state : ISingleWindowState) :
  ISingleWindowState :=
  match ui_mode state with
  | Fullscreen =>
      if allowFullscreen then state
      else {| ui_width := ui_width state; ui_height := ui_height state;
              ui_x := ui_x state; ui_y := ui_y state;
              ui_mode := Normal; ui_display := ui_display state |}
  | _ => state
  end.

(** A stored window state whose [uiState] object was written to. *)
Definition withUiState (write : ISingleWindowState -> ISingleWindowState)
  (st : IWindowState) : IWindowState :=
  {| workspace := workspace st; folderPath := folderPath st;
     backupPath := backupPath st; uiState := write (uiState st) |}.

(** The stored window states, each with what [write] leaves in its
    [uiState]; nothing else of them changes. *)
Definition writeStoredUiStates (write : StoredPlace -> ISingleWindowState -> ISingleWindowState)
  (m : WindowsManager) : WindowsManager :=
  {| WINDOWS := WINDOWS m;
     windowsState :=
       {| lastActiveWindow :=
            withUiState (write LastActive) <$> lastActiveWindow (windowsState m);
          lastPluginDevelopmentHostWindow :=
            withUiState (write LastPluginDevelopmentHost)
              <$> lastPluginDevelopmentHostWindow (windowsState m);
          openedWindows :=
            imap (fun i => withUiState (write (Opened i)))
              (openedWindows (windowsState m)) |};
     lastClosedWindowState :=
       withUiState (write LastClosed) <$> lastClosedWindowState m;
     storage := storage m; countChanged := countChanged m;
     windowClose := windowClose m; pendingLoads := pendingLoads m;
     nextWindowId := nextWindowId m |}.

(** A window created and pushed on [WINDOWS]. *)
Definition pushWindow (w : CodeWindow) (m : WindowsManager) :=
  {| WINDOWS := WINDOWS m ++ [w]; windowsState := windowsState m;
     lastClosedWindowState := lastClosedWindowState m;
     storage := storage m; countChanged := countChanged m;
     windowClose := windowClose m; pendingLoads := pendingLoads m;
     nextWindowId := S (nextWindowId m) |}.

(** [lifecycleService.unload(codeWindow, UnloadReason.LOAD).done(...)]:
    the load waits for the unload negotiation. *)
Definition requestLoad (w : CodeWindow) (o : IOpenBrowserWindowOptions) (m : WindowsManager) :=
  {| WINDOWS := WINDOWS m; windowsState := windowsState m;
     lastClosedWindowState := lastClosedWindowState m;
     storage := storage m; countChanged := countChanged m;
     windowClose := windowClose m;
     pendingLoads := pendingLoads m ++ [(win_id w, o)];
     nextWindowId := nextWindowId m |}.

Definition emptyWindowsState : Legacy.ILegacyWindowsState :=
  {| Legacy.lastActiveWindow := None;
     Legacy.lastPluginDevelopmentHostWindow := None;
     Legacy.openedWindows := Some [];
     Legacy.openedFolders := None |}.

(** The manager the constructor returns: the stored blob, or
    [{ openedWindows: [] }], is migrated and becomes [windowsState].
    Whether the constructor returns is told by [construct]. *)
Definition newWindowsManager (st : gmap string StorageItem) : WindowsManager :=
  {| WINDOWS := [];
     windowsState :=
       Legacy.upcast
         (Legacy.migrateLegacyWindowState
            (default emptyWindowsState (getItem windowsStateStorageKey st)));
     lastClosedWindowState := None;
     storage := st; countChanged := []; windowClose := [];
     pendingLoads := []; nextWindowId := 0 |}.

(** The constructor with its error.  [getItem(key) || { openedWindows:
    [] }] takes whatever is stored under the key when it is truthy.  A
    stored string that is not empty is taken for the blob:
    [state.openedFolders] and [state.openedWindows] read as
    [undefined], and [state.openedWindows = []] then raises, the file
    being in strict mode ([None]).  The empty string is falsy and
    gives [{ openedWindows: [] }], as does a key with nothing
    stored. *)
Definition construct (st : gmap string StorageItem) : option WindowsManager :=
  match st !! windowsStateStorageKey with
  | Some (StoredString s) =>
      if truthy (Some s) then None else Some (newWindowsManager st)
  | Some (StoredWindowsState _) | None => Some (newWindowsManager st)
  end.

Definition toWindowState (win : CodeWindow) : IWindowState :=
  {| workspace := openedWorkspace win;
     folderPath := openedFolderPath win;
     backupPath := win_backupPath win;
     uiState := serializeWindowState win |}.

Class IEnvironmentService := {
  args : ParsedArgs
}.

(** ** Quit, close and window bookkeeping *)

Section Lifecycle.
Context `{!Platform, !Host, !ILifecycleService, !WindowsFinder}.

Definition notExtensionDevelopmentHost (w : CodeWindow) : bool :=
  negb (isExtensionDevelopmentHost w).

(** Step 1 of [onBeforeQuit]: the last closed window's state if there
    is one, else the last active window, or the first window that is
    not an extension development host. *)
Definition quitLastActiveWindow (m : WindowsManager) : option IWindowState :=
  match lastClosedWindowState m with
  | Some s => Some s
  | None =>
      let firstOther := head (List.filter notExtensionDevelopmentHost (WINDOWS m)) in
      let activeWindow :=
        match getLastActiveWindow (WINDOWS m) with
        | Some w => if isExtensionDevelopmentHost w then firstOther else Some w
        | None => firstOther
        end in
      option_map toWindowState activeWindow
  end.

(** Step 2: the extension development host that is not a test host. *)
Definition quitExtensionHostWindow (m : WindowsManager) : option IWindowState :=
  match head (List.filter
                (fun w => isExtensionDevelopmentHost w && negb (isExtensionTestHost w))
                (WINDOWS m)) with
  | Some w => Some (toWindowState w)
  | None => lastPluginDevelopmentHostWindow (windowsState m)
  end.

(** Step 3: all windows except extension hosts, for two windows or more. *)
Definition quitOpenedWindows (m : WindowsManager) : list IWindowState :=
  if (1 <? getWindowCount m)%nat
  then map toWindowState (List.filter notExtensionDevelopmentHost (WINDOWS m))
  else [].

Definition currentWindowsState (m : WindowsManager) : Legacy.ILegacyWindowsState :=
  {| Legacy.lastActiveWindow := option_map Legacy.ofState (quitLastActiveWindow m);
     Legacy.lastPluginDevelopmentHostWindow :=
       option_map Legacy.ofState (quitExtensionHostWindow m);
     Legacy.openedWindows := Some (map Legacy.ofState (quitOpenedWindows m));
     Legacy.openedFolders := Some [] |}.

Definition onBeforeQuit (m : WindowsManager) : WindowsManager :=
  setItem windowsStateStorageKey (StoredWindowsState (currentWindowsState m)) m.

Definition sameWorkspace (win : CodeWindow) (o : IWindowState) : bool :=
  match openedWorkspace win, workspace o with
  | Some w, Some ow => String.eqb (ws_id ow) (ws_id w)
  | _, _ => false
  end.

Definition sameFolder (win : CodeWindow) (o : IWindowState) : bool :=
  match nonEmpty (openedFolderPath win) with
  | Some f => isEqual (folderPath o) f (negb isLinux)
  | None => false
  end.

(** The body of the [openedWindows.forEach] callback of
    [onBeforeWindowClose]. *)
Definition updateUIState (win : CodeWindow) (o : IWindowState) : IWindowState :=
  if sameWorkspace win o || sameFolder win o
  then {| workspace := workspace o; folderPath := folderPath o;
          backupPath := backupPath o;
          uiState := uiState (toWindowState win) |}
  else o.

Definition onBeforeWindowClose (win : CodeWindow) (m : WindowsManager) : WindowsManager :=
  if isQuitRequested then m
  else
    let state := toWindowState win in
    let st := windowsState m in
    let m1 :=
      if isExtensionDevelopmentHost win && negb (isExtensionTestHost win) then
        set_windowsState
          {| lastActiveWindow := lastActiveWindow st;
             lastPluginDevelopmentHostWindow := Some state;
             openedWindows := openedWindows st |} m
      else if negb (isExtensionDevelopmentHost win)
              && (isSome (openedWorkspace win) || truthy (openedFolderPath win)) then
        set_windowsState
          {| lastActiveWindow := lastActiveWindow st;
             lastPluginDevelopmentHostWindow := lastPluginDevelopmentHostWindow st;
             openedWindows := map (updateUIState win) (openedWindows st) |} m
      else m in
    if (getWindowCount m1 =? 1)%nat
    then set_lastClosedWindowState (Some state) m1
    else m1.

(** [WINDOWS.indexOf(win)]; [None] is the source's [-1]. *)
Fixpoint indexOf (win : CodeWindow) (l : list CodeWindow) : option nat :=
  match l with
  | [] => None
  | w :: l' =>
      if (win_id w =? win_id win)%nat then Some 0
      else option_map S (indexOf win l')
  end.

(** [WINDOWS.splice(index, 1)]: a negative start counts from the end,
    so [-1] removes the last element. *)
Definition splice1 (index : option nat) (l : list CodeWindow) : list CodeWindow :=
  match index with
  | Some i => delete i l
  | None => removelast l
  end.

Definition onWindowClosed (win : CodeWindow) (m : WindowsManager) : WindowsManager :=
  let m1 := set_WINDOWS (splice1 (indexOf win (WINDOWS m)) (WINDOWS m)) m in
  let m2 :=
    fireWindowsCountChanged
      {| oldCount := length (WINDOWS m1) + 1; newCount := length (WINDOWS m1) |} m1 in
  fireWindowClose (win_id win) m2.

End Lifecycle.

(** ** Helpers of [vs/base/common/arrays] *)

(** Modelled from the spec: [arrays.distinct] is not part of the
    sources; it removes duplicates ("deduplicated by workspace id"),
    keeping the first element of every key. *)
Fixpoint distinct {A K} `{EqDecision K} (key : A -> K) (l : list A) : list A :=
  match l with
  | [] => []
  | x :: l' =>
      x :: List.filter (fun y => negb (bool_decide (key y = key x))) (distinct key l')
  end.

(** Modelled from the spec: [arrays.coalesce] is not part of the
    sources; it keeps the elements that are not [null] (paths that do
    not exist "are dropped"). *)
Definition coalesce {A} (l : list (option A)) : list A := omap id l.

(** ** Resolving what to open *)

Section Resolve.
Context `{!Platform, !Host, !ILifecycleService, !IBackupMainService,
          !IWorkspacesMainService, !IConfigurationService}.

Definition parsePath (anyPath : string) (ignoreFileNotFound gotoLineMode : bool) :
  option IWindowToOpen :=
  if String.eqb anyPath EmptyString then None
  else
    let '(anyPath', line, column) :=
      if gotoLineMode then parseLineAndColumnAware anyPath
      else (anyPath, None, None) in
    let candidate := normalize anyPath' in
    match statSync candidate with
    | Some IsFile =>
        match resolveWorkspaceSync candidate with
        | Some workspace =>
            Some {| to_workspace :=
                      Some {| ws_id := sw_id workspace; ws_configPath := candidate |};
                    to_folderPath := None; to_backupPath := None;
                    filePath := None; lineNumber := None; columnNumber := None;
                    createFilePath := false |}
        | None =>
            Some {| to_workspace := None; to_folderPath := None; to_backupPath := None;
                    filePath := Some candidate;
                    lineNumber := if gotoLineMode then line else None;
                    columnNumber := if gotoLineMode then column else None;
                    createFilePath := false |}
        end
    | Some (IsDirectory | IsOther) =>
        Some {| to_workspace := None; to_folderPath := Some candidate;
                to_backupPath := None;
                filePath := None; lineNumber := None; columnNumber := None;
                createFilePath := false |}
    | None =>
        if ignoreFileNotFound then
          Some {| to_workspace := None; to_folderPath := None; to_backupPath := None;
                  filePath := Some candidate;
                  lineNumber := None; columnNumber := None;
                  createFilePath := true |}
        else None
    end.

(** [(windowConfig && windowConfig.f) || d]. *)
Definition settingOr (f : IWindowSettings -> option string) (d : string) : string :=
  match windowConfig with
  | Some c => default d (nonEmpty (f c))
  | None => d
  end.

Definition restoreWindowsSettingOf (s : string) : option RestoreWindowsSetting :=
  if String.eqb s "all" then Some RestoreAll
  else if String.eqb s "folders" then Some RestoreFolders
  else if String.eqb s "one" then Some RestoreOne
  else if String.eqb s "none" then Some RestoreNone
  else None.

Definition getRestoreWindowsSetting : RestoreWindowsSetting :=
  if wasRestarted then RestoreAll
  else
    let restoreWindows0 := settingOr restoreWindows "one" in
    let restoreWindows1 :=
      if String.eqb restoreWindows0 "one" then
        match windowConfig with
        | Some c => default restoreWindows0 (nonEmpty (reopenFolders c))
        | None => restoreWindows0
        end
      else restoreWindows0 in
    default RestoreOne (restoreWindowsSettingOf restoreWindows1).

Definition backupWindow (b : string) : IWindowToOpen :=
  {| to_workspace := None; to_folderPath := None; to_backupPath := Some b;
     filePath := None; lineNumber := None; columnNumber := None;
     createFilePath := false |}.

(** The [case 'one'] of [doGetWindowsFromLastSession]; [None] is the
    [break] that leads to the empty-window fallback. *)
Definition restoreOne (lastActive : option IWindowState) : option (list IWindowToOpen) :=
  match lastActive with
  | Some la =>
      match workspace la with
      | Some candidateWorkspace =>
          match parsePath (ws_configPath candidateWorkspace) false false with
          | Some validatedWorkspace =>
              if isSome (to_workspace validatedWorkspace)
              then Some [validatedWorkspace] else None
          | None => None
          end
      | None =>
          match nonEmpty (folderPath la) with
          | Some folder =>
              match parsePath folder false false with
              | Some validatedFolder =>
                  if truthy (to_folderPath validatedFolder)
                  then Some [validatedFolder] else None
              | None => None
              end
          | None =>
              match nonEmpty (backupPath la) with
              | Some backup => Some [backupWindow backup]
              | None => None
              end
          end
      end
  | None => None
  end.

Definition isEmptyWithBackup (w : IWindowState) : bool :=
  negb (isSome (workspace w)) && negb (truthy (folderPath w)) && truthy (backupPath w).

(** The [case 'all'] and [case 'folders']. *)
Definition restoreAll (restoreWindows : RestoreWindowsSetting) (st : IWindowsState) :
  list IWindowToOpen :=
  let lastActive := lastActiveWindow st in
  let workspaceCandidates :=
    omap workspace (openedWindows st)
    ++ match lastActive with
       | Some la => omap workspace [la]
       | None => []
       end in
  let workspaces :=
    List.filter (fun w => isSome (to_workspace w))
      (omap (fun c => parsePath (ws_configPath c) false false) workspaceCandidates) in
  let folderCandidates :=
    omap (fun w => nonEmpty (folderPath w)) (openedWindows st)
    ++ match lastActive with
       | Some la => omap (fun w => nonEmpty (folderPath w)) [la]
       | None => []
       end in
  let folders :=
    List.filter (fun w => truthy (to_folderPath w))
      (omap (fun c => parsePath c false false) folderCandidates) in
  let empties :=
    match restoreWindows with
    | RestoreAll =>
        let lastOpenedEmpty :=
          omap backupPath (List.filter isEmptyWithBackup (openedWindows st)) in
        let lastActiveEmpty :=
          match lastActive with
          | Some la => omap backupPath (List.filter isEmptyWithBackup [la])
          | None => []
          end in
        map backupWindow (lastOpenedEmpty ++ lastActiveEmpty)
    | _ => []
    end in
  workspaces ++ folders ++ empties.

Definition doGetWindowsFromLastSession (m : WindowsManager) : list IWindowToOpen :=
  let restoreWindows := getRestoreWindowsSetting in
  let lastActive := lastActiveWindow (windowsState m) in
  match restoreWindows with
  | RestoreNone => [emptyWindow]
  | RestoreOne => default [emptyWindow] (restoreOne lastActive)
  | RestoreAll | RestoreFolders =>
      match restoreAll restoreWindows (windowsState m) with
      | [] => [emptyWindow]
      | windowsToOpen => windowsToOpen
      end
  end.

Definition isUntitledWorkspaceState (st : IWindowState) : bool :=
  match workspace st with
  | Some w => isUntitledWorkspace w
  | None => false
  end.

Definition doGetUntitledWorkspacesFromLastSession (m : WindowsManager) :
  list IWorkspaceIdentifier :=
  let st := windowsState m in
  let candidates :=
    match lastActiveWindow st with
    | Some la => omap workspace (List.filter isUntitledWorkspaceState [la])
    | None => []
    end
    ++ omap workspace (List.filter isUntitledWorkspaceState (openedWindows st)) in
  coalesce
    (map (fun c => match parsePath (ws_configPath c) false false with
                   | Some window => to_workspace window
                   | None => None
                   end) candidates).

Definition doExtractPathsFromAPI (paths : list string) (gotoLineMode : bool) :
  list IWindowToOpen :=
  coalesce (map (fun pathToOpen => parsePath pathToOpen false gotoLineMode) paths).

Definition doExtractPathsFromCLI (cli : ParsedArgs) : list IWindowToOpen :=
  match coalesce (map (fun candidate => parsePath candidate true (goto cli)) (args_ cli)) with
  | [] => [emptyWindow]
  | pathsToOpen => pathsToOpen
  end.

Definition getWindowsToOpen (openConfig : IOpenConfiguration) (m : WindowsManager) :
  list IWindowToOpen :=
  match pathsToOpen openConfig with
  | Some (p :: ps) => doExtractPathsFromAPI (p :: ps) (goto (cli openConfig))
  | _ =>
      if forceEmpty openConfig then [emptyWindow]
      else
        match args_ (cli openConfig) with
        | _ :: _ => doExtractPathsFromCLI (cli openConfig)
        | [] => doGetWindowsFromLastSession m
        end
  end.

Definition shouldOpenNewWindow (openConfig : IOpenConfiguration) : bool * option bool :=
  let openFolderInNewWindowConfig := settingOr openFoldersInNewWindow "default" in
  let openFilesInNewWindowConfig := settingOr openFilesInNewWindow "off" in
  let isOnOff s := String.eqb s "on" || String.eqb s "off" in
  let openFolderInNewWindow :=
    if negb (forceNewWindow openConfig) && negb (forceReuseWindow openConfig)
       && isOnOff openFolderInNewWindowConfig
    then String.eqb openFolderInNewWindowConfig "on"
    else (preferNewWindow openConfig || forceNewWindow openConfig)
         && negb (forceReuseWindow openConfig) in
  let openFilesInNewWindow :=
    if forceNewWindow openConfig || forceReuseWindow openConfig
    then Some (forceNewWindow openConfig && negb (forceReuseWindow openConfig))
    else
      if negb (truthy (extensionDevelopmentPath (cli openConfig)))
         && isOnOff openFilesInNewWindowConfig
      then Some (String.eqb openFilesInNewWindowConfig "on")
      else match context openConfig with DOCK => Some true | _ => None end in
  (openFolderInNewWindow, openFilesInNewWindow).

End Resolve.

(** ** Opening windows *)

(** Which statement of [doOpen] pushed a window on [usedWindows]. *)
Inductive PlacementKind :=
| FilesInExistingWindow
| FilesInNewWindow
| WorkspaceReload
| WorkspaceExisting
| WorkspaceOpen
| FolderExisting
| FolderOpen
| EmptyRestore
| EmptyOpen.

(** One push on [usedWindows]: the window, the [forceNewWindow] the
    call was given, whether the window was created by the call, and
    the value of [openFolderInNewWindow] when the call was made. *)
Record Placement := {
  p_kind : PlacementKind;
  p_window : CodeWindow;
  p_forceNewWindow : bool;
  p_created : bool;
  p_flag : bool
}.

(** The local variables of [doOpen], the manager, and the pushes made
    so far. *)
Record OpenState := {
  mgr : WindowsManager;
  usedWindows : list CodeWindow;
  filesToOpen : list IWindowToOpen;
  filesToCreate : list IWindowToOpen;
  filesToDiff : list IWindowToOpen;
  workspacesToOpen : list IWorkspaceIdentifier;
  foldersToOpen : list string;
  openFolderInNewWindow : bool;
  placements : list Placement
}.

Definition withMgr (m : WindowsManager) (s : OpenState) : OpenState :=
  {| mgr := m; usedWindows := usedWindows s;
     filesToOpen := filesToOpen s; filesToCreate := filesToCreate s;
     filesToDiff := filesToDiff s;
     workspacesToOpen := workspacesToOpen s; foldersToOpen := foldersToOpen s;
     openFolderInNewWindow := openFolderInNewWindow s;
     placements := placements s |}.

(** [usedWindows.push(...)]. *)
Definition pushUsed (p : Placement) (s : OpenState) : OpenState :=
  {| mgr := mgr s; usedWindows := usedWindows s ++ [p_window p];
     filesToOpen := filesToOpen s; filesToCreate := filesToCreate s;
     filesToDiff := filesToDiff s;
     workspacesToOpen := workspacesToOpen s; foldersToOpen := foldersToOpen s;
     openFolderInNewWindow := openFolderInNewWindow s;
     placements := placements s ++ [p] |}.

(** "Reset these because we handled them". *)
Definition handled (s : OpenState) : OpenState :=
  {| mgr := mgr s; usedWindows := usedWindows s;
     filesToOpen := []; filesToCreate := []; filesToDiff := [];
     workspacesToOpen := workspacesToOpen s; foldersToOpen := foldersToOpen s;
     openFolderInNewWindow := openFolderInNewWindow s;
     placements := placements s |}.

(** [openFolderInNewWindow = true]. *)
Definition mustOpenInNewWindow (s : OpenState) : OpenState :=
  {| mgr := mgr s; usedWindows := usedWindows s;
     filesToOpen := filesToOpen s; filesToCreate := filesToCreate s;
     filesToDiff := filesToDiff s;
     workspacesToOpen := workspacesToOpen s; foldersToOpen := foldersToOpen s;
     openFolderInNewWindow := true;
     placements := placements s |}.

Definition pushWorkspaceToOpen (w : IWorkspaceIdentifier) (s : OpenState) : OpenState :=
  {| mgr := mgr s; usedWindows := usedWindows s;
     filesToOpen := filesToOpen s; filesToCreate := filesToCreate s;
     filesToDiff := filesToDiff s;
     workspacesToOpen := workspacesToOpen s ++ [w]; foldersToOpen := foldersToOpen s;
     openFolderInNewWindow := openFolderInNewWindow s;
     placements := placements s |}.

Definition pushFolderToOpen (f : string) (s : OpenState) : OpenState :=
  {| mgr := mgr s; usedWindows := usedWindows s;
     filesToOpen := filesToOpen s; filesToCreate := filesToCreate s;
     filesToDiff := filesToDiff s;
     workspacesToOpen := workspacesToOpen s; foldersToOpen := foldersToOpen s ++ [f];
     openFolderInNewWindow := openFolderInNewWindow s;
     placements := placements s |}.

(** [forEach] over a callback that can raise. *)
Fixpoint forEachM {A S} (f : A -> S -> option S) (l : list A) (s : S) : option S :=
  match l with
  | [] => Some s
  | x :: l' =>
      match f x s with
      | Some s' => forEachM f l' s'
      | None => None
      end
  end.

Definition isFileToOpen (p : IWindowToOpen) : bool :=
  truthy (filePath p) && negb (createFilePath p).

Definition isFileToCreate (p : IWindowToOpen) : bool :=
  truthy (filePath p) && createFilePath p.

(** The first statements of [open]: the files to open, to create and
    to diff, in this order. *)
Definition classifyFiles (diffMode : bool) (windowsToOpen : list IWindowToOpen) :
  list IWindowToOpen * list IWindowToOpen * list IWindowToOpen :=
  let filesToOpen := List.filter isFileToOpen windowsToOpen in
  let filesToCreate := List.filter isFileToCreate windowsToOpen in
  if diffMode && (length filesToOpen =? 2)
  then ([], [], filesToOpen)
  else (filesToOpen, filesToCreate, []).

Definition isEmptyToOpen (win : IWindowToOpen) : bool :=
  negb (isSome (to_workspace win)) && negb (truthy (to_folderPath win))
  && negb (truthy (filePath win)) && negb (truthy (to_backupPath win)).

Definition isEmptyToRestore (w : IWindowToOpen) : bool :=
  negb (isSome (to_workspace w)) && negb (truthy (to_folderPath w))
  && truthy (to_backupPath w).

Section Open.
Context `{!Platform, !Host, !ILifecycleService, !IBackupMainService,
          !IWorkspacesMainService, !IConfigurationService,
          !IEnvironmentService, !WindowsFinder, !IInstantiationService}.

(** The window [openInBrowserWindow] reuses, if any: unless a new
    window is forced, the window to use or else the last active one. *)
Definition windowToReuse (options : IOpenBrowserWindowOptions) (m : WindowsManager) :
  option CodeWindow :=
  if o_forceNewWindow options then None
  else
    match o_windowToUse options with
    | Some w => Some w
    | None => getLastActiveWindow (WINDOWS m)
    end.

(** The configuration built from the options (and, for a reused
    extension development host, inherited from its current
    configuration) is represented by the options it is built from.
    For a new window the stored UI states are what the computation of
    its state, the downgrade of a full-screen mode and the constructor
    of [CodeWindow] leave in them; a reused window leaves them as they
    are. *)
Definition openInBrowserWindow (options : IOpenBrowserWindowOptions) (m : WindowsManager) :
  CodeWindow * WindowsManager :=
  match windowToReuse options m with
  | None =>
      let codeWindow :=
        createInstance (nextWindowId m) options (WINDOWS m) (windowsState m) in
      let m0 :=
        writeStoredUiStates
          (storedUiState (nextWindowId m) options (WINDOWS m) (windowsState m)
             (lastClosedWindowState m)) m in
      let m1 := pushWindow codeWindow m0 in
      let m2 :=
        fireWindowsCountChanged
          {| oldCount := length (WINDOWS m1) - 1; newCount := length (WINDOWS m1) |} m1 in
      (codeWindow, requestLoad codeWindow options m2)
  | Some codeWindow => (codeWindow, requestLoad codeWindow options m)
  end.

Definition closeWorkspace (win : CodeWindow) (m : WindowsManager) : WindowsManager :=
  snd (openInBrowserWindow
         {| o_userEnv := None; o_cli := args; o_workspace := None;
            o_folderPath := None; o_initialStartup := false;
            o_filesToOpen := []; o_filesToCreate := []; o_filesToDiff := [];
            o_forceNewWindow := false; o_windowToUse := Some win;
            o_emptyWindowBackupFolder := None |} m).

(** The options [doOpen] and [doOpenFolderOrWorkspace] hand to
    [openInBrowserWindow], with the files still pending. *)
Definition optionsFor (openConfig : IOpenConfiguration) (s : OpenState)
  (ws : option IWorkspaceIdentifier) (folder : option string)
  (forceNew : bool) (windowToUse : option CodeWindow)
  (emptyWindowBackupFolder : option string) : IOpenBrowserWindowOptions :=
  {| o_userEnv := userEnv openConfig; o_cli := cli openConfig;
     o_workspace := ws; o_folderPath := folder;
     o_initialStartup := initialStartup openConfig;
     o_filesToOpen := filesToOpen s; o_filesToCreate := filesToCreate s;
     o_filesToDiff := filesToDiff s;
     o_forceNewWindow := forceNew; o_windowToUse := windowToUse;
     o_emptyWindowBackupFolder := emptyWindowBackupFolder |}.

(** [usedWindows.push(this.openInBrowserWindow(options))]. *)
Definition pushOpened (k : PlacementKind) (options : IOpenBrowserWindowOptions)
  (s : OpenState) : OpenState :=
  let created := negb (isSome (windowToReuse options (mgr s))) in
  let '(w, m') := openInBrowserWindow options (mgr s) in
  pushUsed {| p_kind := k; p_window := w;
              p_forceNewWindow := o_forceNewWindow options;
              p_created := created;
              p_flag := openFolderInNewWindow s |} (withMgr m' s).

(** [usedWindows.push(this.doOpenFilesInExistingWindow(window, ...))]. *)
Definition pushExisting (k : PlacementKind) (window : CodeWindow) (s : OpenState) : OpenState :=
  pushUsed {| p_kind := k; p_window := window; p_forceNewWindow := false;
              p_created := false; p_flag := openFolderInNewWindow s |} s.

(** Files to open, diff or create when no folder is opened and none is
    restored. *)
Definition openFilesStep (openConfig : IOpenConfiguration)
  (openFilesInNewWindow : option bool)
  (foldersToRestore emptyToRestore : list string) (s : OpenState) : OpenState :=
  match foldersToOpen s, foldersToRestore, emptyToRestore with
  | [], [], [] =>
      match filesToOpen s ++ filesToCreate s ++ filesToDiff s with
      | [] => s
      | fileToCheck :: _ =>
          match findBestWindowOrFolderForFile (WINDOWS (mgr s)) openFilesInNewWindow
                  (forceReuseWindow openConfig) (context openConfig)
                  (filePath fileToCheck) with
          | BestWindow w =>
              match openedWorkspace w with
              | Some ws => pushWorkspaceToOpen ws s
              | None =>
                  match nonEmpty (openedFolderPath w) with
                  | Some folder => pushFolderToOpen folder s
                  | None => handled (pushExisting FilesInExistingWindow w s)
                  end
              end
          | BestFolder f => pushFolderToOpen f s
          | BestNone =>
              handled (pushOpened FilesInNewWindow
                         (optionsFor openConfig s None None true None None) s)
          end
      end
  | _, _, _ => s
  end.

(** First pass over the workspaces: a window that has the workspace
    open under another configuration path is reloaded with the new
    one.  Reading [openedWorkspace.configPath] of a window without a
    workspace raises. *)
Definition reloadMovedWorkspace (openConfig : IOpenConfiguration)
  (workspaceToOpen : IWorkspaceIdentifier) (s : OpenState) : option OpenState :=
  match findWindowOnWorkspace (WINDOWS (mgr s)) (inl workspaceToOpen) with
  | Some existingWindow =>
      match openedWorkspace existingWindow with
      | Some opened =>
          if negb (String.eqb (ws_configPath opened) (ws_configPath workspaceToOpen))
          then
            Some (mustOpenInNewWindow
                    (handled
                       (pushOpened WorkspaceReload
                          (optionsFor openConfig s (Some workspaceToOpen) None
                             false (Some existingWindow) None) s)))
          else Some s
      | None => None
      end
  | None => Some s
  end.

(** [windowsOnWorkspace.some(win => win.openedWorkspace.id ===
    workspaceToOpen.id)]; reading the [id] of an absent workspace
    raises. *)
Fixpoint someOnWorkspace (windows : list CodeWindow) (workspaceToOpen : IWorkspaceIdentifier) :
  option bool :=
  match windows with
  | [] => Some false
  | win :: rest =>
      match openedWorkspace win with
      | Some opened =>
          if String.eqb (ws_id opened) (ws_id workspaceToOpen) then Some true
          else someOnWorkspace rest workspaceToOpen
      | None => None
      end
  end.

Definition openRemainingWorkspace (openConfig : IOpenConfiguration)
  (windowsOnWorkspace : list CodeWindow)
  (workspaceToOpen : IWorkspaceIdentifier) (s : OpenState) : option OpenState :=
  match someOnWorkspace windowsOnWorkspace workspaceToOpen with
  | Some true => Some s
  | Some false =>
      Some (mustOpenInNewWindow
              (handled
                 (pushOpened WorkspaceOpen
                    (optionsFor openConfig s (Some workspaceToOpen) None
                       (openFolderInNewWindow s) None None) s)))
  | None => None
  end.

Definition openWorkspacesStep (openConfig : IOpenConfiguration)
  (workspacesToRestore : list IWorkspaceIdentifier) (s : OpenState) : option OpenState :=
  match distinct ws_id (workspacesToOpen s ++ workspacesToRestore) with
  | [] => Some s
  | allWorkspacesToOpen =>
      s1 ← forEachM (reloadMovedWorkspace openConfig) allWorkspacesToOpen s;
      let windowsOnWorkspace :=
        coalesce (map (fun ws => findWindowOnWorkspace (WINDOWS (mgr s1)) (inl ws))
                    allWorkspacesToOpen) in
      let s2 :=
        match windowsOnWorkspace with
        | windowOnWorkspace :: _ =>
            mustOpenInNewWindow (handled (pushExisting WorkspaceExisting windowOnWorkspace s1))
        | [] => s1
        end in
      forEachM (openRemainingWorkspace openConfig windowsOnWorkspace)
        allWorkspacesToOpen s2
  end.

Definition folderKey (folder : string) : string :=
  if isLinux then folder else toLowerCase folder.

Definition openRemainingFolder (openConfig : IOpenConfiguration)
  (windowsOnFolderPath : list CodeWindow) (folderToOpen : string) (s : OpenState) :
  option OpenState :=
  if existsb (fun win => isEqual (openedFolderPath win) folderToOpen (negb isLinux))
       windowsOnFolderPath
  then Some s
  else
    Some (mustOpenInNewWindow
            (handled
               (pushOpened FolderOpen
                  (optionsFor openConfig s None (Some folderToOpen)
                     (openFolderInNewWindow s) None None) s))).

Definition openFoldersStep (openConfig : IOpenConfiguration)
  (foldersToRestore : list string) (s : OpenState) : option OpenState :=
  match distinct folderKey (foldersToOpen s ++ foldersToRestore) with
  | [] => Some s
  | allFoldersToOpen =>
      let windowsOnFolderPath :=
        coalesce (map (fun f => findWindowOnWorkspace (WINDOWS (mgr s)) (inr f))
                    allFoldersToOpen) in
      let s1 :=
        match windowsOnFolderPath with
        | windowOnFolderPath :: _ =>
            mustOpenInNewWindow (handled (pushExisting FolderExisting windowOnFolderPath s))
        | [] => s
        end in
      forEachM (openRemainingFolder openConfig windowsOnFolderPath) allFoldersToOpen s1
  end.

Definition restoreEmptyWindow (openConfig : IOpenConfiguration)
  (emptyWindowBackupFolder : string) (s : OpenState) : option OpenState :=
  Some (mustOpenInNewWindow
          (handled
             (pushOpened EmptyRestore
                (optionsFor openConfig s None None true None
                   (Some emptyWindowBackupFolder)) s))).

(** The files, workspaces, folders and empty windows to restore, in
    the order of [doOpen]. *)
Definition placementSteps (openConfig : IOpenConfiguration)
  (workspacesToRestore : list IWorkspaceIdentifier)
  (foldersToRestore emptyToRestore : list string)
  (openFilesInNewWindow : option bool) (s : OpenState) : option OpenState :=
  s1 ← openWorkspacesStep openConfig workspacesToRestore
         (openFilesStep openConfig openFilesInNewWindow foldersToRestore emptyToRestore s);
  s2 ← openFoldersStep openConfig foldersToRestore s1;
  forEachM (restoreEmptyWindow openConfig) emptyToRestore s2.

(** One round of the [for] loop that opens empty windows; it is given
    no file. *)
Definition openEmptyWindow (openConfig : IOpenConfiguration) (s : OpenState) : OpenState :=
  mustOpenInNewWindow
    (pushOpened EmptyOpen
       (optionsFor openConfig (handled s) None None (openFolderInNewWindow s) None None)
       s).

(** "Handle empty to open (only if no other window opened)". *)
Definition openEmptyStep (openConfig : IOpenConfiguration) (emptyToOpen : nat)
  (s : OpenState) : OpenState :=
  match usedWindows s with
  | [] => Nat.iter emptyToOpen (openEmptyWindow openConfig) s
  | _ => s
  end.

(** The locals of [doOpen] on entry. *)
Definition initialOpenState (openConfig : IOpenConfiguration)
  (workspacesToOpen : list IWorkspaceIdentifier) (foldersToOpen : list string)
  (filesToOpen filesToCreate filesToDiff : list IWindowToOpen)
  (m : WindowsManager) : OpenState :=
  {| mgr := m; usedWindows := [];
     filesToOpen := filesToOpen; filesToCreate := filesToCreate;
     filesToDiff := filesToDiff;
     workspacesToOpen := workspacesToOpen; foldersToOpen := foldersToOpen;
     openFolderInNewWindow := fst (shouldOpenNewWindow openConfig);
     placements := [] |}.

(** [doOpen] up to its [return]. *)
Definition doOpenSteps (openConfig : IOpenConfiguration)
  (workspacesToOpen workspacesToRestore : list IWorkspaceIdentifier)
  (foldersToOpen foldersToRestore emptyToRestore : list string)
  (emptyToOpen : nat)
  (filesToOpen filesToCreate filesToDiff : list IWindowToOpen)
  (m : WindowsManager) : option OpenState :=
  s ← placementSteps openConfig workspacesToRestore foldersToRestore emptyToRestore
        (snd (shouldOpenNewWindow openConfig))
        (initialOpenState openConfig workspacesToOpen foldersToOpen
           filesToOpen filesToCreate filesToDiff m);
  Some (openEmptyStep openConfig emptyToOpen s).

Definition doOpen (openConfig : IOpenConfiguration)
  (workspacesToOpen workspacesToRestore : list IWorkspaceIdentifier)
  (foldersToOpen foldersToRestore emptyToRestore : list string)
  (emptyToOpen : nat)
  (filesToOpen filesToCreate filesToDiff : list IWindowToOpen)
  (m : WindowsManager) : option (list CodeWindow * WindowsManager) :=
  s ← doOpenSteps openConfig workspacesToOpen workspacesToRestore foldersToOpen
        foldersToRestore emptyToRestore emptyToOpen
        filesToOpen filesToCreate filesToDiff m;
  Some (distinct win_id (usedWindows s), mgr s).

End Open.

Section OpenEntry.
Context `{!Platform, !Host, !ILifecycleService, !IBackupMainService,
          !IWorkspacesMainService, !IConfigurationService,
          !IEnvironmentService, !WindowsFinder, !IInstantiationService}.

Definition workspacesToOpenOf (windowsToOpen : list IWindowToOpen) : list IWorkspaceIdentifier :=
  distinct ws_id (omap to_workspace windowsToOpen).

Definition foldersToOpenOf (windowsToOpen : list IWindowToOpen) : list string :=
  distinct folderKey
    (omap to_folderPath
       (List.filter (fun win => truthy (to_folderPath win) && negb (truthy (filePath win)))
          windowsToOpen)).

(** Restoring from hot exit and the previous session happens on the
    initial startup, outside extension development. *)
Definition restores (openConfig : IOpenConfiguration) : bool :=
  initialStartup openConfig
  && negb (truthy (extensionDevelopmentPath (cli openConfig))).

Definition foldersToRestoreOf (openConfig : IOpenConfiguration) : list string :=
  if restores openConfig then getFolderBackupPaths else [].

Definition workspacesToRestoreOf (openConfig : IOpenConfiguration) (m : WindowsManager) :
  list IWorkspaceIdentifier :=
  if restores openConfig
  then getWorkspaceBackups ++ doGetUntitledWorkspacesFromLastSession m
  else [].

Definition emptyToRestoreOf (openConfig : IOpenConfiguration)
  (windowsToOpen : list IWindowToOpen) : list string :=
  if restores openConfig
  then distinct id
         (getEmptyWindowBackupPaths
          ++ map basename (omap to_backupPath (List.filter isEmptyToRestore windowsToOpen)))
  else [].

Definition emptyToOpenOf (windowsToOpen : list IWindowToOpen) : nat :=
  length (List.filter isEmptyToOpen windowsToOpen).

(** The state of [doOpen], as [open] calls it, before it turns to the
    empty windows to open. *)
Definition openPlacement (openConfig : IOpenConfiguration) (m : WindowsManager) :
  option OpenState :=
  let windowsToOpen := getWindowsToOpen openConfig m in
  let '(filesToOpen, filesToCreate, filesToDiff) :=
    classifyFiles (diffMode openConfig) windowsToOpen in
  placementSteps openConfig (workspacesToRestoreOf openConfig m)
    (foldersToRestoreOf openConfig) (emptyToRestoreOf openConfig windowsToOpen)
    (snd (shouldOpenNewWindow openConfig))
    (initialOpenState openConfig (workspacesToOpenOf windowsToOpen)
       (foldersToOpenOf windowsToOpen) filesToOpen filesToCreate filesToDiff m).

(** [doOpen] as [open] calls it, for given lists of files. *)
Definition doOpenWith (openConfig : IOpenConfiguration) (m : WindowsManager)
  (filesToOpen filesToCreate filesToDiff : list IWindowToOpen) :
  option (list CodeWindow * WindowsManager) :=
  let windowsToOpen := getWindowsToOpen openConfig m in
  doOpen openConfig
    (workspacesToOpenOf windowsToOpen) (workspacesToRestoreOf openConfig m)
    (foldersToOpenOf windowsToOpen) (foldersToRestoreOf openConfig)
    (emptyToRestoreOf openConfig windowsToOpen)
    (emptyToOpenOf windowsToOpen)
    filesToOpen filesToCreate filesToDiff m.

(** [open]: the windows used, and the manager afterwards.  What
    follows [doOpen] in the source (focus, history, wait marker) only
    acts on collaborators. *)
Definition open (openConfig : IOpenConfiguration) (m : WindowsManager) :
  option (list CodeWindow * WindowsManager) :=
  let '(filesToOpen, filesToCreate, filesToDiff) :=
    classifyFiles (diffMode openConfig) (getWindowsToOpen openConfig m) in
  doOpenWith openConfig m filesToOpen filesToCreate filesToDiff.

End OpenEntry.

(** ** The prompt to save an untitled workspace *)

Inductive UnloadReason := CLOSE | QUIT | RELOAD | LOAD.

Inductive ConfirmResult := SAVE | DONT_SAVE | CANCEL.

(** What [e.veto(...)] is given: a boolean or a promise of one. *)
Inductive Veto :=
| VetoValue (b : bool)
| VetoPromise (p : Settled bool).

(** The veto the unload finally gets. *)
Definition vetoOutcome (v : Veto) : Settled bool :=
  match v with
  | VetoValue b => Fulfilled b
  | VetoPromise p => p
  end.

(** What the prompt did: the veto it passed to the event, and the
    untitled workspace it deleted, if any. *)
Record PromptResult := {
  veto : Veto;
  deletedUntitledWorkspace : option IWorkspaceIdentifier
}.

Section Prompt.
Context `{!Platform, !IWorkspacesMainService}.

Definition buttons : list ConfirmResult :=
  if isWindows then [SAVE; DONT_SAVE; CANCEL]
  else if isLinux then [DONT_SAVE; CANCEL; SAVE]
  else [SAVE; CANCEL; DONT_SAVE].

(** [res] is the index [dialog.showMessageBox] returns and [target]
    the path [dialog.showSaveDialog] returns; [None] when [buttons[res]]
    is undefined and reading its [result] raises. *)
Definition promptToSaveUntitledWorkspace (workspace : IWorkspaceIdentifier)
  (res : nat) (target : option string) : option PromptResult :=
  match buttons !! res with
  | Some CANCEL =>
      Some {| veto := VetoValue true; deletedUntitledWorkspace := None |}
  | Some DONT_SAVE =>
      Some {| veto := VetoValue false; deletedUntitledWorkspace := Some workspace |}
  | Some SAVE =>
      match nonEmpty target with
      | Some target =>
          Some {| veto :=
                    VetoPromise
                      (then_ (saveWorkspace workspace target)
                         (fun _ => false) (fun _ => false));
                  deletedUntitledWorkspace := None |}
      | None => Some {| veto := VetoValue true; deletedUntitledWorkspace := None |}
      end
  | None => None
  end.

End Prompt.

Section Unload.
Context `{!Platform, !IWorkspacesMainService}.

(** What [onBeforeWindowUnload] did with the event. *)
Inductive UnloadHandling :=
| NotAsked
| Asked (r : PromptResult)
| Raised.

Definition onBeforeWindowUnload (reason : UnloadReason) (window : CodeWindow)
  (m : WindowsManager) (res : nat) (target : option string) : UnloadHandling :=
  let windowClosing := match reason with CLOSE => true | _ => false end in
  let windowLoading := match reason with LOAD => true | _ => false end in
  if negb windowClosing && negb windowLoading then NotAsked
  else
    match openedWorkspace window with
    | None => NotAsked
    | Some workspace =>
        if negb (isUntitledWorkspace workspace) then NotAsked
        else if windowClosing && negb isMacintosh && (getWindowCount m =? 1) then NotAsked
        else
          match promptToSaveUntitledWorkspace workspace res target with
          | Some r => Asked r
          | None => Raised
          end
    end.

End Unload.

(** ** The events the manager reacts to *)

Section Steps.
Context `{!Platform, !Host, !IBackupMainService,
          !IWorkspacesMainService, !IConfigurationService,
          !IEnvironmentService, !WindowsFinder, !IInstantiationService}.

(** One call into the manager; the lifecycle service is read anew at
    every call. *)
Inductive step : WindowsManager -> WindowsManager -> Prop :=
| step_open (L : ILifecycleService) openConfig m used m' :
    open openConfig m = Some (used, m') -> step m m'
| step_openInBrowserWindow options m :
    step m (snd (openInBrowserWindow options m))
| step_closeWorkspace win m :
    step m (closeWorkspace win m)
| step_onWindowClosed win m :
    step m (onWindowClosed win m)
| step_onBeforeWindowClose (L : ILifecycleService) win m :
    step m (onBeforeWindowClose win m)
| step_onBeforeQuit m :
    step m (onBeforeQuit m).

(** The states the manager can be in, from its construction on. *)
Definition reachable (m : WindowsManager) : Prop :=
  exists st, rtc step (newWindowsManager st) m.

End Steps.

(** ** Looking up, focusing and opening windows *)

(** [getWindowById]: the window with this id, when exactly one live
    window has it. *)
Definition getWindowById (windowId : nat) (m : WindowsManager) : option CodeWindow :=
  match List.filter (fun w => win_id w =? windowId) (WINDOWS m) with
  | [w] => Some w
  | _ => None
  end.

Section Windows.
Context `{!Platform, !Host, !ILifecycleService, !IBackupMainService,
          !IWorkspacesMainService, !IConfigurationService,
          !IEnvironmentService, !WindowsFinder, !IInstantiationService}.

(** The request [openNewWindow] hands to [open]. *)
Definition newWindowConfiguration (context : OpenContext) : IOpenConfiguration :=
  {| context := context; cli := args; userEnv := None; pathsToOpen := None;
     preferNewWindow := false; forceNewWindow := true; forceReuseWindow := false;
     forceEmpty := true; diffMode := false; initialStartup := false |}.

Definition openNewWindow (context : OpenContext) (m : WindowsManager) :
  option WindowsManager :=
  snd <$> open (newWindowConfiguration context) m.

(** The request [focusLastActive] hands to [open] when no window is
    live. *)
Definition emptyWindowConfiguration (cli : ParsedArgs) (context : OpenContext) :
  IOpenConfiguration :=
  {| context := context; cli := cli; userEnv := None; pathsToOpen := None;
     preferNewWindow := false; forceNewWindow := false; forceReuseWindow := false;
     forceEmpty := true; diffMode := false; initialStartup := false |}.

(** [focusLastActive]: the window it returns ([open(...)[0]] is
    [undefined] for an empty list) and the manager afterwards. *)
Definition focusLastActive (cli : ParsedArgs) (context : OpenContext) (m : WindowsManager) :
  option (option CodeWindow * WindowsManager) :=
  match getLastActiveWindow (WINDOWS m) with
  | Some lastActive => Some (Some lastActive, m)
  | None =>
      r ← open (emptyWindowConfiguration cli context) m;
      Some (head (fst r), snd r)
  end.

End Windows.

(** ** A workspace saved to another location *)

Record IWorkspaceSavedEvent := {
  sv_workspace : IWorkspaceIdentifier;
  oldConfigPath : string
}.

(** The body of the [states.forEach] callback of [onWorkspaceSaved];
    an absent state is skipped. *)
Definition updateConfigPath (e : IWorkspaceSavedEvent) (state : IWindowState) : IWindowState :=
  match workspace state with
  | Some w =>
      if String.eqb (ws_id w) (ws_id (sv_workspace e))
         && negb (String.eqb (ws_configPath w) (ws_configPath (sv_workspace e)))
      then {| workspace :=
                Some {| ws_id := ws_id w;
                        ws_configPath := ws_configPath (sv_workspace e) |};
              folderPath := folderPath state; backupPath := backupPath state;
              uiState := uiState state |}
      else state
  | None => state
  end.

(** [onWorkspaceSaved]: the last closed window's state, the last
    active window, the last extension development host window and all
    opened windows are visited.  The identifier it writes to is the
    one the stored state holds; what is followed here is the stored
    states. *)
Definition onWorkspaceSaved (e : IWorkspaceSavedEvent) (m : WindowsManager) : WindowsManager :=
  set_lastClosedWindowState
    (option_map (updateConfigPath e) (lastClosedWindowState m))
    (set_windowsState
       {| lastActiveWindow :=
            option_map (updateConfigPath e) (lastActiveWindow (windowsState m));
          lastPluginDevelopmentHostWindow :=
            option_map (updateConfigPath e)
              (lastPluginDevelopmentHostWindow (windowsState m));
          openedWindows := map (updateConfigPath e) (openedWindows (windowsState m)) |}
       m).

(** ** The stored geometry of a new window *)

(** Node's [path.dirname] and [path.join], and the [backupHome] of the
    environment service. *)
Class Paths := {
  dirname : string -> string;
  join : string -> string -> string;
  backupHome : string
}.

(** Modelled from the spec: [IWindowConfiguration] is declared in
    [vs/platform/windows/common/windows], which is not part of the
    sources; it is the "configuration record carrying environment, CLI
    flags, target workspace/folder/files, and startup flag".  These are
    the members [getNewWindowState] reads. *)
Record IWindowConfiguration := {
  c_extensionTestsPath : option string;
  c_extensionDevelopmentPath : option string;
  c_workspace : option IWorkspaceIdentifier;
  c_folderPath : option string;
  c_backupPath : option string
}.

Section NewWindowState.
Context `{!Platform, !Host, !WindowsFinder, !Paths}.

(** The configuration [openInBrowserWindow] builds from its options:
    the members of the CLI are inherited, and the backup path is known
    upfront for an empty window to restore. *)
Definition configurationOf (options : IOpenBrowserWindowOptions) : IWindowConfiguration :=
  {| c_extensionTestsPath := extensionTestsPath (o_cli options);
     c_extensionDevelopmentPath := extensionDevelopmentPath (o_cli options);
     c_workspace := o_workspace options;
     c_folderPath := o_folderPath options;
     c_backupPath :=
       match nonEmpty (o_emptyWindowBackupFolder options) with
       | Some folder => Some (join backupHome folder)
       | None => None
       end |}.

Definition onWorkspaceId (ws : IWorkspaceIdentifier) (o : IWindowState) : bool :=
  match workspace o with
  | Some ow => String.eqb (ws_id ow) (ws_id ws)
  | None => false
  end.

(** The first half of [getNewWindowState], "restore state unless we
    are running extension tests": [Some] is the stored state it
    returns, [None] when it goes on to compute a default state from
    the displays. *)
Definition getStoredWindowState (configuration : IWindowConfiguration) (m : WindowsManager) :
  option ISingleWindowState :=
  let lastActive := getLastActiveWindow (WINDOWS m) in
  let st := windowsState m in
  if truthy (c_extensionTestsPath configuration) then None
  else
    match (if truthy (c_extensionDevelopmentPath configuration)
           then lastPluginDevelopmentHostWindow st else None) with
    | Some host => Some (uiState host)
    | None =>
        let stateForWorkspace :=
          match c_workspace configuration with
          | Some ws => map uiState (List.filter (onWorkspaceId ws) (openedWindows st))
          | None => []
          end in
        match stateForWorkspace with
        | s :: _ => Some s
        | [] =>
            let stateForFolderOrEmptyWindow :=
              match nonEmpty (c_folderPath configuration) with
              | Some folder =>
                  map uiState
                    (List.filter (fun o => isEqual (folderPath o) folder (negb isLinux))
                       (openedWindows st))
              | None =>
                  match nonEmpty (c_backupPath configuration) with
                  | Some backup =>
                      map uiState
                        (List.filter (fun o => bool_decide (backupPath o = Some backup))
                           (openedWindows st))
                  | None => []
                  end
              end in
            match stateForFolderOrEmptyWindow with
            | s :: _ => Some s
            | [] =>
                let lastActiveState :=
                  match lastClosedWindowState m with
                  | Some s => Some s
                  | None => lastActiveWindow st
                  end in
                match lastActive, lastActiveState with
                | None, Some s => Some (uiState s)
                | _, _ => None
                end
            end
        end
    end.

End NewWindowState.

(** ** Keeping a new window off the existing ones *)

(** Modelled from the spec: Electron's [Rectangle], the result of
    [getBounds()], is declared outside the sources; a window has an
    "x/y/width/height".  Coordinates are whole pixels. *)
Record Rectangle := {
  r_x : Z;
  r_y : Z;
  r_width : Z;
  r_height : Z
}.

(** [existingWindowBounds.some(b => b.x === state.x || b.y === state.y)]. *)
Definition sharesEdge (existingWindowBounds : list Rectangle) (x y : Z) : bool :=
  existsb (fun b => (r_x b =? x)%Z || (r_y b =? y)%Z) existingWindowBounds.

(** The [while] loop of [ensureNoOverlap], for at most [fuel] tests of
    its condition; [None] when they do not suffice. *)
Fixpoint nudge (fuel : nat) (existingWindowBounds : list Rectangle) (x y : Z) :
  option (Z * Z) :=
  match fuel with
  | 0 => None
  | S fuel' =>
      if sharesEdge existingWindowBounds x y
      then nudge fuel' existingWindowBounds (x + 30)%Z (y + 30)%Z
      else Some (x, y)
  end.

(** [ensureNoOverlap]: the origin of the new window's state, given the
    bounds of the live windows and the origin [getNewWindowState] has
    just assigned.  The other members of the state are not touched. *)
Definition ensureNoOverlap (fuel : nat) (existingWindowBounds : list Rectangle) (x y : Z) :
  option (Z * Z) :=
  match existingWindowBounds with
  | [] => Some (x, y)
  | _ => nudge fuel existingWindowBounds x y
  end.

(** ** The file and folder picker *)

(** Modelled from the spec: the options of the "File/Folder Picker
    Dialog", declared in Electron and in
    [vs/platform/windows/common/windows], outside the sources; these
    are the members [FileDialog] and [doPickAndOpen] read or write.
    [IInternalNativeOpenDialogOptions] adds [pickFolders] and
    [pickFiles]. *)
Record OpenDialogOptions := {
  d_title : option string;
  d_defaultPath : option string;
  d_properties : option (list string)
}.

Record INativeOpenDialogOptions := {
  n_windowId : option nat;
  n_forceNewWindow : bool;
  n_dialogOptions : option OpenDialogOptions;
  n_telemetryEventName : option string;
  pickFolders : option bool;
  pickFiles : option bool
}.

Definition workingDirPickerStorageKey : string := "pickerWorkingDir".

(** [storageService.getItem<string>(key)]. *)
Definition getStringItem (key : string) (st : gmap string StorageItem) : option string :=
  match st !! key with
  | Some (StoredString s) => Some s
  | _ => None
  end.

(** [Object.create(null)] as dialog options. *)
Definition noDialogOptions : OpenDialogOptions :=
  {| d_title := None; d_defaultPath := None; d_properties := None |}.

Definition isTrue (b : option bool) : bool :=
  match b with Some true => true | _ => false end.

Section FileDialog.
Context `{!Platform, !Host, !ILifecycleService, !IBackupMainService,
          !IWorkspacesMainService, !IConfigurationService,
          !IEnvironmentService, !WindowsFinder, !IInstantiationService, !Paths}.

(** The dialog options [getFileOrFolderPaths] shows. *)
Definition shownDialogOptions (options : INativeOpenDialogOptions) (m : WindowsManager) :
  OpenDialogOptions :=
  let dialogOptions := default noDialogOptions (n_dialogOptions options) in
  let defaultPath :=
    match nonEmpty (d_defaultPath dialogOptions) with
    | Some p => Some p
    | None => getStringItem workingDirPickerStorageKey (storage m)
    end in
  let properties :=
    if isSome (pickFiles options) || isSome (pickFolders options) then
      if isTrue (pickFiles options) && isTrue (pickFolders options)
      then Some ["multiSelections"; "openDirectory"; "openFile"; "createDirectory"]
      else None
    else d_properties dialogOptions in
  {| d_title := d_title dialogOptions;
     d_defaultPath := defaultPath;
     d_properties :=
       Some (match properties with
             | Some ps => ps
             | None =>
                 ["multiSelections";
                  if isTrue (pickFolders options) then "openDirectory" else "openFile";
                  "createDirectory"]
             end) |}.

(** [getFileOrFolderPaths]: [picked] is what the native dialog returns.
    The result is the dialog shown, the argument of the callback, and
    the manager with the storage service written. *)
Definition getFileOrFolderPaths (options : INativeOpenDialogOptions)
  (picked : option (list string)) (m : WindowsManager) :
  OpenDialogOptions * option (list string) * WindowsManager :=
  let shown := shownDialogOptions options m in
  match picked with
  | Some (p :: ps) =>
      (shown, Some (p :: ps),
       setItem workingDirPickerStorageKey (StoredString (dirname p)) m)
  | _ => (shown, None, m)
  end.

(** The request [pickAndOpen] hands to [open]. *)
Definition pickedConfiguration (options : INativeOpenDialogOptions) (paths : list string) :
  IOpenConfiguration :=
  {| context := DIALOG; cli := args; userEnv := None; pathsToOpen := Some paths;
     preferNewWindow := false; forceNewWindow := n_forceNewWindow options;
     forceReuseWindow := false; forceEmpty := false; diffMode := false;
     initialStartup := false |}.

(** [FileDialog.pickAndOpen]: the dialog shown and the manager
    afterwards. *)
Definition pickAndOpen (options : INativeOpenDialogOptions)
  (picked : option (list string)) (m : WindowsManager) :
  option (OpenDialogOptions * WindowsManager) :=
  let '(shown, paths, m1) := getFileOrFolderPaths options picked m in
  match paths with
  | Some (p :: ps) =>
      r ← open (pickedConfiguration options (p :: ps)) m1;
      Some (shown, snd r)
  | _ => Some (shown, m1)
  end.

(** The options as [doPickAndOpen] completes them. *)
Definition internalOptions (options : INativeOpenDialogOptions) (folders files : bool) :
  INativeOpenDialogOptions :=
  let dialogOptions := default noDialogOptions (n_dialogOptions options) in
  {| n_windowId := n_windowId options;
     n_forceNewWindow := n_forceNewWindow options;
     n_dialogOptions :=
       Some {| d_title :=
                 match nonEmpty (d_title dialogOptions) with
                 | Some t => Some t
                 | None =>
                     Some (if folders && files then "Open"
                           else if folders then "Open Folder" else "Open File")
                 end;
               d_defaultPath := d_defaultPath dialogOptions;
               d_properties := d_properties dialogOptions |};
     n_telemetryEventName :=
       match nonEmpty (n_telemetryEventName options) with
       | Some n => Some n
       | None =>
           Some (if folders && files then "openFileFolder"
                 else if folders then "openFolder" else "openFile")
       end;
     pickFolders := Some folders;
     pickFiles := Some files |}.

Definition doPickAndOpen (options : INativeOpenDialogOptions) (folders files : bool)
  (picked : option (list string)) (m : WindowsManager) :
  option (OpenDialogOptions * WindowsManager) :=
  pickAndOpen (internalOptions options folders files) picked m.

Definition pickFileFolderAndOpen (options : INativeOpenDialogOptions) :=
  doPickAndOpen options true true.

Definition pickFolderAndOpen (options : INativeOpenDialogOptions) :=
  doPickAndOpen options true false.

Definition pickFileAndOpen (options : INativeOpenDialogOptions) :=
  doPickAndOpen options false true.

End FileDialog.

(** * What the properties speak of *)

(** After the container rename, [openedWindows] is an array and
    [openedFolders] is not a non-empty array. *)
Definition containerMigrated (s : Legacy.ILegacyWindowsState) : Prop :=
  is_Some (Legacy.openedWindows s)
  /\ (Legacy.openedFolders s = None \/ Legacy.openedFolders s = Some []).

Section ClosingWindow.
Context `{!Platform, !Host}.

(** An entry of the stored [openedWindows] is the closing window's
    when it has the same workspace id, or the same folder path under
    the platform's case rule. *)
Definition sameAsClosing (win : CodeWindow) (o : IWindowState) : Prop :=
  (exists w ow, openedWorkspace win = Some w /\ workspace o = Some ow
                /\ ws_id ow = ws_id w)
  \/ (exists f, nonEmpty (openedFolderPath win) = Some f
                /\ isEqual (folderPath o) f (negb isLinux) = true).

End ClosingWindow.

Section Placed.
Context `{!WindowsFinder, !IInstantiationService}.

(** One statement group of [doOpen] that changes its locals: a
    workspace or folder queued by the file step, or a push on
    [usedWindows] with the resets that follow it. *)
Inductive placed : OpenState -> OpenState -> Prop :=
| placed_queue_workspace w s :
    placed s (pushWorkspaceToOpen w s)
| placed_queue_folder f s :
    placed s (pushFolderToOpen f s)
| placed_files_existing w s :
    placed s (handled (pushExisting FilesInExistingWindow w s))
| placed_files_new o s :
    o_forceNewWindow o = true ->
    placed s (handled (pushOpened FilesInNewWindow o s))
| placed_workspace_reload o ws w opened s :
    findWindowOnWorkspace (WINDOWS (mgr s)) (inl ws) = Some w ->
    openedWorkspace w = Some opened ->
    ws_configPath opened <> ws_configPath ws ->
    o_forceNewWindow o = false ->
    o_windowToUse o = Some w ->
    placed s (mustOpenInNewWindow (handled (pushOpened WorkspaceReload o s)))
| placed_workspace_existing ws w s :
    findWindowOnWorkspace (WINDOWS (mgr s)) (inl ws) = Some w ->
    placed s (mustOpenInNewWindow (handled (pushExisting WorkspaceExisting w s)))
| placed_workspace_open o s :
    o_forceNewWindow o = openFolderInNewWindow s ->
    placed s (mustOpenInNewWindow (handled (pushOpened WorkspaceOpen o s)))
| placed_folder_existing f w s :
    findWindowOnWorkspace (WINDOWS (mgr s)) (inr f) = Some w ->
    placed s (mustOpenInNewWindow (handled (pushExisting FolderExisting w s)))
| placed_folder_open o s :
    o_forceNewWindow o = openFolderInNewWindow s ->
    placed s (mustOpenInNewWindow (handled (pushOpened FolderOpen o s)))
| placed_empty_restore o s :
    o_forceNewWindow o = true ->
    placed s (mustOpenInNewWindow (handled (pushOpened EmptyRestore o s)))
| placed_empty_open o s :
    o_forceNewWindow o = openFolderInNewWindow s ->
    o_windowToUse o = None ->
    placed s (mustOpenInNewWindow (pushOpened EmptyOpen o s)).

End Placed.

(** An event changes the count by one, and its new count is the number
    of live windows the listener sees. *)
Definition countChangedOk (ev : IWindowsCountChangedEvent * nat) : Prop :=
  (newCount (fst ev) = oldCount (fst ev) + 1
   \/ oldCount (fst ev) = newCount (fst ev) + 1)
  /\ newCount (fst ev) = snd ev.



(** The placements of the two "open remaining ones" loops: a workspace
    or a folder that no live window has open. *)
Definition opensRemaining (k : PlacementKind) : bool :=
  match k with
  | WorkspaceOpen | FolderOpen => true
  | _ => false
  end.













(** A load of nothing: no workspace, no folder, no file, no backup. *)
Definition isEmptyLoad (o : IOpenBrowserWindowOptions) : Prop :=
  o_workspace o = None /\ o_folderPath o = None
  /\ o_filesToOpen o = [] /\ o_filesToCreate o = [] /\ o_filesToDiff o = []
  /\ o_emptyWindowBackupFolder o = None.

(** The identities of the live windows are below the next one. *)
Definition wfManager (m : WindowsManager) : Prop :=
  Forall (fun w => win_id w < nextWindowId m) (WINDOWS m).

(** While [doOpen] opens empty windows: the used windows are distinct
    and known to the manager, and the flag is set once one is used. *)
Definition emptyInv (s : OpenState) : Prop :=
  wfManager (mgr s)
  /\ Forall (fun w => win_id w < nextWindowId (mgr s)) (usedWindows s)
  /\ NoDup (win_id <$> usedWindows s)
  /\ (usedWindows s <> [] -> openFolderInNewWindow s = true).

(** ** What the further properties speak of *)



(** The stored window states [onWorkspaceSaved] visits. *)
Definition storedStates (m : WindowsManager) : list IWindowState :=
  option_list (lastClosedWindowState m)
  ++ option_list (lastActiveWindow (windowsState m))
  ++ option_list (lastPluginDevelopmentHostWindow (windowsState m))
  ++ openedWindows (windowsState m).

(** What identifies a stored entry: all of it except the geometry. *)
Definition entryOf (o : IWindowState) :
  option IWorkspaceIdentifier * option string * option string :=
  (workspace o, folderPath o, backupPath o).

(** The live windows have distinct identities, all below the next
    one. *)
Definition uniqueIds (m : WindowsManager) : Prop :=
  wfManager m /\ NoDup (win_id <$> WINDOWS m).

(** The stored window states of [m'] are those of [m], place by
    place, but for their UI states. *)
Definition sameEntries (m m' : WindowsManager) : Prop :=
  entryOf <$> openedWindows (windowsState m')
  = entryOf <$> openedWindows (windowsState m)
  /\ entryOf <$> lastActiveWindow (windowsState m')
     = entryOf <$> lastActiveWindow (windowsState m)
  /\ entryOf <$> lastPluginDevelopmentHostWindow (windowsState m')
     = entryOf <$> lastPluginDevelopmentHostWindow (windowsState m)
  /\ entryOf <$> lastClosedWindowState m' = entryOf <$> lastClosedWindowState m.

(** [m'] is [m] with windows added at the end of [WINDOWS], each
    announced by one event and identified by the next free identity;
    the stored window states are those of [m] but for their UI states,
    and are those of [m] altogether when no window was added; the
    storage and the close events are those of [m], and the loads
    requested in [m] are still pending. *)
Definition extendsManager (m m' : WindowsManager) : Prop :=
  sameEntries m m'
  /\ storage m' = storage m
  /\ windowClose m' = windowClose m
  /\ pendingLoads m `prefix_of` pendingLoads m'
  /\ exists added events,
       WINDOWS m' = WINDOWS m ++ added
       /\ win_id <$> added = seq (nextWindowId m) (length added)
       /\ nextWindowId m' = nextWindowId m + length added
       /\ countChanged m' = countChanged m ++ events
       /\ length events = length added
       /\ (added = [] ->
           windowsState m' = windowsState m
           /\ lastClosedWindowState m' = lastClosedWindowState m).

(** A configuration for an empty window that is no extension host. *)
Definition plainConfiguration (configuration : IWindowConfiguration) : Prop :=
  truthy (c_extensionTestsPath configuration) = false
  /\ truthy (c_extensionDevelopmentPath configuration) = false
  /\ c_workspace configuration = None
  /\ nonEmpty (c_folderPath configuration) = None
  /\ nonEmpty (c_backupPath configuration) = None.

(** The placements made through [openInBrowserWindow] that are not
    aimed at a window that has the target open. *)
Definition opensWindow (k : PlacementKind) : bool :=
  match k with
  | FilesInNewWindow | WorkspaceOpen | FolderOpen | EmptyRestore | EmptyOpen => true
  | FilesInExistingWindow | WorkspaceReload | WorkspaceExisting | FolderExisting => false
  end.

(** While the flag is set, every window opened for a target that no
    window has open is created. *)
Definition forcedInv (s : OpenState) : Prop :=
  openFolderInNewWindow s = true
  /\ Forall (fun p => opensWindow (p_kind p) = true ->
                      p_forceNewWindow p = true /\ p_created p = true)
       (placements s).

(** The options of the load of an empty window. *)
Definition emptyLoad (openConfig : IOpenConfiguration) (forceNew : bool) :
  IOpenBrowserWindowOptions :=
  {| o_userEnv := userEnv openConfig; o_cli := cli openConfig;
     o_workspace := None; o_folderPath := None;
     o_initialStartup := initialStartup openConfig;
     o_filesToOpen := []; o_filesToCreate := []; o_filesToDiff := [];
     o_forceNewWindow := forceNew; o_windowToUse := None;
     o_emptyWindowBackupFolder := None |}.

(** A placement that, if it opens a window for a workspace or folder
    that no window has open or for an empty window, does not force a
    new window and creates one only when no window is active in
    [m0]. *)
Definition reusesLastActive `{!WindowsFinder} (m0 : WindowsManager) (p : Placement) : Prop :=
  opensRemaining (p_kind p) = true \/ p_kind p = EmptyOpen ->
  p_forceNewWindow p = false
  /\ p_created p = negb (isSome (getLastActiveWindow (WINDOWS m0))).

(** Under a forced reuse: until a window is used the flag is off and
    the manager is [m0]; the first placement reuses the last active
    window. *)
Definition reuseInv `{!WindowsFinder} (m0 : WindowsManager) (s : OpenState) : Prop :=
  match placements s with
  | [] => openFolderInNewWindow s = false /\ mgr s = m0
  | p :: _ => reusesLastActive m0 p
  end.

(** A load that carries no file to open, to create or to diff. *)
Definition noFiles (o : IOpenBrowserWindowOptions) : Prop :=
  o_filesToOpen o = [] /\ o_filesToCreate o = [] /\ o_filesToDiff o = [].

(** Loads of which only the first can carry files, and then the
    given ones. *)
Definition filesOnce (fOpen fCreate fDiff : list IWindowToOpen)
  (loads : list (nat * IOpenBrowserWindowOptions)) : Prop :=
  match loads with
  | [] => True
  | l :: rest =>
      (noFiles l.2
       \/ (o_filesToOpen l.2 = fOpen /\ o_filesToCreate l.2 = fCreate
           /\ o_filesToDiff l.2 = fDiff))
      /\ Forall (fun l' => noFiles l'.2) rest
  end.

(** While [doOpen] places files, workspaces, folders and empty windows
    to restore: the files are pending until the first placement takes
    them, and the loads requested since [m0] carry them once. *)
Definition filesInv (m0 : WindowsManager) (fOpen fCreate fDiff : list IWindowToOpen)
  (s : OpenState) : Prop :=
  (placements s = [] ->
   filesToOpen s = fOpen /\ filesToCreate s = fCreate /\ filesToDiff s = fDiff)
  /\ (placements s <> [] ->
      filesToOpen s = [] /\ filesToCreate s = [] /\ filesToDiff s = [])
  /\ exists loads,
       pendingLoads (mgr s) = pendingLoads m0 ++ loads
       /\ (loads <> [] -> placements s <> [])
       /\ filesOnce fOpen fCreate fDiff loads.

Section Opening.
Context `{!WindowsFinder, !IInstantiationService}.

(** The statement groups of [doOpen] that change its locals before it
    turns to the empty windows to open, each with the options it hands
    to [openInBrowserWindow]. *)
Inductive opening (openConfig : IOpenConfiguration) : OpenState -> OpenState -> Prop :=
| opening_queue_workspace w s :
    opening openConfig s (pushWorkspaceToOpen w s)
| opening_queue_folder f s :
    opening openConfig s (pushFolderToOpen f s)
| opening_files_existing w s :
    opening openConfig s (handled (pushExisting FilesInExistingWindow w s))
| opening_files_new s :
    opening openConfig s
      (handled (pushOpened FilesInNewWindow
                  (optionsFor openConfig s None None true None None) s))
| opening_workspace_reload ws w s :
    opening openConfig s
      (mustOpenInNewWindow
         (handled (pushOpened WorkspaceReload
                     (optionsFor openConfig s (Some ws) None false (Some w) None) s)))
| opening_workspace_existing w s :
    opening openConfig s
      (mustOpenInNewWindow (handled (pushExisting WorkspaceExisting w s)))
| opening_workspace_open ws s :
    opening openConfig s
      (mustOpenInNewWindow
         (handled (pushOpened WorkspaceOpen
                     (optionsFor openConfig s (Some ws) None
                        (openFolderInNewWindow s) None None) s)))
| opening_folder_existing w s :
    opening openConfig s
      (mustOpenInNewWindow (handled (pushExisting FolderExisting w s)))
| opening_folder_open f s :
    opening openConfig s
      (mustOpenInNewWindow
         (handled (pushOpened FolderOpen
                     (optionsFor openConfig s None (Some f)
                        (openFolderInNewWindow s) None None) s)))
| opening_empty_restore b s :
    opening openConfig s
      (mustOpenInNewWindow
         (handled (pushOpened EmptyRestore
                     (optionsFor openConfig s None None true None (Some b)) s))).

End Opening.

(** The path [parsePath] looks up on the disk. *)
Definition candidateOf `{!Host} (gotoLineMode : bool) (anyPath : string) : string :=
  normalize (if gotoLineMode then (parseLineAndColumnAware anyPath).1.1 else anyPath).

(** A path [parsePath] does not give up on at once: it is not empty. *)
Definition isGiven (anyPath : string) : bool := negb (String.eqb anyPath EmptyString).

(** A given path that is on the disk. *)
Definition isOnDisk `{!Host} (gotoLineMode : bool) (anyPath : string) : bool :=
  isGiven anyPath && isSome (statSync (candidateOf gotoLineMode anyPath)).

(** The target [parsePath] returns for a path that is not on the disk
    when missing files are not ignored: a file to create. *)
Definition fileToCreate (candidate : string) : IWindowToOpen :=
  {| to_workspace := None; to_folderPath := None; to_backupPath := None;
     filePath := Some candidate; lineNumber := None; columnNumber := None;
     createFilePath := true |}.

(** The target [parsePath] returns for a path of the disk that is not a
    file: a folder. *)
Definition folderTarget (candidate : string) : IWindowToOpen :=
  {| to_workspace := None; to_folderPath := Some candidate; to_backupPath := None;
     filePath := None; lineNumber := None; columnNumber := None;
     createFilePath := false |}.

(** A target of exactly one kind: a workspace, a folder or a file. *)
Definition oneKind (t : IWindowToOpen) : Prop :=
  (is_Some (to_workspace t) /\ to_folderPath t = None /\ filePath t = None)
  \/ (to_workspace t = None /\ is_Some (to_folderPath t) /\ filePath t = None)
  \/ (to_workspace t = None /\ to_folderPath t = None /\ is_Some (filePath t)).

(** A target that is no file: it has no file path and is not to be
    created. *)
Definition restorableTarget (t : IWindowToOpen) : Prop :=
  filePath t = None /\ createFilePath t = false.

(** A stored state that, if it is for the saved workspace, has its new
    configuration path. *)
Definition pointsTo (e : IWorkspaceSavedEvent) (st : IWindowState) : Prop :=
  forall w, workspace st = Some w ->
            ws_id w = ws_id (sv_workspace e) ->
            ws_configPath w = ws_configPath (sv_workspace e).

(** How many existing windows have their left edge at [x] or further
    right, plus how many have their top edge at [y] or further down. *)
Definition edgesAhead (existingWindowBounds : list Rectangle) (x y : Z) : nat :=
  length (List.filter (fun b => (x <=? r_x b)%Z) existingWindowBounds)
  + length (List.filter (fun b => (y <=? r_y b)%Z) existingWindowBounds).

(** A target whose workspace, if it has one, is a file of the disk in
    which the workspaces service finds a workspace with its id, and
    whose folder, if it has one, is a path of the disk that is not a
    file: a directory, or a FIFO, a socket or a device. *)
Definition onDisk `{!Host, !IWorkspacesMainService} (t : IWindowToOpen) : Prop :=
  (forall w, to_workspace t = Some w ->
     statSync (ws_configPath w) = Some IsFile
     /\ exists stored,
          resolveWorkspaceSync (ws_configPath w) = Some stored
          /\ ws_id w = sw_id stored)
  /\ (forall f, to_folderPath t = Some f ->
      exists stats, statSync f = Some stats /\ stats <> IsFile).

(** The origin reached after [k] rounds of the loop of
    [ensureNoOverlap]. *)
Definition nudged (k : nat) (x y : Z) : Z * Z :=
  (x + 30 * Z.of_nat k, y + 30 * Z.of_nat k)%Z.

(** * A concrete world

    One instance of every collaborator, for the examples. *)
Module Demo.

Definition linux : Platform :=
  {| isWindows := false; isMacintosh := false; isLinux := true |}.

Definition windows : Platform :=
  {| isWindows := true; isMacintosh := false; isLinux := false |}.

Definition lowerAscii (c : ascii) : ascii :=
  let n := nat_of_ascii c in
  if (65 <=? n) && (n <=? 90) then ascii_of_nat (n + 32) else c.

Fixpoint lower (s : string) : string :=
  match s with
  | EmptyString => EmptyString
  | String c r => String (lowerAscii c) (lower r)
  end.

Definition pathsEqual (a : option string) (b : string) (ignoreCase : bool) : bool :=
  match a with
  | Some a => if ignoreCase then String.eqb (lower a) (lower b) else String.eqb a b
  | None => false
  end.

(** A disk with one folder, two files and one workspace file. *)
Definition disk (p : string) : option Stats :=
  if String.eqb p "/repo" then Some IsDirectory
  else if String.eqb p "/repo/a.ts" then Some IsFile
  else if String.eqb p "/repo/b.ts" then Some IsFile
  else if String.eqb p "/ws/one.code-workspace" then Some IsFile
  else None.

Definition host : Host :=
  {| statSync := disk; normalize := id; basename := id; toLowerCase := lower;
     parseLineAndColumnAware := fun p => (p, None, None);
     isEqual := pathsEqual |}.

Definition running : ILifecycleService :=
  {| isQuitRequested := false; wasRestarted := false |}.

Definition quitting : ILifecycleService :=
  {| isQuitRequested := true; wasRestarted := false |}.

Definition backups : IBackupMainService :=
  {| getFolderBackupPaths := []; getWorkspaceBackups := [];
     getEmptyWindowBackupPaths := [] |}.

Definition resolve (p : string) : option IStoredWorkspace :=
  if String.eqb p "/ws/one.code-workspace"
  then Some {| sw_id := "one"; sw_folders := ["/repo"] |}
  else None.

(** Saving a workspace succeeds. *)
Definition workspaces : IWorkspacesMainService :=
  {| resolveWorkspaceSync := resolve;
     isUntitledWorkspace := fun _ => false;
     saveWorkspace := fun w target =>
       Fulfilled {| ws_id := ws_id w; ws_configPath := target |} |}.

(** Saving a workspace fails. *)
Definition brokenWorkspaces : IWorkspacesMainService :=
  {| resolveWorkspaceSync := resolve;
     isUntitledWorkspace := fun _ => true;
     saveWorkspace := fun _ _ => Rejected "EACCES" |}.

Definition settings : IConfigurationService :=
  {| windowConfig := None |}.

Definition noArgs : ParsedArgs :=
  {| args_ := []; goto := false; diff := false; wait := false;
     waitMarkerFilePath := None; extensionDevelopmentPath := None;
     extensionTestsPath := None |}.

Definition environment : IEnvironmentService := {| args := noArgs |}.

Definition onTarget (target : IWorkspaceIdentifier + string) (w : CodeWindow) : bool :=
  match target with
  | inl ws =>
      match openedWorkspace w with
      | Some opened => String.eqb (ws_id opened) (ws_id ws)
      | None => false
      end
  | inr folder => pathsEqual (openedFolderPath w) folder false
  end.

Lemma last_elem (ws : list CodeWindow) (w : CodeWindow) :
  last ws = Some w -> w ∈ ws.
Proof.
  intros Hlast. apply last_Some in Hlast as [l' ->].
  apply elem_of_app. right. apply list_elem_of_singleton. reflexivity.
Qed.

(** The last window of the list is the last active one; a file goes
    to no existing window. *)
Definition finder : WindowsFinder :=
  {| getLastActiveWindow := last;
     findWindowOnWorkspace := fun ws target => head (List.filter (onTarget target) ws);
     findBestWindowOrFolderForFile := fun _ _ _ _ _ => BestNone;
     getLastActiveWindow_elem := last_elem |}.

Definition geometry : ISingleWindowState :=
  {| ui_width := Some 1024%Z; ui_height := Some 768%Z;
     ui_x := Some 0%Z; ui_y := Some 0%Z;
     ui_mode := Normal; ui_display := None |}.

Definition newWindow (n : nat) (o : IOpenBrowserWindowOptions)
  (ws : list CodeWindow) (st : IWindowsState) : CodeWindow :=
  {| win_id := n; openedWorkspace := None; openedFolderPath := None;
     win_backupPath := None;
     isExtensionDevelopmentHost := truthy (extensionDevelopmentPath (o_cli o));
     isExtensionTestHost := truthy (extensionTestsPath (o_cli o));
     serializeWindowState := geometry |}.

(** New windows come with [geometry]; no stored UI state of the
    examples is full screen, and none is written to. *)
Definition factory : IInstantiationService :=
  {| createInstance := newWindow;
     createInstance_id := fun _ _ _ _ => eq_refl;
     storedUiState := fun _ _ _ _ _ _ state => state |}.

Definition config : IOpenConfiguration :=
  {| context := API; cli := noArgs; userEnv := None; pathsToOpen := None;
     preferNewWindow := false; forceNewWindow := false;
     forceReuseWindow := false; forceEmpty := false; diffMode := false;
     initialStartup := false |}.

(** A request to open a path that is not on the disk. *)
Definition openMissing : IOpenConfiguration :=
  {| context := API; cli := noArgs; userEnv := None;
     pathsToOpen := Some ["/gone"];
     preferNewWindow := false; forceNewWindow := false;
     forceReuseWindow := false; forceEmpty := false; diffMode := false;
     initialStartup := false |}.

Definition openEmpty : IOpenConfiguration :=
  {| context := API; cli := noArgs; userEnv := None; pathsToOpen := None;
     preferNewWindow := false; forceNewWindow := true;
     forceReuseWindow := false; forceEmpty := true; diffMode := false;
     initialStartup := false |}.

(** Two files of the disk, to diff. *)
Definition diffTwo : IOpenConfiguration :=
  {| context := API; cli := noArgs; userEnv := None;
     pathsToOpen := Some ["/repo/a.ts"; "/repo/b.ts"];
     preferNewWindow := false; forceNewWindow := false;
     forceReuseWindow := false; forceEmpty := false; diffMode := true;
     initialStartup := false |}.

Definition fresh : WindowsManager := newWindowsManager ∅.

Definition workspaceOne (configPath : string) : IWorkspaceIdentifier :=
  {| ws_id := "one"; ws_configPath := configPath |}.

Definition workspaceTwo (configPath : string) : IWorkspaceIdentifier :=
  {| ws_id := "two"; ws_configPath := configPath |}.

Definition windowOn (n : nat) (ws : option IWorkspaceIdentifier) (folder : option string) :
  CodeWindow :=
  {| win_id := n; openedWorkspace := ws; openedFolderPath := folder;
     win_backupPath := None;
     isExtensionDevelopmentHost := false; isExtensionTestHost := false;
     serializeWindowState := geometry |}.

(** Two live windows, each on a workspace. *)
Definition twoWorkspaces : WindowsManager :=
  {| WINDOWS := [windowOn 0 (Some (workspaceOne "/old/one.code-workspace")) None;
                 windowOn 1 (Some (workspaceTwo "/old/two.code-workspace")) None];
     windowsState := Build_IWindowsState None None [];
     lastClosedWindowState := None;
     storage := ∅; countChanged := []; windowClose := [];
     pendingLoads := []; nextWindowId := 2 |}.

(** The geometry of a window that was moved and resized. *)
Definition moved : ISingleWindowState :=
  {| ui_width := Some 800%Z; ui_height := Some 600%Z;
     ui_x := Some 120%Z; ui_y := Some 80%Z;
     ui_mode := Maximized; ui_display := None |}.

Definition stateOn (folder : string) : IWindowState :=
  {| workspace := None; folderPath := Some folder; backupPath := None;
     uiState := geometry |}.

(** A window on [/repo] that is about to close. *)
Definition closing : CodeWindow :=
  {| win_id := 0; openedWorkspace := None; openedFolderPath := Some "/repo";
     win_backupPath := None;
     isExtensionDevelopmentHost := false; isExtensionTestHost := false;
     serializeWindowState := moved |}.

(** Two live windows on the folder [/repo]; the stored state has two
    entries for it and one for another folder. *)
Definition sameFolderTwice : WindowsManager :=
  {| WINDOWS := [closing; windowOn 1 None (Some "/repo")];
     windowsState :=
       Build_IWindowsState None None
         [stateOn "/repo"; stateOn "/other"; stateOn "/repo"];
     lastClosedWindowState := None;
     storage := ∅; countChanged := []; windowClose := [];
     pendingLoads := []; nextWindowId := 2 |}.

(** The last active window was on a workspace whose file is gone; its
    folder path is still on the disk. *)
Definition lostWorkspace : WindowsManager :=
  {| WINDOWS := [];
     windowsState :=
       Build_IWindowsState
         (Some {| workspace := Some (workspaceTwo "/ws/two.code-workspace");
                  folderPath := Some "/repo"; backupPath := None;
                  uiState := geometry |})
         None [];
     lastClosedWindowState := None;
     storage := ∅; countChanged := []; windowClose := [];
     pendingLoads := []; nextWindowId := 0 |}.

(** Options for one empty window. *)
Definition emptyOptions : IOpenBrowserWindowOptions :=
  {| o_userEnv := None; o_cli := noArgs; o_workspace := None;
     o_folderPath := None; o_initialStartup := false;
     o_filesToOpen := []; o_filesToCreate := []; o_filesToDiff := [];
     o_forceNewWindow := true; o_windowToUse := None;
     o_emptyWindowBackupFolder := None |}.

Definition fileTarget (p : string) (create : bool) : IWindowToOpen :=
  {| to_workspace := None; to_folderPath := None; to_backupPath := None;
     filePath := Some p; lineNumber := None; columnNumber := None;
     createFilePath := create |}.

Section Runs.
#[local] Existing Instances
  linux host running backups workspaces settings environment finder factory.

(** A window is opened and then closed. *)
Definition openedThenClosed : WindowsManager :=
  onWindowClosed
    (fst (openInBrowserWindow emptyOptions fresh))
    (snd (openInBrowserWindow emptyOptions fresh)).

(** Two workspaces, each open in a live window under another
    configuration path. *)
Definition reloadBoth : option OpenState :=
  doOpenSteps config
    [workspaceOne "/new/one.code-workspace";
     workspaceTwo "/new/two.code-workspace"]
    [] [] [] [] 0 [] [] [] twoWorkspaces.

End Runs.

End Demo.

(** * More of the concrete world *)

Module Scenes.

(** The part of a path before its last separator. *)
Fixpoint parentOf (p : string) : option string :=
  match p with
  | EmptyString => None
  | String c rest =>
      match parentOf rest with
      | Some d => Some (String c d)
      | None => if Ascii.eqb c "/"%char then Some EmptyString else None
      end
  end.

Definition paths : Paths :=
  {| dirname := fun p => default "." (parentOf p);
     join := fun a b => String.append a (String.append "/" b);
     backupHome := "/backups" |}.

(** One live window, on [/repo], and one stored entry for [/repo]. *)
Definition oneWindow : WindowsManager :=
  {| WINDOWS := [Demo.closing];
     windowsState := Build_IWindowsState None None [Demo.stateOn "/repo"];
     lastClosedWindowState := None;
     storage := ∅; countChanged := []; windowClose := [];
     pendingLoads := []; nextWindowId := 1 |}.

(** An extension development host that is not a test host. *)
Definition devHost : CodeWindow :=
  {| win_id := 1; openedWorkspace := None; openedFolderPath := Some "/repo";
     win_backupPath := None;
     isExtensionDevelopmentHost := true; isExtensionTestHost := false;
     serializeWindowState := Demo.moved |}.

(** The configuration of a new window on [/repo]. *)
Definition folderConfiguration : IWindowConfiguration :=
  {| c_extensionTestsPath := None; c_extensionDevelopmentPath := None;
     c_workspace := None; c_folderPath := Some "/repo"; c_backupPath := None |}.

(** The configuration of a new empty window. *)
Definition emptyConfiguration : IWindowConfiguration :=
  {| c_extensionTestsPath := None; c_extensionDevelopmentPath := None;
     c_workspace := None; c_folderPath := None; c_backupPath := None |}.

(** A window on an untitled workspace, and a manager with this window
    only. *)
Definition untitledWindow : CodeWindow :=
  Demo.windowOn 0 (Some (Demo.workspaceOne "/tmp/untitled")) None.

Definition untitledOnly : WindowsManager :=
  {| WINDOWS := [untitledWindow];
     windowsState := Build_IWindowsState None None [];
     lastClosedWindowState := None;
     storage := ∅; countChanged := []; windowClose := [];
     pendingLoads := []; nextWindowId := 1 |}.

(** The workspace "two" was saved to another location. *)
Definition savedTwo : IWorkspaceSavedEvent :=
  {| sv_workspace := Demo.workspaceTwo "/home/two.code-workspace";
     oldConfigPath := "/ws/two.code-workspace" |}.

(** Two windows on the diagonal of the new window. *)
Definition diagonal : list Rectangle :=
  [ {| r_x := 0; r_y := 0; r_width := 1024; r_height := 768 |};
    {| r_x := 30; r_y := 30; r_width := 1024; r_height := 768 |} ].

(** Picker options that ask for a single file. *)
Definition pickOptions : INativeOpenDialogOptions :=
  {| n_windowId := None; n_forceNewWindow := false;
     n_dialogOptions :=
       Some {| d_title := None; d_defaultPath := None;
               d_properties := Some ["openFile"] |};
     n_telemetryEventName := None; pickFolders := None; pickFiles := None |}.

(** A request that forces the reuse of a window for a folder. *)
Definition reusedFolder : IOpenConfiguration :=
  {| context := API; cli := Demo.noArgs; userEnv := None;
     pathsToOpen := Some ["/other"];
     preferNewWindow := true; forceNewWindow := false;
     forceReuseWindow := true; forceEmpty := false; diffMode := false;
     initialStartup := false |}.


(** A request that forces a new window for a folder. *)
Definition forcedFolder : IOpenConfiguration :=
  {| context := API; cli := Demo.noArgs; userEnv := None;
     pathsToOpen := Some ["/other"];
     preferNewWindow := false; forceNewWindow := true;
     forceReuseWindow := false; forceEmpty := false; diffMode := false;
     initialStartup := false |}.

(** Command line arguments with a path that is not on the disk. *)
Definition missingArgs : ParsedArgs :=
  {| args_ := ["/gone"]; goto := false; diff := false; wait := false;
     waitMarkerFilePath := None; extensionDevelopmentPath := None;
     extensionTestsPath := None |}.

(** The disk of [Demo.host] with a device on it. *)
Definition devices : Host :=
  {| statSync := fun p => if String.eqb p "/dev/null" then Some IsOther else Demo.disk p;
     normalize := id; basename := id; toLowerCase := Demo.lower;
     parseLineAndColumnAware := fun p => (p, None, None);
     isEqual := Demo.pathsEqual |}.

(** A full-screen geometry. *)
Definition fullscreen : ISingleWindowState :=
  {| ui_width := Some 1024%Z; ui_height := Some 768%Z;
     ui_x := Some 0%Z; ui_y := Some 0%Z;
     ui_mode := Fullscreen; ui_display := None |}.

(** No live window; the stored entry for [/repo] is full screen. *)
Definition fullscreenStored : WindowsManager :=
  {| WINDOWS := [];
     windowsState :=
       Build_IWindowsState None None
         [ {| workspace := None; folderPath := Some "/repo"; backupPath := None;
              uiState := fullscreen |} ];
     lastClosedWindowState := None;
     storage := ∅; countChanged := []; windowClose := [];
     pendingLoads := []; nextWindowId := 0 |}.

(** A request to open the folder [/repo]. *)
Definition openRepo : IOpenConfiguration :=
  {| context := API; cli := Demo.noArgs; userEnv := None;
     pathsToOpen := Some ["/repo"];
     preferNewWindow := false; forceNewWindow := false;
     forceReuseWindow := false; forceEmpty := false; diffMode := false;
     initialStartup := false |}.

(** Full screen is not allowed ([Demo.running] was not restarted and
    [Demo.settings] has no [restoreFullscreen]): the new window of
    [fullscreenStored] for [/repo] gets the UI state object of the
    first opened window, whose mode is set to normal. *)
Definition downgrading : IInstantiationService :=
  {| createInstance := Demo.newWindow;
     createInstance_id := fun _ _ _ _ => eq_refl;
     storedUiState := fun _ _ _ _ _ place state =>
       match place with
       | Opened 0 => downgradeFullscreen false state
       | _ => state
       end |}.

(** The last active window of the last session was on the device. *)
Definition lastOnDevice : WindowsManager :=
  {| WINDOWS := [];
     windowsState :=
       Build_IWindowsState (Some (Demo.stateOn "/dev/null")) None [];
     lastClosedWindowState := None;
     storage := ∅; countChanged := []; windowClose := [];
     pendingLoads := []; nextWindowId := 0 |}.

End Scenes.

(** * Properties *)

(** ** Migration of the legacy state *)

Lemma migrateWindow_idempotent (s : Legacy.ILegacyWindowState) :
  Legacy.migrateWindow (Legacy.migrateWindow s) = Legacy.migrateWindow s.
Proof.
  unfold Legacy.migrateWindow.
  destruct (Legacy.workspacePath s) eqn:E; simpl.
  - reflexivity.
  - rewrite E. reflexivity.
Qed.

Lemma map_migrateWindow_idempotent (l : list Legacy.ILegacyWindowState) :
  map Legacy.migrateWindow (map Legacy.migrateWindow l) = map Legacy.migrateWindow l.
Proof.
  induction l as [|s l IH]; simpl.
  - reflexivity.
  - rewrite migrateWindow_idempotent, IH. reflexivity.
Qed.

Lemma migrateWindows_idempotent (s : Legacy.ILegacyWindowsState) :
  Legacy.migrateWindows (Legacy.migrateWindows s) = Legacy.migrateWindows s.
Proof.
  unfold Legacy.migrateWindows; simpl. f_equal.
  - destruct (Legacy.lastActiveWindow s); simpl;
      [rewrite migrateWindow_idempotent|]; reflexivity.
  - destruct (Legacy.lastPluginDevelopmentHostWindow s); simpl;
      [rewrite migrateWindow_idempotent|]; reflexivity.
  - destruct (Legacy.openedWindows s); simpl;
      [rewrite map_migrateWindow_idempotent|]; reflexivity.
Qed.

Lemma migrateContainer_migrated (s : Legacy.ILegacyWindowsState) :
  containerMigrated (Legacy.migrateContainer s).
Proof.
  unfold containerMigrated, Legacy.migrateContainer.
  destruct (Legacy.openedFolders s) as [[|f fs]|] eqn:EF;
    destruct (Legacy.openedWindows s) eqn:EW; simpl;
    rewrite ?EF, ?EW; eauto.
Qed.

Lemma migrateContainer_stable (s : Legacy.ILegacyWindowsState) :
  containerMigrated s -> Legacy.migrateContainer s = s.
Proof.
  intros [[ws Hws] Hfolders]. unfold Legacy.migrateContainer.
  rewrite Hws. destruct Hfolders as [-> | ->]; reflexivity.
Qed.

Lemma migrateWindows_migrated (s : Legacy.ILegacyWindowsState) :
  containerMigrated s -> containerMigrated (Legacy.migrateWindows s).
Proof.
  intros [[ws Hws] Hfolders]. split; simpl.
  - rewrite Hws. simpl. eauto.
  - exact Hfolders.
Qed.

(** C3. For every raw persisted windows state, migrating the legacy
    fields twice (the [openedFolders] container rename and the
    [workspacePath] to [folderPath] rename on the last active window,
    the last extension development host window and every opened
    window) gives the same state as migrating once. *)
Theorem migrateLegacyWindowState_idempotent (s : Legacy.ILegacyWindowsState) :
  Legacy.migrateLegacyWindowState (Legacy.migrateLegacyWindowState s)
  = Legacy.migrateLegacyWindowState s.
Proof.
  unfold Legacy.migrateLegacyWindowState.
  rewrite (migrateContainer_stable (Legacy.migrateWindows (Legacy.migrateContainer s))).
  - apply migrateWindows_idempotent.
  - apply migrateWindows_migrated, migrateContainer_migrated.
Qed.

(** The migration does rename: a state in the legacy shape comes out
    in the current one. *)
Example migrateLegacyWindowState_renames (w : IWindowState) :
  Legacy.migrateLegacyWindowState
    {| Legacy.lastActiveWindow := None;
       Legacy.lastPluginDevelopmentHostWindow := None;
       Legacy.openedWindows := None;
       Legacy.openedFolders :=
         Some [{| Legacy.state := w; Legacy.workspacePath := Some "/repo" |}] |}
  = {| Legacy.lastActiveWindow := None;
       Legacy.lastPluginDevelopmentHostWindow := None;
       Legacy.openedWindows :=
         Some [Legacy.ofState
                 {| workspace := workspace w; folderPath := Some "/repo";
                    backupPath := backupPath w; uiState := uiState w |}];
       Legacy.openedFolders := None |}.
Proof. reflexivity. Qed.

(** ** Quit and close *)

Section LifecycleProperties.
Context `{!Platform, !Host, !WindowsFinder}.

Lemma onBeforeWindowClose_storage (L : ILifecycleService) win m :
  storage (onBeforeWindowClose win m) = storage m.
Proof.
  unfold onBeforeWindowClose.
  repeat match goal with |- context [if ?b then _ else _] => destruct b end;
    reflexivity.
Qed.

(** C1. While a quit is requested, [onBeforeWindowClose] returns the
    manager as it was: [windowsState] and [lastClosedWindowState] are
    unchanged, for one close event and for any sequence of them.  The
    close handler never writes the storage service, whatever the quit
    flag; [onBeforeQuit] writes the windows state under its key. *)
Theorem onBeforeWindowClose_quit_requested
  (L : ILifecycleService) (wins : list CodeWindow) (m : WindowsManager) :
  isQuitRequested = true ->
  (forall win, onBeforeWindowClose win m = m)
  /\ foldl (fun m' win => onBeforeWindowClose win m') m wins = m
  /\ (forall (L' : ILifecycleService) win m',
        storage (@onBeforeWindowClose _ _ L' win m') = storage m')
  /\ storage (onBeforeQuit m)
     = <[windowsStateStorageKey := StoredWindowsState (currentWindowsState m)]> (storage m).
Proof.
  intros Hquit.
  assert (Hone : forall win m', onBeforeWindowClose win m' = m').
  { intros win m'. unfold onBeforeWindowClose. rewrite Hquit. reflexivity. }
  repeat split.
  - intros win. apply Hone.
  - induction wins as [|win wins IH]; simpl.
    + reflexivity.
    + rewrite Hone. exact IH.
  - intros L' win m'. apply onBeforeWindowClose_storage.
Qed.

Lemma getItem_onBeforeQuit (m : WindowsManager) :
  getItem windowsStateStorageKey (storage (onBeforeQuit m)) = Some (currentWindowsState m).
Proof.
  unfold getItem, onBeforeQuit, setItem; simpl.
  rewrite lookup_insert_eq. reflexivity.
Qed.

(** On what [onBeforeQuit] stored the constructor does not raise. *)
Lemma construct_onBeforeQuit (m : WindowsManager) :
  construct (storage (onBeforeQuit m))
  = Some (newWindowsManager (storage (onBeforeQuit m))).
Proof.
  unfold construct, onBeforeQuit, setItem; simpl.
  rewrite lookup_insert_eq. reflexivity.
Qed.

Lemma ofState_inj (a b : IWindowState) : Legacy.ofState a = Legacy.ofState b -> a = b.
Proof. intros Heq. injection Heq. auto. Qed.

(** C2. The state [onBeforeQuit] persists has, as [openedWindows], the
    snapshots of all live windows that are not extension development
    hosts when more than one window is open, and the empty list when
    at most one is; so the snapshot of such a live window is persisted
    if and only if more than one window is open. *)
Theorem onBeforeQuit_openedWindows (m : WindowsManager) :
  exists persisted opened,
    getItem windowsStateStorageKey (storage (onBeforeQuit m)) = Some persisted
    /\ Legacy.openedWindows persisted = Some (map Legacy.ofState opened)
    /\ (1 < getWindowCount m ->
        opened = map toWindowState
                   (List.filter notExtensionDevelopmentHost (WINDOWS m)))
    /\ (getWindowCount m <= 1 -> opened = [])
    /\ (forall w, w ∈ WINDOWS m -> isExtensionDevelopmentHost w = false ->
        (toWindowState w ∈ opened <-> 1 < getWindowCount m)).
Proof.
  exists (currentWindowsState m), (quitOpenedWindows m).
  split; [apply getItem_onBeforeQuit|].
  split; [reflexivity|].
  unfold quitOpenedWindows.
  destruct (1 <? getWindowCount m) eqn:Hcount.
  - apply Nat.ltb_lt in Hcount.
    split; [reflexivity|]. split; [lia|].
    intros w Hw Hhost. split; [intros _; exact Hcount|].
    intros _. apply list_elem_of_fmap. exists w. split; [reflexivity|].
    apply list_elem_of_In, filter_In. split.
    + apply list_elem_of_In. exact Hw.
    + unfold notExtensionDevelopmentHost. rewrite Hhost. reflexivity.
  - apply Nat.ltb_ge in Hcount.
    split; [lia|]. split; [reflexivity|].
    intros w Hw Hhost. split; [|lia].
    intros Hin. apply elem_of_nil in Hin. contradiction.
Qed.

Lemma sameAsClosing_spec win o :
  sameAsClosing win o <-> sameWorkspace win o || sameFolder win o = true.
Proof.
  unfold sameAsClosing, sameWorkspace, sameFolder.
  rewrite orb_true_iff. split.
  - intros [(w & ow & -> & -> & Hid) | (f & -> & Heq)].
    + left. apply String.eqb_eq. exact Hid.
    + right. exact Heq.
  - intros [Hws | Hfolder].
    + left. destruct (openedWorkspace win) as [w|]; [|discriminate].
      destruct (workspace o) as [ow|]; [|discriminate].
      exists w, ow. repeat split. apply String.eqb_eq. exact Hws.
    + right. destruct (nonEmpty (openedFolderPath win)) as [f|]; [|discriminate].
      exists f. split; [reflexivity | exact Hfolder].
Qed.

(** C5. When a window that is not an extension development host and
    holds a workspace or a folder closes outside a quit, every entry
    of the stored [openedWindows] with the same workspace id, or with
    the same folder path (compared ignoring case except on Linux),
    gets the closing window's serialised UI state and keeps its other
    fields; the other entries are unchanged.  This holds at every
    index, so all matching entries are updated. *)
Theorem onBeforeWindowClose_updates_all_matching
  (L : ILifecycleService) (win : CodeWindow) (m : WindowsManager) :
  isQuitRequested = false ->
  isExtensionDevelopmentHost win = false ->
  isSome (openedWorkspace win) || truthy (openedFolderPath win) = true ->
  let stored := openedWindows (windowsState m) in
  let stored' := openedWindows (windowsState (onBeforeWindowClose win m)) in
  length stored' = length stored
  /\ forall i o, stored !! i = Some o ->
       (sameAsClosing win o ->
        stored' !! i = Some {| workspace := workspace o; folderPath := folderPath o;
                               backupPath := backupPath o;
                               uiState := serializeWindowState win |})
       /\ (~ sameAsClosing win o -> stored' !! i = Some o).
Proof.
  intros Hquit Hhost Hholds stored stored'.
  assert (Hstored' : stored' = map (updateUIState win) stored).
  { subst stored stored'. unfold onBeforeWindowClose.
    rewrite Hquit, Hhost, Hholds. simpl.
    destruct (getWindowCount _ =? 1); reflexivity. }
  rewrite Hstored'. split; [apply length_map|].
  intros i o Hi.
  assert (Hi' : map (updateUIState win) stored !! i = Some (updateUIState win o)).
  { change (map (updateUIState win) stored) with (updateUIState win <$> stored).
    rewrite list_lookup_fmap, Hi. reflexivity. }
  rewrite Hi'. unfold updateUIState. split; intros Hsame.
  - apply sameAsClosing_spec in Hsame. rewrite Hsame. reflexivity.
  - destruct (sameWorkspace win o || sameFolder win o) eqn:E; [|reflexivity].
    exfalso. apply Hsame, sameAsClosing_spec. exact E.
Qed.

End LifecycleProperties.

(** ** Restoring the last session *)

Section RestoreProperties.
Context `{!Platform, !Host, !ILifecycleService, !IBackupMainService,
          !IWorkspacesMainService, !IConfigurationService}.

(** A path that is not on the disk resolves to nothing. *)
Lemma parsePath_deleted (p : string) :
  statSync (normalize p) = None -> parsePath p false false = None.
Proof.
  intros Hgone. unfold parsePath.
  destruct (String.eqb p EmptyString); [reflexivity|].
  rewrite Hgone. reflexivity.
Qed.

(** A path resolves to a workspace only if it is a file in which the
    workspaces service finds a workspace. *)
Lemma parsePath_workspace (p : string) (v : IWindowToOpen) :
  parsePath p false false = Some v ->
  is_Some (to_workspace v) ->
  statSync (normalize p) = Some IsFile
  /\ is_Some (resolveWorkspaceSync (normalize p)).
Proof.
  unfold parsePath. destruct (String.eqb p EmptyString); [discriminate|].
  destruct (statSync (normalize p)) as [[| |]|]; try discriminate.
  - destruct (resolveWorkspaceSync (normalize p)) eqn:E.
    + intros _ _. eauto.
    + intros [= <-] [w Hw]. discriminate.
  - intros [= <-] [w Hw]. discriminate.
  - intros [= <-] [w Hw]. discriminate.
Qed.

(** C6. With the restore mode [one]: when the persisted last active
    window has a workspace whose configuration path no longer resolves
    to a workspace (the file was deleted, is a folder, or holds no
    workspace), [doGetWindowsFromLastSession] returns exactly one
    target, the empty window. *)
Theorem restore_one_unresolved_workspace
  (m : WindowsManager) (la : IWindowState) (ws : IWorkspaceIdentifier) :
  getRestoreWindowsSetting = RestoreOne ->
  lastActiveWindow (windowsState m) = Some la ->
  workspace la = Some ws ->
  (forall v, parsePath (ws_configPath ws) false false = Some v ->
             to_workspace v = None) ->
  doGetWindowsFromLastSession m = [emptyWindow].
Proof.
  intros Hmode Hlast Hws Hunresolved.
  unfold doGetWindowsFromLastSession. rewrite Hmode, Hlast.
  unfold restoreOne. rewrite Hws.
  destruct (parsePath (ws_configPath ws) false false) as [v|] eqn:Hparse.
  - rewrite (Hunresolved v eq_refl). reflexivity.
  - reflexivity.
Qed.

(** In particular when the workspace file is gone from the disk. *)
Corollary restore_one_deleted_workspace
  (m : WindowsManager) (la : IWindowState) (ws : IWorkspaceIdentifier) :
  getRestoreWindowsSetting = RestoreOne ->
  lastActiveWindow (windowsState m) = Some la ->
  workspace la = Some ws ->
  statSync (normalize (ws_configPath ws)) = None ->
  doGetWindowsFromLastSession m = [emptyWindow].
Proof.
  intros Hmode Hlast Hws Hgone.
  unfold doGetWindowsFromLastSession. rewrite Hmode, Hlast.
  unfold restoreOne. rewrite Hws, (parsePath_deleted _ Hgone). reflexivity.
Qed.

End RestoreProperties.

(** ** Diff mode *)

(** The classification of the resolved files under diff mode. *)
Lemma classifyFiles_diffMode (windowsToOpen : list IWindowToOpen) :
  let plain := List.filter isFileToOpen windowsToOpen in
  let create := List.filter isFileToCreate windowsToOpen in
  (length plain = 2 ->
   exists a b, plain = [a; b]
               /\ classifyFiles true windowsToOpen = ([], [], [a; b]))
  /\ (length plain <> 2 ->
      classifyFiles true windowsToOpen = (plain, create, [])).
Proof.
  intros plain create. unfold classifyFiles. fold plain. fold create. split.
  - intros Hlen. rewrite Hlen. simpl.
    destruct plain as [|a [|b [|c rest]]]; try discriminate.
    exists a, b. split; reflexivity.
  - intros Hlen. apply Nat.eqb_neq in Hlen. rewrite Hlen. reflexivity.
Qed.

Section DiffMode.
Context `{!Platform, !Host, !ILifecycleService, !IBackupMainService,
          !IWorkspacesMainService, !IConfigurationService,
          !WindowsFinder, !IInstantiationService}.

(** C4. For an [open] call with diff mode requested: when exactly two
    files resolve for plain opening, these two files are the files to
    diff and [doOpen] gets no file to open and none to create;
    otherwise it gets no file to diff, and the resolved files to open
    and to create as they are. *)
Theorem open_diffMode (openConfig : IOpenConfiguration) (m : WindowsManager) :
  diffMode openConfig = true ->
  let windowsToOpen := getWindowsToOpen openConfig m in
  let plain := List.filter isFileToOpen windowsToOpen in
  let create := List.filter isFileToCreate windowsToOpen in
  (length plain = 2 ->
   exists a b, plain = [a; b]
               /\ open openConfig m = doOpenWith openConfig m [] [] [a; b])
  /\ (length plain <> 2 ->
      open openConfig m = doOpenWith openConfig m plain create []).
Proof.
  intros Hdiff windowsToOpen plain create.
  destruct (classifyFiles_diffMode windowsToOpen) as [Htwo Hother].
  unfold open. fold windowsToOpen. rewrite Hdiff. split.
  - intros Hlen. destruct (Htwo Hlen) as (a & b & Hplain & Hclass).
    exists a, b. split; [exact Hplain|]. rewrite Hclass. reflexivity.
  - intros Hlen. rewrite (Hother Hlen). reflexivity.
Qed.

End DiffMode.

(** ** The prompt to save an untitled workspace *)

Section PromptProperties.
Context `{!Platform, !IWorkspacesMainService}.

(** C9. In the prompt: Cancel vetoes the unload; Save followed by a
    cancelled save dialog vetoes it; Save with a target does not veto
    it: the veto is a promise that is fulfilled with [false] whether
    [saveWorkspace] is fulfilled or rejected. *)
Theorem promptToSaveUntitledWorkspace_veto
  (workspace : IWorkspaceIdentifier) (res : nat) (target : option string) :
  (buttons !! res = Some CANCEL ->
   veto <$> promptToSaveUntitledWorkspace workspace res target
   = Some (VetoValue true))
  /\ (buttons !! res = Some SAVE -> nonEmpty target = None ->
      veto <$> promptToSaveUntitledWorkspace workspace res target
      = Some (VetoValue true))
  /\ (buttons !! res = Some SAVE ->
      forall path, nonEmpty target = Some path ->
      veto <$> promptToSaveUntitledWorkspace workspace res target
      = Some (VetoPromise
                (then_ (saveWorkspace workspace path) (fun _ => false) (fun _ => false)))
      /\ (forall saved : Settled IWorkspaceIdentifier,
            vetoOutcome (VetoPromise (then_ saved (fun _ => false) (fun _ => false)))
            = Fulfilled false)).
Proof.
  unfold promptToSaveUntitledWorkspace. split; [|split].
  - intros ->. reflexivity.
  - intros -> ->. reflexivity.
  - intros -> path ->. split; [reflexivity|]. intros [w|e]; reflexivity.
Qed.

(** On Windows and Linux, closing the only window quits, so the
    prompt is not shown. *)
Lemma onBeforeWindowUnload_last_window window m res target :
  isMacintosh = false ->
  getWindowCount m = 1 ->
  onBeforeWindowUnload CLOSE window m res target = NotAsked.
Proof.
  intros Hmac Hone. unfold onBeforeWindowUnload. simpl.
  destruct (openedWorkspace window) as [workspace|]; [|reflexivity].
  destruct (isUntitledWorkspace workspace); [|reflexivity].
  rewrite Hmac, Hone. reflexivity.
Qed.

(** Every platform offers the three choices. *)
Lemma buttons_complete (c : ConfirmResult) : exists res, buttons !! res = Some c.
Proof.
  unfold buttons.
  destruct isWindows, isLinux, c;
    first [ by exists 0 | by exists 1 | by exists 2 ].
Qed.

End PromptProperties.

(** ** The placements of [doOpen] *)

Lemma elem_of_coalesce_map {A B} (f : A -> option B) (l : list A) (y : B) :
  y ∈ coalesce (map f l) <-> exists x, x ∈ l /\ f x = Some y.
Proof.
  unfold coalesce. rewrite list_elem_of_omap. split.
  - intros (o & Ho & Hid). apply list_elem_of_In, in_map_iff in Ho as (x & <- & Hx).
    exists x. split; [apply list_elem_of_In; exact Hx | exact Hid].
  - intros (x & Hx & Hf). exists (f x). split; [|exact Hf].
    apply list_elem_of_In, in_map_iff. exists x.
    split; [reflexivity | apply list_elem_of_In; exact Hx].
Qed.

Section Placements.
Context `{!Platform, !Host, !ILifecycleService, !IBackupMainService,
          !IWorkspacesMainService, !IConfigurationService,
          !IEnvironmentService, !WindowsFinder, !IInstantiationService}.

#[local] Hint Constructors placed : core.
#[local] Hint Resolve rtc_refl rtc_once : core.

Lemma forEachM_rtc {A} (f : A -> OpenState -> option OpenState) :
  (forall x s s', f x s = Some s' -> rtc placed s s') ->
  forall l s s', forEachM f l s = Some s' -> rtc placed s s'.
Proof.
  intros Hf l. induction l as [|x l IH]; simpl; intros s s' Hrun.
  - injection Hrun as <-. apply rtc_refl.
  - destruct (f x s) as [s1|] eqn:Hx; [|discriminate].
    eapply rtc_trans; [eapply Hf; eassumption | eapply IH; eassumption].
Qed.

Lemma openFilesStep_placed openConfig flag foldersToRestore emptyToRestore s :
  rtc placed s (openFilesStep openConfig flag foldersToRestore emptyToRestore s).
Proof.
  unfold openFilesStep.
  destruct (foldersToOpen s), foldersToRestore, emptyToRestore; auto.
  destruct (filesToOpen s ++ filesToCreate s ++ filesToDiff s); auto.
  destruct (findBestWindowOrFolderForFile _ _ _ _ _) as [w|f|]; auto.
  destruct (openedWorkspace w); auto.
  destruct (nonEmpty (openedFolderPath w)); auto.
Qed.

Lemma reloadMovedWorkspace_placed openConfig ws s s' :
  reloadMovedWorkspace openConfig ws s = Some s' -> rtc placed s s'.
Proof.
  unfold reloadMovedWorkspace.
  destruct (findWindowOnWorkspace _ _) as [w|] eqn:Hfound; [|intros [= <-]; auto].
  destruct (openedWorkspace w) as [opened|] eqn:Hopened; [|discriminate].
  destruct (String.eqb_spec (ws_configPath opened) (ws_configPath ws)) as [Hsame|Hmoved];
    simpl; intros [= <-]; [auto|].
  apply rtc_once. eapply placed_workspace_reload; eauto.
Qed.

Lemma openRemainingWorkspace_placed openConfig wins ws s s' :
  openRemainingWorkspace openConfig wins ws s = Some s' -> rtc placed s s'.
Proof.
  unfold openRemainingWorkspace.
  destruct (someOnWorkspace wins ws) as [[|]|]; [| |discriminate];
    intros [= <-]; auto.
Qed.

Lemma openWorkspacesStep_placed openConfig workspacesToRestore s s' :
  openWorkspacesStep openConfig workspacesToRestore s = Some s' -> rtc placed s s'.
Proof.
  unfold openWorkspacesStep.
  destruct (distinct ws_id _) as [|ws all] eqn:Hall; [intros [= <-]; auto|].
  intros (s1 & Hfirst & Hthird)%bind_Some.
  eapply rtc_trans;
    [eapply forEachM_rtc; [apply reloadMovedWorkspace_placed | exact Hfirst]|].
  eapply rtc_trans;
    [|eapply forEachM_rtc; [apply openRemainingWorkspace_placed | exact Hthird]].
  destruct (coalesce _) as [|w rest] eqn:Hfound; [auto|].
  assert (Hin : w ∈ w :: rest) by left. rewrite <- Hfound in Hin.
  apply elem_of_coalesce_map in Hin as (found & _ & Hin). eauto.
Qed.

Lemma openRemainingFolder_placed openConfig wins f s s' :
  openRemainingFolder openConfig wins f s = Some s' -> rtc placed s s'.
Proof.
  unfold openRemainingFolder. destruct (existsb _ _); intros [= <-]; auto.
Qed.

Lemma openFoldersStep_placed openConfig foldersToRestore s s' :
  openFoldersStep openConfig foldersToRestore s = Some s' -> rtc placed s s'.
Proof.
  unfold openFoldersStep.
  destruct (distinct folderKey _) as [|f all] eqn:Hall; [intros [= <-]; auto|].
  intros Hfirst.
  eapply rtc_trans;
    [|eapply forEachM_rtc; [apply openRemainingFolder_placed | exact Hfirst]].
  destruct (coalesce _) as [|w rest] eqn:Hfound; [auto|].
  assert (Hin : w ∈ w :: rest) by left. rewrite <- Hfound in Hin.
  apply elem_of_coalesce_map in Hin as (found & _ & Hin). eauto.
Qed.

Lemma restoreEmptyWindow_placed openConfig b s s' :
  restoreEmptyWindow openConfig b s = Some s' -> rtc placed s s'.
Proof. unfold restoreEmptyWindow. intros [= <-]. auto. Qed.

Lemma placementSteps_placed openConfig wsRestore foldersRestore emptyRestore flag s s' :
  placementSteps openConfig wsRestore foldersRestore emptyRestore flag s = Some s' ->
  rtc placed s s'.
Proof.
  unfold placementSteps.
  intros (s1 & Hfirst & (s2 & Hsecond & Hthird)%bind_Some)%bind_Some.
  eapply rtc_trans; [apply openFilesStep_placed|].
  eapply rtc_trans; [eapply openWorkspacesStep_placed; exact Hfirst|].
  eapply rtc_trans; [eapply openFoldersStep_placed; exact Hsecond|].
  eapply forEachM_rtc; [apply restoreEmptyWindow_placed | exact Hthird].
Qed.

Lemma openEmptyWindow_placed openConfig s :
  placed s (openEmptyWindow openConfig s).
Proof. unfold openEmptyWindow. apply placed_empty_open; reflexivity. Qed.

Lemma iter_openEmptyWindow_placed openConfig n s :
  rtc placed s (Nat.iter n (openEmptyWindow openConfig) s).
Proof.
  induction n as [|n IH]; [apply rtc_refl|].
  rewrite Nat.iter_succ.
  eapply rtc_r; [exact IH | apply openEmptyWindow_placed].
Qed.

Lemma openEmptyStep_placed openConfig n s :
  rtc placed s (openEmptyStep openConfig n s).
Proof.
  unfold openEmptyStep. destruct (usedWindows s); [|apply rtc_refl].
  apply iter_openEmptyWindow_placed.
Qed.

(** [doOpen] is a sequence of placements from its initial locals. *)
Lemma doOpenSteps_placed openConfig wsOpen wsRestore foldersOpen foldersRestore
  emptyRestore emptyToOpen fOpen fCreate fDiff m s :
  doOpenSteps openConfig wsOpen wsRestore foldersOpen foldersRestore emptyRestore
    emptyToOpen fOpen fCreate fDiff m = Some s ->
  rtc placed
    (initialOpenState openConfig wsOpen foldersOpen fOpen fCreate fDiff m) s.
Proof.
  unfold doOpenSteps.
  intros (s1 & Hfirst & [= <-])%bind_Some.
  eapply rtc_trans; [eapply placementSteps_placed; exact Hfirst|].
  apply openEmptyStep_placed.
Qed.

End Placements.

(** ** What a placement does to the manager and to the locals *)

Section PlacementEffects.
Context `{!WindowsFinder, !IInstantiationService}.

Lemma pushOpened_mgr k o s :
  mgr (pushOpened k o s) = snd (openInBrowserWindow o (mgr s)).
Proof. unfold pushOpened. destruct (openInBrowserWindow o (mgr s)). reflexivity. Qed.

Lemma pushOpened_usedWindows k o s :
  usedWindows (pushOpened k o s)
  = usedWindows s ++ [fst (openInBrowserWindow o (mgr s))].
Proof. unfold pushOpened. destruct (openInBrowserWindow o (mgr s)). reflexivity. Qed.

Lemma pushOpened_placements k o s :
  placements (pushOpened k o s)
  = placements s
    ++ [{| p_kind := k; p_window := fst (openInBrowserWindow o (mgr s));
           p_forceNewWindow := o_forceNewWindow o;
           p_created := negb (isSome (windowToReuse o (mgr s)));
           p_flag := openFolderInNewWindow s |}].
Proof. unfold pushOpened. destruct (openInBrowserWindow o (mgr s)). reflexivity. Qed.

Lemma pushOpened_flag k o s :
  openFolderInNewWindow (pushOpened k o s) = openFolderInNewWindow s.
Proof. unfold pushOpened. destruct (openInBrowserWindow o (mgr s)). reflexivity. Qed.

(** A forced new window is never a reused one. *)
Lemma windowToReuse_forced o m :
  o_forceNewWindow o = true -> windowToReuse o m = None.
Proof. unfold windowToReuse. intros ->. reflexivity. Qed.

(** A property of the manager that [openInBrowserWindow] preserves is
    preserved by every placement. *)
Lemma placed_mgr (P : WindowsManager -> Prop) :
  (forall o m, P m -> P (snd (openInBrowserWindow o m))) ->
  forall s s', rtc placed s s' -> P (mgr s) -> P (mgr s').
Proof.
  intros HP s s' Hrun. induction Hrun as [s|s s1 s' Hstep _ IH]; [auto|].
  intros Hs. apply IH. destruct Hstep; simpl; rewrite ?pushOpened_mgr; auto.
Qed.

End PlacementEffects.

(** ** The windows-count-changed events *)

Section CountChanged.
Context `{!Platform, !Host, !IBackupMainService,
          !IWorkspacesMainService, !IConfigurationService,
          !IEnvironmentService, !WindowsFinder, !IInstantiationService}.

(** A created window is announced with the count before and after. *)
Lemma openInBrowserWindow_created o m :
  windowToReuse o m = None ->
  let m' := snd (openInBrowserWindow o m) in
  length (WINDOWS m') = length (WINDOWS m) + 1
  /\ countChanged m'
     = countChanged m
       ++ [({| oldCount := length (WINDOWS m); newCount := length (WINDOWS m) + 1 |},
            length (WINDOWS m'))].
Proof.
  intros Hnew. unfold openInBrowserWindow. rewrite Hnew. simpl.
  unfold getWindowCount. simpl. rewrite !length_app. simpl.
  split; [reflexivity|]. do 3 f_equal. f_equal; lia.
Qed.

(** A reused window is not announced. *)
Lemma openInBrowserWindow_reused o m w :
  windowToReuse o m = Some w ->
  let m' := snd (openInBrowserWindow o m) in
  WINDOWS m' = WINDOWS m /\ countChanged m' = countChanged m.
Proof.
  intros Hold. unfold openInBrowserWindow. rewrite Hold. simpl. split; reflexivity.
Qed.

(** A closed window is announced with the count before and after. *)
Lemma onWindowClosed_countChanged win m :
  let m' := onWindowClosed win m in
  countChanged m'
  = countChanged m
    ++ [({| oldCount := length (WINDOWS m') + 1; newCount := length (WINDOWS m') |},
         length (WINDOWS m'))].
Proof. reflexivity. Qed.

Lemma openInBrowserWindow_countChangedOk o m :
  Forall countChangedOk (countChanged m) ->
  Forall countChangedOk (countChanged (snd (openInBrowserWindow o m))).
Proof.
  intros Hm. destruct (windowToReuse o m) as [w|] eqn:Hreuse.
  - destruct (openInBrowserWindow_reused o m w Hreuse) as [_ ->]. exact Hm.
  - destruct (openInBrowserWindow_created o m Hreuse) as [Hlen ->].
    apply Forall_app. split; [exact Hm|].
    apply Forall_singleton. unfold countChangedOk. simpl. split; [left|]; lia.
Qed.

Lemma open_countChangedOk (L : ILifecycleService) openConfig m used m' :
  open openConfig m = Some (used, m') ->
  Forall countChangedOk (countChanged m) ->
  Forall countChangedOk (countChanged m').
Proof.
  unfold open. destruct (classifyFiles _ _) as [[fOpen fCreate] fDiff].
  unfold doOpenWith, doOpen. intros (s & Hsteps & [= <- <-])%bind_Some Hm.
  apply doOpenSteps_placed in Hsteps.
  apply (placed_mgr (fun m => Forall countChangedOk (countChanged m))
           openInBrowserWindow_countChangedOk _ _ Hsteps).
  exact Hm.
Qed.

Lemma onBeforeWindowClose_countChanged (L : ILifecycleService) win m :
  countChanged (onBeforeWindowClose win m) = countChanged m.
Proof.
  unfold onBeforeWindowClose.
  repeat match goal with |- context [if ?b then _ else _] => destruct b end;
    reflexivity.
Qed.

Lemma step_countChangedOk m m' :
  step m m' ->
  Forall countChangedOk (countChanged m) ->
  Forall countChangedOk (countChanged m').
Proof.
  intros Hstep Hm. destruct Hstep as [L cfg m used m' Hopen|o m|win m|win m|L win m|m].
  - eapply open_countChangedOk; eassumption.
  - apply openInBrowserWindow_countChangedOk. exact Hm.
  - apply openInBrowserWindow_countChangedOk. exact Hm.
  - rewrite onWindowClosed_countChanged. apply Forall_app. split; [exact Hm|].
    apply Forall_singleton. unfold countChangedOk. simpl. split; [right|]; lia.
  - rewrite onBeforeWindowClose_countChanged. exact Hm.
  - exact Hm.
Qed.

(** C10. Every windows-count-changed event of a reachable manager has
    an old and a new count that differ by exactly one, and its new
    count is the number of live windows when it fires.  The event of a
    created window has [newCount = oldCount + 1], a reused window fires
    none, and the event of a closed window has [oldCount = newCount +
    1]. *)
Theorem countChanged_events (m : WindowsManager) :
  reachable m ->
  Forall countChangedOk (countChanged m)
  /\ (forall o,
        match windowToReuse o m with
        | None =>
            exists e,
              countChanged (snd (openInBrowserWindow o m))
              = countChanged m
                ++ [(e, length (WINDOWS (snd (openInBrowserWindow o m))))]
              /\ newCount e = oldCount e + 1
              /\ newCount e = length (WINDOWS (snd (openInBrowserWindow o m)))
        | Some _ =>
            countChanged (snd (openInBrowserWindow o m)) = countChanged m
        end)
  /\ (forall win,
        exists e,
          countChanged (onWindowClosed win m)
          = countChanged m ++ [(e, length (WINDOWS (onWindowClosed win m)))]
          /\ oldCount e = newCount e + 1
          /\ newCount e = length (WINDOWS (onWindowClosed win m))).
Proof.
  intros [st Hreach]. split; [|split].
  - revert m Hreach. apply rtc_ind_r.
    + apply Forall_nil_2.
    + intros m1 m2 _ Hstep IH. eapply step_countChangedOk; eassumption.
  - intros o. destruct (windowToReuse o m) as [w|] eqn:Hreuse.
    + eapply openInBrowserWindow_reused. exact Hreuse.
    + destruct (openInBrowserWindow_created o m Hreuse) as [Hlen Hev].
      eexists. split; [exact Hev|]. simpl. split; [reflexivity|]. lia.
  - intros win. eexists. split; [apply onWindowClosed_countChanged|].
    simpl. split; reflexivity.
Qed.

End CountChanged.

(** ** The open-in-new-window flag *)






Section Sticky.
Context `{!WindowsFinder, !IInstantiationService}.

Lemma pushOpened_created o (s : OpenState) :
  o_forceNewWindow o = true ->
  negb (isSome (windowToReuse o (mgr s))) = true.
Proof. intros Hforce. rewrite (windowToReuse_forced o _ Hforce). reflexivity. Qed.



End Sticky.

(** ** Placements into the windows found *)

Section FoundWindows.
Context `{!WindowsFinder, !IInstantiationService}.







End FoundWindows.


(** At most one hand-over of the pending files to a window found for
    the workspaces, and one to a window found for the folders: the
    other steps of [doOpen] make placements of other kinds. *)
Section HandOvers.
Context `{!Platform, !Host, !ILifecycleService, !IBackupMainService,
          !IWorkspacesMainService, !IConfigurationService,
          !IEnvironmentService, !WindowsFinder, !IInstantiationService}.
Variable P : PlacementKind -> bool.
Hypothesis P_files_existing : P FilesInExistingWindow = false.
Hypothesis P_files_new : P FilesInNewWindow = false.
Hypothesis P_reload : P WorkspaceReload = false.
Hypothesis P_workspace_open : P WorkspaceOpen = false.
Hypothesis P_folder_open : P FolderOpen = false.
Hypothesis P_empty_restore : P EmptyRestore = false.
Hypothesis P_empty_open : P EmptyOpen = false.













End HandOvers.

Section StickyFlag.
Context `{!Platform, !Host, !ILifecycleService, !IBackupMainService,
          !IWorkspacesMainService, !IConfigurationService,
          !IEnvironmentService, !WindowsFinder, !IInstantiationService}.


End StickyFlag.

(** ** Empty windows *)

Lemma filter_all {A} (f : A -> bool) (l : list A) :
  Forall (fun x => f x = true) l -> List.filter f l = l.
Proof.
  induction 1 as [|x l Hx _ IH]; simpl; [reflexivity|].
  rewrite Hx, IH. reflexivity.
Qed.

(** Without duplicates, [distinct] keeps the list. *)
Lemma distinct_NoDup {A K} `{EqDecision K} (key : A -> K) (l : list A) :
  NoDup (key <$> l) -> distinct key l = l.
Proof.
  induction l as [|x l IH]; simpl; [reflexivity|].
  intros [Hx Hl]%NoDup_cons. rewrite (IH Hl). f_equal.
  apply filter_all, Forall_forall. intros y Hy.
  apply negb_true_iff, bool_decide_eq_false. intros Heq.
  apply Hx. rewrite <- Heq. apply list_elem_of_fmap. eauto.
Qed.

Section EmptyWindows.
Context `{!Platform, !Host, !ILifecycleService, !IBackupMainService,
          !IWorkspacesMainService, !IConfigurationService,
          !IEnvironmentService, !WindowsFinder, !IInstantiationService}.

Lemma openInBrowserWindow_wf o m :
  wfManager m -> wfManager (snd (openInBrowserWindow o m)).
Proof.
  unfold wfManager, openInBrowserWindow. intros Hm.
  destruct (windowToReuse o m) as [w|]; simpl; [exact Hm|].
  apply Forall_app. split.
  - eapply Forall_impl; [exact Hm|]. simpl. intros w Hw. lia.
  - apply Forall_singleton. rewrite createInstance_id. lia.
Qed.

(** The window [openInBrowserWindow] returns is a live one or the one
    it creates. *)
Lemma openInBrowserWindow_window o m :
  o_windowToUse o = None ->
  wfManager m ->
  match windowToReuse o m with
  | Some _ =>
      win_id (fst (openInBrowserWindow o m)) < nextWindowId m
      /\ nextWindowId (snd (openInBrowserWindow o m)) = nextWindowId m
  | None =>
      win_id (fst (openInBrowserWindow o m)) = nextWindowId m
      /\ nextWindowId (snd (openInBrowserWindow o m)) = S (nextWindowId m)
  end.
Proof.
  intros Huse Hm. unfold openInBrowserWindow.
  destruct (windowToReuse o m) as [w|] eqn:Hreuse; simpl.
  - split; [|reflexivity]. unfold windowToReuse in Hreuse.
    destruct (o_forceNewWindow o); [discriminate|]. rewrite Huse in Hreuse.
    apply getLastActiveWindow_elem in Hreuse.
    unfold wfManager in Hm. rewrite Forall_forall in Hm. apply Hm. exact Hreuse.
  - split; [apply createInstance_id | reflexivity].
Qed.

Lemma openEmptyWindow_emptyInv openConfig s :
  emptyInv s ->
  emptyInv (openEmptyWindow openConfig s)
  /\ length (usedWindows (openEmptyWindow openConfig s)) = S (length (usedWindows s)).
Proof.
  intros (Hwf & Hused & Hnodup & Hflag). unfold openEmptyWindow.
  set (o := optionsFor openConfig (handled s) None None (openFolderInNewWindow s) None None).
  pose proof (openInBrowserWindow_window o (mgr s) eq_refl Hwf) as Hwin.
  unfold emptyInv. simpl.
  rewrite pushOpened_mgr, pushOpened_usedWindows, length_app, fmap_app. simpl.
  split; [|lia]. split; [apply openInBrowserWindow_wf; exact Hwf|].
  destruct (windowToReuse o (mgr s)) as [w|] eqn:Hreuse.
  - destruct Hwin as [Hid Hnext]. rewrite Hnext.
    assert (Hnone : usedWindows s = []).
    { destruct (usedWindows s) as [|u us] eqn:Hus; [reflexivity|].
      unfold windowToReuse in Hreuse. simpl in Hreuse.
      rewrite Hflag in Hreuse; discriminate. }
    rewrite Hnone. simpl. split; [|split].
    + apply Forall_singleton. exact Hid.
    + apply NoDup_singleton.
    + reflexivity.
  - destruct Hwin as [Hid Hnext]. rewrite Hnext, Hid. split; [|split].
    + apply Forall_app. split.
      * eapply Forall_impl; [exact Hused|]. simpl. intros w Hw. lia.
      * apply Forall_singleton. lia.
    + apply NoDup_app. split; [exact Hnodup|]. split; [|apply NoDup_singleton].
      intros i Hi Hi'. apply list_elem_of_singleton in Hi'. subst i.
      apply list_elem_of_fmap in Hi as (w & Hw & Hin).
      rewrite Forall_forall in Hused. specialize (Hused w Hin). lia.
    + reflexivity.
Qed.

Lemma iter_openEmptyWindow openConfig n s :
  emptyInv s ->
  usedWindows s = [] ->
  emptyInv (Nat.iter n (openEmptyWindow openConfig) s)
  /\ length (usedWindows (Nat.iter n (openEmptyWindow openConfig) s)) = n.
Proof.
  intros Hinv Hnone. induction n as [|n [IHinv IHlen]].
  - simpl. rewrite Hnone. split; [exact Hinv | reflexivity].
  - rewrite Nat.iter_succ.
    destruct (openEmptyWindow_emptyInv openConfig _ IHinv) as [Hinv' Hlen'].
    split; [exact Hinv' | rewrite Hlen', IHlen; reflexivity].
Qed.

Lemma openInBrowserWindow_pendingLoads o m :
  pendingLoads (snd (openInBrowserWindow o m))
  = pendingLoads m ++ [(win_id (fst (openInBrowserWindow o m)), o)].
Proof. unfold openInBrowserWindow. destruct (windowToReuse o m); reflexivity. Qed.

(** Every window used by the loop is asked to load an empty window. *)
Lemma iter_openEmptyWindow_loads openConfig n s :
  usedWindows s = [] ->
  exists loads,
    pendingLoads (mgr (Nat.iter n (openEmptyWindow openConfig) s))
    = pendingLoads (mgr s) ++ loads
    /\ loads.*1 = win_id <$> usedWindows (Nat.iter n (openEmptyWindow openConfig) s)
    /\ Forall (fun l => isEmptyLoad l.2) loads.
Proof.
  intros Hnone. induction n as [|n (loads & Hloads & Hwins & Hempty)].
  - exists []. simpl. rewrite Hnone, app_nil_r. repeat split. apply Forall_nil_2.
  - rewrite Nat.iter_succ. set (s' := Nat.iter n (openEmptyWindow openConfig) s) in *.
    unfold openEmptyWindow. simpl.
    rewrite pushOpened_mgr, pushOpened_usedWindows, openInBrowserWindow_pendingLoads.
    eexists (loads ++ [_]). rewrite Hloads, <- app_assoc. split; [reflexivity|].
    rewrite !fmap_app, Hwins. split; [reflexivity|].
    apply Forall_app. split; [exact Hempty|].
    apply Forall_singleton. repeat split.
Qed.

Lemma open_unfold openConfig m :
  open openConfig m
  = s ← openPlacement openConfig m;
    let s' := openEmptyStep openConfig (emptyToOpenOf (getWindowsToOpen openConfig m)) s in
    Some (distinct win_id (usedWindows s'), mgr s').
Proof.
  unfold open, openPlacement, doOpenWith, doOpen, doOpenSteps.
  destruct (classifyFiles _ _) as [[fOpen fCreate] fDiff].
  destruct (placementSteps _ _ _ _ _ _); reflexivity.
Qed.

Lemma openPlacement_wf openConfig m s :
  wfManager m -> openPlacement openConfig m = Some s -> wfManager (mgr s).
Proof.
  intros Hm. unfold openPlacement.
  destruct (classifyFiles _ _) as [[fOpen fCreate] fDiff].
  intros Hsteps%placementSteps_placed.
  apply (placed_mgr wfManager openInBrowserWindow_wf _ _ Hsteps). exact Hm.
Qed.

(** C8, as the code has it.  When the file, workspace, folder and
    empty-restore steps of an [open] call produce no window, [open]
    returns exactly N windows, pairwise distinct, each asked to load
    an empty window, where N is the number of resolved targets with no
    workspace, folder path, file path and backup path.  N can be zero,
    and then the returned list is empty; N is one when the call forces
    an empty window and gives no path. *)
Theorem open_empty_windows openConfig m s :
  wfManager m ->
  openPlacement openConfig m = Some s ->
  usedWindows s = [] ->
  let N := length (List.filter isEmptyToOpen (getWindowsToOpen openConfig m)) in
  exists used m' loads,
    open openConfig m = Some (used, m')
    /\ length used = N
    /\ NoDup (win_id <$> used)
    /\ pendingLoads m' = pendingLoads (mgr s) ++ loads
    /\ loads.*1 = win_id <$> used
    /\ Forall (fun l => isEmptyLoad l.2) loads
    /\ (used = [] <-> N = 0)
    /\ (forceEmpty openConfig = true ->
        pathsToOpen openConfig = None \/ pathsToOpen openConfig = Some [] ->
        N = 1).
Proof.
  intros Hm Hplace Hnone N.
  pose proof (openPlacement_wf _ _ _ Hm Hplace) as Hwf.
  assert (Hinv : emptyInv s).
  { unfold emptyInv. rewrite Hnone.
    split; [exact Hwf|]. split; [apply Forall_nil_2|].
    split; [apply NoDup_nil_2|]. intros Hne. contradiction. }
  destruct (iter_openEmptyWindow openConfig N s Hinv Hnone)
    as [(_ & _ & Hnodup & _) Hlen].
  destruct (iter_openEmptyWindow_loads openConfig N s Hnone)
    as (loads & Hloads & Hwins & Hempty).
  exists (usedWindows (Nat.iter N (openEmptyWindow openConfig) s)),
         (mgr (Nat.iter N (openEmptyWindow openConfig) s)), loads.
  split; [|split; [exact Hlen | split; [exact Hnodup |]]].
  - rewrite open_unfold, Hplace. simpl. unfold openEmptyStep. rewrite Hnone.
    fold N. unfold emptyToOpenOf. fold N. rewrite (distinct_NoDup _ _ Hnodup).
    reflexivity.
  - split; [exact Hloads|]. split; [exact Hwins|]. split; [exact Hempty|]. split.
    + split.
      * intros Hnil. rewrite Hnil in Hlen. symmetry. exact Hlen.
      * intros Hzero. apply nil_length_inv. rewrite Hlen. exact Hzero.
    + intros Hforce Hpaths. subst N. unfold getWindowsToOpen.
      destruct Hpaths as [-> | ->]; rewrite Hforce; reflexivity.
Qed.

(** The manager's windows are well identified in every reachable
    state. *)
Lemma In_removelast {A} (l : list A) (w : A) : In w (removelast l) -> In w l.
Proof.
  induction l as [|x l IH]; simpl; [tauto|].
  destruct l as [|y l]; [simpl; tauto|].
  intros [<- | Hin]; [left; reflexivity | right; apply IH; exact Hin].
Qed.

Lemma splice1_Forall (P : CodeWindow -> Prop) index l :
  Forall P l -> Forall P (splice1 index l).
Proof.
  intros Hl. destruct index as [i|]; simpl.
  - apply Forall_delete. exact Hl.
  - rewrite Forall_forall in *. intros w Hw. apply Hl.
    apply list_elem_of_In, In_removelast, list_elem_of_In. exact Hw.
Qed.

Lemma onBeforeWindowClose_WINDOWS win m :
  WINDOWS (onBeforeWindowClose win m) = WINDOWS m
  /\ nextWindowId (onBeforeWindowClose win m) = nextWindowId m.
Proof.
  unfold onBeforeWindowClose.
  repeat match goal with |- context [if ?b then _ else _] => destruct b end;
    split; reflexivity.
Qed.

End EmptyWindows.

Section ReachableWindows.
Context `{!Platform, !Host, !IBackupMainService,
          !IWorkspacesMainService, !IConfigurationService,
          !IEnvironmentService, !WindowsFinder, !IInstantiationService}.

Lemma open_wf (L : ILifecycleService) openConfig m used m' :
  open openConfig m = Some (used, m') -> wfManager m -> wfManager m'.
Proof.
  unfold open. destruct (classifyFiles _ _) as [[fOpen fCreate] fDiff].
  unfold doOpenWith, doOpen. intros (s & Hsteps & [= <- <-])%bind_Some Hm.
  apply doOpenSteps_placed in Hsteps.
  apply (placed_mgr wfManager openInBrowserWindow_wf _ _ Hsteps). exact Hm.
Qed.

Lemma step_wf m m' : step m m' -> wfManager m -> wfManager m'.
Proof.
  intros Hstep Hm.
  destruct Hstep as [L cfg m used m' Hopen|o m|win m|win m|L win m|m].
  - eapply open_wf; eassumption.
  - apply openInBrowserWindow_wf. exact Hm.
  - apply openInBrowserWindow_wf. exact Hm.
  - unfold wfManager, onWindowClosed. simpl. apply splice1_Forall. exact Hm.
  - unfold wfManager. destruct (onBeforeWindowClose_WINDOWS win m) as [-> ->].
    exact Hm.
  - exact Hm.
Qed.

(** Every state the manager reaches is well identified. *)
Lemma reachable_wf m : reachable m -> wfManager m.
Proof.
  intros [st Hreach]. revert m Hreach. apply rtc_ind_r.
  - apply Forall_nil_2.
  - intros m1 m2 _ Hstep IH. eapply step_wf; eassumption.
Qed.

End ReachableWindows.

(** * Further properties *)

(** ** Quit, restart and the last closed window *)

Lemma head_filter_None {A} (f : A -> bool) (l : list A) :
  head (List.filter f l) = None <-> Forall (fun x => f x = false) l.
Proof.
  induction l as [|x l IH]; simpl.
  - split; [intros _; apply Forall_nil_2 | reflexivity].
  - destruct (f x) eqn:Hx; simpl.
    + split; [discriminate|]. intros Hall. apply Forall_inv in Hall. congruence.
    + rewrite IH. split.
      * intros Hl. apply Forall_cons. split; [exact Hx | exact Hl].
      * intros Hall. apply Forall_inv_tail in Hall. exact Hall.
Qed.

Lemma head_filter_Some {A} (f : A -> bool) (l : list A) (x : A) :
  head (List.filter f l) = Some x -> x ∈ l /\ f x = true.
Proof.
  intros Hhead.
  assert (Hin : In x (List.filter f l)).
  { destruct (List.filter f l) as [|y l']; [discriminate|].
    injection Hhead as ->. left. reflexivity. }
  apply filter_In in Hin as [Hin Hx]. split; [|exact Hx].
  apply list_elem_of_In. exact Hin.
Qed.

Lemma map_state_ofState (l : list IWindowState) :
  map Legacy.state (map Legacy.ofState l) = l.
Proof. induction l as [|s l IH]; simpl; [|rewrite IH]; reflexivity. Qed.

Lemma map_migrateWindow_ofState (l : list IWindowState) :
  map Legacy.migrateWindow (map Legacy.ofState l) = map Legacy.ofState l.
Proof. induction l as [|s l IH]; simpl; [|rewrite IH]; reflexivity. Qed.





Section QuitProperties.
Context `{!Platform, !Host, !WindowsFinder}.

(** What [onBeforeQuit] writes is in the current format: the migration
    leaves it as it is. *)
Lemma migrate_currentWindowsState (m : WindowsManager) :
  Legacy.migrateLegacyWindowState (currentWindowsState m) = currentWindowsState m.
Proof.
  unfold Legacy.migrateLegacyWindowState, Legacy.migrateContainer,
    Legacy.migrateWindows, currentWindowsState. simpl.
  rewrite map_migrateWindow_ofState.
  destruct (quitLastActiveWindow m), (quitExtensionHostWindow m); reflexivity.
Qed.

Lemma windowsState_restart (m : WindowsManager) :
  windowsState (newWindowsManager (storage (onBeforeQuit m)))
  = {| lastActiveWindow := quitLastActiveWindow m;
       lastPluginDevelopmentHostWindow := quitExtensionHostWindow m;
       openedWindows := quitOpenedWindows m |}.
Proof.
  unfold newWindowsManager. cbn [windowsState].
  rewrite getItem_onBeforeQuit.
  match goal with
  | |- _ = ?rhs =>
      change (Legacy.upcast (Legacy.migrateLegacyWindowState (currentWindowsState m))
              = rhs)
  end.
  rewrite migrate_currentWindowsState.
  unfold Legacy.upcast, currentWindowsState. simpl.
  rewrite map_state_ofState.
  destruct (quitLastActiveWindow m), (quitExtensionHostWindow m); reflexivity.
Qed.

(** X2. Quit and restart is a round trip: the windows state the
    constructor reads back from what [onBeforeQuit] stored is the last
    active window, the extension development host window and the
    opened windows that [onBeforeQuit] computed; the migration of
    legacy fields changes nothing in it. *)
Theorem onBeforeQuit_restart (m : WindowsManager) :
  Legacy.migrateLegacyWindowState (currentWindowsState m) = currentWindowsState m
  /\ windowsState (newWindowsManager (storage (onBeforeQuit m)))
     = {| lastActiveWindow := quitLastActiveWindow m;
          lastPluginDevelopmentHostWindow := quitExtensionHostWindow m;
          openedWindows := quitOpenedWindows m |}
  /\ (forall w, w ∈ WINDOWS m -> isExtensionDevelopmentHost w = false ->
      1 < getWindowCount m ->
      toWindowState w
      ∈ openedWindows (windowsState (newWindowsManager (storage (onBeforeQuit m))))).
Proof.
  split; [apply migrate_currentWindowsState|].
  split; [apply windowsState_restart|].
  intros w Hw Hhost Hcount. rewrite windowsState_restart. simpl.
  unfold quitOpenedWindows. apply Nat.ltb_lt in Hcount. rewrite Hcount.
  apply list_elem_of_fmap. exists w. split; [reflexivity|].
  apply list_elem_of_In, filter_In. split; [apply list_elem_of_In; exact Hw|].
  unfold notExtensionDevelopmentHost. rewrite Hhost. reflexivity.
Qed.

(** With one window, its close handler remembers its state. *)
Lemma onBeforeWindowClose_lastClosed (L : ILifecycleService) win m :
  isQuitRequested = false ->
  getWindowCount m = 1 ->
  lastClosedWindowState (onBeforeWindowClose win m) = Some (toWindowState win).
Proof.
  intros Hquit Hone. unfold onBeforeWindowClose. rewrite Hquit.
  repeat match goal with
         | |- context [if ?b then _ else _] =>
             lazymatch b with
             | Nat.eqb _ _ => fail
             | _ => destruct b
             end
         end;
    unfold getWindowCount in *; simpl; rewrite Hone; reflexivity.
Qed.

Lemma quitLastActiveWindow_lastClosed m s :
  lastClosedWindowState m = Some s -> quitLastActiveWindow m = Some s.
Proof. unfold quitLastActiveWindow. intros ->. reflexivity. Qed.

Lemma onWindowClosed_lastClosed win m :
  lastClosedWindowState (onWindowClosed win m) = lastClosedWindowState m.
Proof. reflexivity. Qed.

Lemma onWindowClosed_windowsState win m :
  windowsState (onWindowClosed win m) = windowsState m.
Proof. reflexivity. Qed.

Lemma splice1_indexOf_last win (l : list CodeWindow) :
  length l <= 1 -> splice1 (indexOf win l) l = [].
Proof.
  destruct l as [|w [|w' l]]; simpl; [| |lia]; intros _.
  - reflexivity.
  - destruct (win_id w =? win_id win); reflexivity.
Qed.

(** X3. Closing the last window and then quitting (the order of
    Windows and Linux): the state persisted as the last active window
    is the state of the window that closed, taken when it closed,
    whether the quit comes before or after the window is removed from
    the list; no opened windows are persisted. *)
Theorem close_last_window_then_quit (L : ILifecycleService) win m :
  isQuitRequested = false ->
  getWindowCount m = 1 ->
  let closing := onBeforeWindowClose win m in
  let closed := onWindowClosed win closing in
  (forall m', m' = closing \/ m' = closed ->
     exists persisted,
       getItem windowsStateStorageKey (storage (onBeforeQuit m')) = Some persisted
       /\ Legacy.lastActiveWindow persisted = Some (Legacy.ofState (toWindowState win))
       /\ Legacy.openedWindows persisted = Some [])
  /\ WINDOWS closed = [].
Proof.
  intros Hquit Hone closing closed.
  assert (Hclosing : lastClosedWindowState closing = Some (toWindowState win))
    by (apply onBeforeWindowClose_lastClosed; assumption).
  assert (Hwins : WINDOWS closing = WINDOWS m)
    by (apply onBeforeWindowClose_WINDOWS).
  assert (Hnone : WINDOWS closed = []).
  { subst closed. unfold onWindowClosed. simpl. apply splice1_indexOf_last.
    rewrite Hwins. unfold getWindowCount in Hone. lia. }
  split; [|exact Hnone].
  intros m' Hm'. exists (currentWindowsState m').
  split; [apply getItem_onBeforeQuit|].
  assert (Hlast : lastClosedWindowState m' = Some (toWindowState win)).
  { destruct Hm' as [-> | ->]; [exact Hclosing|].
    subst closed. rewrite onWindowClosed_lastClosed. exact Hclosing. }
  assert (Hcount : getWindowCount m' <= 1).
  { unfold getWindowCount in *. destruct Hm' as [-> | ->].
    - rewrite Hwins. lia.
    - rewrite Hnone. simpl. lia. }
  unfold currentWindowsState. simpl.
  rewrite (quitLastActiveWindow_lastClosed _ _ Hlast). split; [reflexivity|].
  unfold quitOpenedWindows.
  destruct (1 <? getWindowCount m') eqn:E; [apply Nat.ltb_lt in E; lia|].
  reflexivity.
Qed.

(** X4. When no last closed window is remembered, the last active
    window that [onBeforeQuit] persists is the state of a live window
    that is not an extension development host; none is persisted only
    when every live window is an extension development host (or none
    is live). *)
Theorem onBeforeQuit_lastActiveWindow (m : WindowsManager) :
  lastClosedWindowState m = None ->
  exists persisted,
    getItem windowsStateStorageKey (storage (onBeforeQuit m)) = Some persisted
    /\ (forall s, Legacy.lastActiveWindow persisted = Some s ->
        exists w, w ∈ WINDOWS m /\ isExtensionDevelopmentHost w = false
                  /\ s = Legacy.ofState (toWindowState w))
    /\ (Legacy.lastActiveWindow persisted = None
        <-> Forall (fun w => isExtensionDevelopmentHost w = true) (WINDOWS m)).
Proof.
  intros Hnone. exists (currentWindowsState m).
  split; [apply getItem_onBeforeQuit|].
  unfold currentWindowsState, quitLastActiveWindow. simpl. rewrite Hnone.
  set (firstOther := head (List.filter notExtensionDevelopmentHost (WINDOWS m))).
  assert (Hother : forall w, firstOther = Some w ->
            w ∈ WINDOWS m /\ isExtensionDevelopmentHost w = false).
  { intros w Hw. apply head_filter_Some in Hw as [Hin Hw]. split; [exact Hin|].
    unfold notExtensionDevelopmentHost in Hw. apply negb_true_iff. exact Hw. }
  assert (Hno : firstOther = None
                <-> Forall (fun w => isExtensionDevelopmentHost w = true) (WINDOWS m)).
  { unfold firstOther. rewrite head_filter_None. apply Forall_iff. intros w.
    unfold notExtensionDevelopmentHost. apply negb_false_iff. }
  destruct (getLastActiveWindow (WINDOWS m)) as [a|] eqn:Hactive.
  - destruct (isExtensionDevelopmentHost a) eqn:Hhost.
    + split.
      * intros s Hs. destruct firstOther as [w|]; [|discriminate].
        injection Hs as <-. destruct (Hother w eq_refl). eauto.
      * rewrite <- Hno. destruct firstOther; simpl; split; congruence.
    + split.
      * intros s [= <-]. exists a. split; [|auto].
        eapply getLastActiveWindow_elem. exact Hactive.
      * simpl. split; [discriminate|]. intros Hall.
        apply getLastActiveWindow_elem in Hactive.
        rewrite Forall_forall in Hall. specialize (Hall a Hactive). congruence.
  - split.
    + intros s Hs. destruct firstOther as [w|]; [|discriminate].
      injection Hs as <-. destruct (Hother w eq_refl). eauto.
    + rewrite <- Hno. destruct firstOther; simpl; split; congruence.
Qed.

(** X5. When an extension development host closes (outside a quit),
    the stored opened windows and last active window are not touched;
    its state becomes the last extension development host window,
    unless it is an extension test host, whose close changes nothing
    in the windows state. *)
Theorem onBeforeWindowClose_extension_host (L : ILifecycleService) win m :
  isQuitRequested = false ->
  isExtensionDevelopmentHost win = true ->
  let st := windowsState m in
  let st' := windowsState (onBeforeWindowClose win m) in
  openedWindows st' = openedWindows st
  /\ lastActiveWindow st' = lastActiveWindow st
  /\ lastPluginDevelopmentHostWindow st'
     = (if isExtensionTestHost win then lastPluginDevelopmentHostWindow st
        else Some (toWindowState win))
  /\ (isExtensionTestHost win = true -> st' = st).
Proof.
  intros Hquit Hhost st st'. subst st st'.
  unfold onBeforeWindowClose. rewrite Hquit, Hhost. simpl.
  destruct (isExtensionTestHost win); simpl;
    destruct (getWindowCount _ =? 1); simpl;
    repeat split; try reflexivity; try discriminate;
    intros _; destruct (windowsState m); reflexivity.
Qed.

Lemma entryOf_updateUIState win o : entryOf (updateUIState win o) = entryOf o.
Proof. unfold updateUIState. destruct (_ || _); reflexivity. Qed.

(** X6. A close never adds, removes or re-targets a stored entry: the
    workspace, folder path and backup path of every entry of the
    stored opened windows, in order, and the stored last active
    window, are the same after [onBeforeWindowClose], whatever the
    window and the quit flag.  The live windows are the same too. *)
Theorem onBeforeWindowClose_keeps_entries (L : ILifecycleService) win m :
  let st := windowsState m in
  let st' := windowsState (onBeforeWindowClose win m) in
  map entryOf (openedWindows st') = map entryOf (openedWindows st)
  /\ lastActiveWindow st' = lastActiveWindow st
  /\ WINDOWS (onBeforeWindowClose win m) = WINDOWS m.
Proof.
  intros st st'. split; [|split].
  - subst st st'. unfold onBeforeWindowClose.
    repeat match goal with |- context [if ?b then _ else _] => destruct b end;
      simpl; try reflexivity;
      rewrite map_map; apply map_ext; intros o; apply entryOf_updateUIState.
  - subst st st'. unfold onBeforeWindowClose.
    repeat match goal with |- context [if ?b then _ else _] => destruct b end;
      reflexivity.
  - apply onBeforeWindowClose_WINDOWS.
Qed.

End QuitProperties.

(** ** The geometry a new window inherits *)

Section StoredGeometry.
Context `{!Platform, !Host, !WindowsFinder, !Paths}.

Lemma getLastActiveWindow_none : getLastActiveWindow [] = None.
Proof.
  destruct (getLastActiveWindow []) as [w|] eqn:E; [|reflexivity].
  apply getLastActiveWindow_elem in E. apply elem_of_nil in E. contradiction.
Qed.

(** The first entry that passes a test which the closing window's
    entries pass has the closing window's geometry. *)
Lemma head_updated (win : CodeWindow) (f : IWindowState -> bool) (l : list IWindowState) :
  (forall o, f (updateUIState win o) = f o) ->
  (forall o, f o = true -> sameWorkspace win o || sameFolder win o = true) ->
  (exists o, o ∈ l /\ f o = true) ->
  head (map uiState (List.filter f (map (updateUIState win) l)))
  = Some (serializeWindowState win).
Proof.
  intros Hkeep Hsame (o & Hin & Ho).
  induction l as [|x l IH]; [apply elem_of_nil in Hin; contradiction|].
  simpl. rewrite Hkeep. destruct (f x) eqn:Hx.
  - simpl. unfold updateUIState. rewrite (Hsame x Hx). reflexivity.
  - apply IH. apply elem_of_cons in Hin as [-> | Hin]; [congruence | exact Hin].
Qed.

Lemma onBeforeWindowClose_openedWindows (L : ILifecycleService) win m :
  isQuitRequested = false ->
  isExtensionDevelopmentHost win = false ->
  isSome (openedWorkspace win) || truthy (openedFolderPath win) = true ->
  windowsState (onBeforeWindowClose win m)
  = {| lastActiveWindow := lastActiveWindow (windowsState m);
       lastPluginDevelopmentHostWindow :=
         lastPluginDevelopmentHostWindow (windowsState m);
       openedWindows := map (updateUIState win) (openedWindows (windowsState m)) |}.
Proof.
  intros Hquit Hhost Hholds. unfold onBeforeWindowClose.
  rewrite Hquit, Hhost, Hholds. simpl.
  destruct (getWindowCount _ =? 1); reflexivity.
Qed.

(** X7. The geometry of a closed window is the geometry of the next
    window on the same workspace or folder: after a window that is not
    an extension development host closes (outside a quit), a new
    window that is no extension host, for a workspace with the id of
    the closed window's workspace, or for no workspace and the folder
    of the closed window, is given the UI state the closed window
    serialised, provided the stored opened windows have an entry for
    that workspace or folder. *)
Theorem reopened_window_geometry (L : ILifecycleService) win m
  (configuration : IWindowConfiguration) :
  isQuitRequested = false ->
  isExtensionDevelopmentHost win = false ->
  truthy (c_extensionTestsPath configuration) = false ->
  truthy (c_extensionDevelopmentPath configuration) = false ->
  (forall ws w,
     c_workspace configuration = Some ws ->
     openedWorkspace win = Some w ->
     ws_id w = ws_id ws ->
     (exists o, o ∈ openedWindows (windowsState m) /\ onWorkspaceId ws o = true) ->
     getStoredWindowState configuration (onBeforeWindowClose win m)
     = Some (serializeWindowState win))
  /\ (forall folder,
        c_workspace configuration = None ->
        nonEmpty (c_folderPath configuration) = Some folder ->
        nonEmpty (openedFolderPath win) = Some folder ->
        (exists o, o ∈ openedWindows (windowsState m)
                   /\ isEqual (folderPath o) folder (negb isLinux) = true) ->
        getStoredWindowState configuration (onBeforeWindowClose win m)
        = Some (serializeWindowState win)).
Proof.
  intros Hquit Hhost Htests Hdev. split.
  - intros ws w Hcws Hws Hid Hentry.
    unfold getStoredWindowState. rewrite Htests, Hdev, Hcws.
    rewrite onBeforeWindowClose_openedWindows;
      [|assumption|assumption|rewrite Hws; reflexivity].
    cbn [openedWindows].
    pose proof (head_updated win (onWorkspaceId ws) (openedWindows (windowsState m)))
      as Hhead.
    destruct (map uiState _) as [|s rest].
    + exfalso. enough (@head ISingleWindowState [] = Some (serializeWindowState win))
        by discriminate.
      apply Hhead; [| |exact Hentry].
      * intros o. unfold onWorkspaceId, updateUIState.
        destruct (_ || _); reflexivity.
      * intros o Ho. unfold sameWorkspace, onWorkspaceId in *. rewrite Hws.
        destruct (workspace o) as [ow|]; [|discriminate].
        rewrite Hid, Ho. reflexivity.
    + f_equal. enough (head (s :: rest) = Some (serializeWindowState win)) as Hs
        by (injection Hs; auto).
      apply Hhead; [| |exact Hentry].
      * intros o. unfold onWorkspaceId, updateUIState.
        destruct (_ || _); reflexivity.
      * intros o Ho. unfold sameWorkspace, onWorkspaceId in *. rewrite Hws.
        destruct (workspace o) as [ow|]; [|discriminate].
        rewrite Hid, Ho. reflexivity.
  - intros folder Hcws Hcfolder Hfolder Hentry.
    unfold getStoredWindowState. rewrite Htests, Hdev, Hcws, Hcfolder.
    rewrite onBeforeWindowClose_openedWindows;
      [|assumption|assumption|].
    2:{ unfold truthy. rewrite Hfolder. apply orb_true_r. }
    cbn [openedWindows].
    pose proof (head_updated win
                  (fun o => isEqual (folderPath o) folder (negb isLinux))
                  (openedWindows (windowsState m))) as Hhead.
    destruct (map uiState _) as [|s rest].
    + exfalso. enough (@head ISingleWindowState [] = Some (serializeWindowState win))
        by discriminate.
      apply Hhead; [| |exact Hentry].
      * intros o. unfold updateUIState. destruct (_ || _); reflexivity.
      * intros o Ho. unfold sameFolder. rewrite Hfolder, Ho. apply orb_true_r.
    + f_equal. enough (head (s :: rest) = Some (serializeWindowState win)) as Hs
        by (injection Hs; auto).
      apply Hhead; [| |exact Hentry].
      * intros o. unfold updateUIState. destruct (_ || _); reflexivity.
      * intros o Ho. unfold sameFolder. rewrite Hfolder, Ho. apply orb_true_r.
Qed.

Lemma getStoredWindowState_first configuration m :
  plainConfiguration configuration ->
  WINDOWS m = [] ->
  getStoredWindowState configuration m
  = uiState <$> (match lastClosedWindowState m with
                 | Some s => Some s
                 | None => lastActiveWindow (windowsState m)
                 end).
Proof.
  intros (Htests & Hdev & Hws & Hfolder & Hbackup) Hnone.
  unfold getStoredWindowState.
  rewrite Htests, Hdev, Hws, Hfolder, Hbackup, Hnone, getLastActiveWindow_none.
  destruct (lastClosedWindowState m); [reflexivity|].
  destruct (lastActiveWindow (windowsState m)); reflexivity.
Qed.

(** X8. The geometry of the last window survives its close, and a
    quit and restart: when the only window closes (outside a quit), the
    first empty window opened afterwards is given the UI state that
    window serialised when it closed, both in the running application
    (the order of macOS) and in the application restarted after a
    quit. *)
Theorem first_window_geometry (L : ILifecycleService) win m
  (configuration : IWindowConfiguration) :
  isQuitRequested = false ->
  getWindowCount m = 1 ->
  plainConfiguration configuration ->
  let closed := onWindowClosed win (onBeforeWindowClose win m) in
  getStoredWindowState configuration closed = Some (serializeWindowState win)
  /\ getStoredWindowState configuration
       (newWindowsManager (storage (onBeforeQuit closed)))
     = Some (serializeWindowState win).
Proof.
  intros Hquit Hone Hplain closed.
  assert (Hlast : lastClosedWindowState closed = Some (toWindowState win)).
  { subst closed. rewrite onWindowClosed_lastClosed.
    apply onBeforeWindowClose_lastClosed; assumption. }
  assert (Hnone : WINDOWS closed = []).
  { subst closed. unfold onWindowClosed. simpl. apply splice1_indexOf_last.
    destruct (onBeforeWindowClose_WINDOWS win m) as [-> _].
    unfold getWindowCount in Hone. lia. }
  split.
  - rewrite (getStoredWindowState_first _ _ Hplain Hnone), Hlast. reflexivity.
  - rewrite (getStoredWindowState_first _ (newWindowsManager _) Hplain eq_refl).
    cbn [lastClosedWindowState newWindowsManager].
    rewrite windowsState_restart. simpl.
    rewrite (quitLastActiveWindow_lastClosed _ _ Hlast). reflexivity.
Qed.

End StoredGeometry.

(** ** The identities of the live windows *)

Lemma NoDup_removelast {A} (l : list A) : NoDup l -> NoDup (removelast l).
Proof.
  intros Hl. destruct l as [|x l] using rev_ind; [exact Hl|].
  rewrite removelast_last. apply NoDup_app in Hl as [Hl _]. exact Hl.
Qed.

Lemma fmap_removelast {A B} (f : A -> B) (l : list A) :
  f <$> removelast l = removelast (f <$> l).
Proof.
  destruct l as [|x l] using rev_ind; [reflexivity|].
  rewrite fmap_app. simpl. rewrite !removelast_last. reflexivity.
Qed.

Lemma fmap_delete {A B} (f : A -> B) (i : nat) (l : list A) :
  f <$> delete i l = delete i (f <$> l).
Proof.
  revert i. induction l as [|x l IH]; intros [|i]; simpl; try reflexivity.
  rewrite IH. reflexivity.
Qed.

Lemma NoDup_delete {A} (i : nat) (l : list A) : NoDup l -> NoDup (delete i l).
Proof.
  intros Hl. eapply sublist_NoDup; [exact Hl | apply sublist_delete].
Qed.

Lemma splice1_NoDup index (l : list CodeWindow) :
  NoDup (win_id <$> l) -> NoDup (win_id <$> splice1 index l).
Proof.
  intros Hl. destruct index as [i|]; simpl.
  - rewrite fmap_delete. apply NoDup_delete. exact Hl.
  - rewrite fmap_removelast. apply NoDup_removelast. exact Hl.
Qed.

Lemma indexOf_None win (l : list CodeWindow) :
  indexOf win l = None -> Forall (fun w => win_id w <> win_id win) l.
Proof.
  induction l as [|x l IH]; simpl; [intros _; apply Forall_nil_2|].
  destruct (win_id x =? win_id win) eqn:E; [discriminate|].
  destruct (indexOf win l); [discriminate|]. intros _.
  apply Forall_cons. split; [apply Nat.eqb_neq; exact E | apply IH; reflexivity].
Qed.

(** With distinct identities, [indexOf] and [splice] remove the
    windows with the identity of the closed one, and only them. *)
Lemma splice1_indexOf_filter win (l : list CodeWindow) :
  NoDup (win_id <$> l) ->
  (exists w, w ∈ l /\ win_id w = win_id win) ->
  splice1 (indexOf win l) l
  = List.filter (fun w => negb (win_id w =? win_id win)) l.
Proof.
  induction l as [|x l IH]; intros Hnodup (w & Hin & Hid).
  - apply elem_of_nil in Hin. contradiction.
  - rewrite fmap_cons in Hnodup. apply NoDup_cons in Hnodup as [Hx Hl].
    simpl. destruct (win_id x =? win_id win) eqn:E; simpl.
    + apply Nat.eqb_eq in E. symmetry. apply filter_all, Forall_forall.
      intros y Hy. apply negb_true_iff, Nat.eqb_neq. intros Heq.
      apply Hx. rewrite E, <- Heq. apply list_elem_of_fmap. eauto.
    + apply elem_of_cons in Hin as [-> | Hin].
      { apply Nat.eqb_neq in E. contradiction. }
      specialize (IH Hl (ex_intro _ w (conj Hin Hid))).
      destruct (indexOf win l) as [i|] eqn:Hi; simpl in *.
      * rewrite IH. reflexivity.
      * exfalso. apply indexOf_None in Hi. rewrite Forall_forall in Hi.
        apply (Hi w Hin). exact Hid.
Qed.

Lemma indexOf_unknown win (l : list CodeWindow) :
  Forall (fun w => win_id w <> win_id win) l -> indexOf win l = None.
Proof.
  induction 1 as [|x l Hx _ IH]; simpl; [reflexivity|].
  apply Nat.eqb_neq in Hx. rewrite Hx, IH. reflexivity.
Qed.

Lemma getWindowById_unique (m : WindowsManager) (w : CodeWindow) :
  NoDup (win_id <$> WINDOWS m) ->
  w ∈ WINDOWS m ->
  getWindowById (win_id w) m = Some w.
Proof.
  unfold getWindowById. generalize (WINDOWS m) as l.
  induction l as [|x l IH]; intros Hnodup Hin.
  - apply elem_of_nil in Hin. contradiction.
  - rewrite fmap_cons in Hnodup. apply NoDup_cons in Hnodup as [Hx Hl]. simpl.
    destruct (win_id x =? win_id w) eqn:E.
    + apply Nat.eqb_eq in E.
      assert (Hrest : List.filter (fun w0 => win_id w0 =? win_id w) l = []).
      { destruct (List.filter _ l) as [|y rest] eqn:Hf; [reflexivity|].
        exfalso. assert (Hy : In y (List.filter (fun w0 => win_id w0 =? win_id w) l))
          by (rewrite Hf; left; reflexivity).
        apply filter_In in Hy as [Hy Hid]. apply Nat.eqb_eq in Hid.
        apply Hx. rewrite E, <- Hid. apply list_elem_of_fmap.
        exists y. split; [reflexivity | apply list_elem_of_In; exact Hy]. }
      rewrite Hrest. apply elem_of_cons in Hin as [-> | Hin]; [reflexivity|].
      exfalso. apply Hx. rewrite E. apply list_elem_of_fmap. eauto.
    + apply elem_of_cons in Hin as [-> | Hin].
      { apply Nat.eqb_neq in E. contradiction. }
      apply IH; assumption.
Qed.

Lemma getWindowById_Some (m : WindowsManager) (i : nat) (w : CodeWindow) :
  getWindowById i m = Some w -> w ∈ WINDOWS m /\ win_id w = i.
Proof.
  unfold getWindowById. intros Hget.
  assert (Hin : In w (List.filter (fun w0 => win_id w0 =? i) (WINDOWS m))).
  { destruct (List.filter _ _) as [|y [|z rest]]; try discriminate.
    injection Hget as ->. left. reflexivity. }
  apply filter_In in Hin as [Hin Hid].
  split; [apply list_elem_of_In; exact Hin | apply Nat.eqb_eq; exact Hid].
Qed.

Section UniqueIds.
Context `{!Platform, !Host, !IBackupMainService,
          !IWorkspacesMainService, !IConfigurationService,
          !IEnvironmentService, !WindowsFinder, !IInstantiationService}.

Lemma openInBrowserWindow_uniqueIds o m :
  uniqueIds m -> uniqueIds (snd (openInBrowserWindow o m)).
Proof.
  intros [Hwf Hnodup]. split; [apply openInBrowserWindow_wf; exact Hwf|].
  unfold openInBrowserWindow.
  destruct (windowToReuse o m) as [w|]; simpl; [exact Hnodup|].
  rewrite fmap_app. apply NoDup_app. split; [exact Hnodup|].
  split; [|apply NoDup_singleton].
  intros i Hi Hi'. apply list_elem_of_singleton in Hi'. subst i.
  rewrite createInstance_id in Hi.
  apply list_elem_of_fmap in Hi as (w & Hw & Hin).
  unfold wfManager in Hwf. rewrite Forall_forall in Hwf.
  specialize (Hwf w Hin). lia.
Qed.

Lemma open_uniqueIds (L : ILifecycleService) openConfig m used m' :
  open openConfig m = Some (used, m') -> uniqueIds m -> uniqueIds m'.
Proof.
  unfold open. destruct (classifyFiles _ _) as [[fOpen fCreate] fDiff].
  unfold doOpenWith, doOpen. intros (s & Hsteps & [= <- <-])%bind_Some Hm.
  apply doOpenSteps_placed in Hsteps.
  apply (placed_mgr uniqueIds openInBrowserWindow_uniqueIds _ _ Hsteps). exact Hm.
Qed.

Lemma step_uniqueIds m m' : step m m' -> uniqueIds m -> uniqueIds m'.
Proof.
  intros Hstep Hm.
  destruct Hstep as [L cfg m used m' Hopen|o m|win m|win m|L win m|m].
  - eapply open_uniqueIds; eassumption.
  - apply openInBrowserWindow_uniqueIds. exact Hm.
  - apply openInBrowserWindow_uniqueIds. exact Hm.
  - destruct Hm as [Hwf Hnodup]. split.
    + unfold wfManager, onWindowClosed. simpl. apply splice1_Forall. exact Hwf.
    + unfold onWindowClosed. simpl. apply splice1_NoDup. exact Hnodup.
  - destruct Hm as [Hwf Hnodup]. unfold uniqueIds, wfManager.
    destruct (onBeforeWindowClose_WINDOWS win m) as [-> ->]. split; assumption.
  - exact Hm.
Qed.

Lemma reachable_uniqueIds m : reachable m -> uniqueIds m.
Proof.
  intros [st Hreach]. revert m Hreach. apply rtc_ind_r.
  - split; [apply Forall_nil_2 | apply NoDup_nil_2].
  - intros m1 m2 _ Hstep IH. eapply step_uniqueIds; eassumption.
Qed.

(** X9. In every state the manager reaches, the live windows have
    pairwise distinct identities, so [getWindowById] finds every live
    window by its identity, and what it returns is a live window with
    the identity asked for. *)
Theorem getWindowById_live (m : WindowsManager) :
  reachable m ->
  NoDup (win_id <$> WINDOWS m)
  /\ (forall w, w ∈ WINDOWS m -> getWindowById (win_id w) m = Some w)
  /\ (forall i w, getWindowById i m = Some w -> w ∈ WINDOWS m /\ win_id w = i).
Proof.
  intros Hreach. destruct (reachable_uniqueIds m Hreach) as [_ Hnodup].
  split; [exact Hnodup|]. split.
  - intros w Hw. apply getWindowById_unique; assumption.
  - intros i w. apply getWindowById_Some.
Qed.

(** X10. When a live window of a reachable manager is closed,
    [onWindowClosed] removes that window and no other: the other
    windows stay in order and are still found by their identity, the
    closed one is no longer found, the window count drops by one, and
    the close event carries the identity of the closed window. *)
Theorem onWindowClosed_removes (m : WindowsManager) (win : CodeWindow) :
  reachable m ->
  win ∈ WINDOWS m ->
  let m' := onWindowClosed win m in
  WINDOWS m' = List.filter (fun w => negb (win_id w =? win_id win)) (WINDOWS m)
  /\ getWindowCount m' + 1 = getWindowCount m
  /\ getWindowById (win_id win) m' = None
  /\ (forall w, w ∈ WINDOWS m -> win_id w <> win_id win ->
      getWindowById (win_id w) m' = Some w)
  /\ windowClose m' = windowClose m ++ [win_id win].
Proof.
  intros Hreach Hin m'.
  destruct (reachable_uniqueIds m Hreach) as [Hwf Hnodup].
  assert (Hwins : WINDOWS m'
                  = List.filter (fun w => negb (win_id w =? win_id win)) (WINDOWS m)).
  { subst m'. unfold onWindowClosed. simpl.
    apply splice1_indexOf_filter; [exact Hnodup | eauto]. }
  assert (Hnodup' : NoDup (win_id <$> WINDOWS m')).
  { subst m'. unfold onWindowClosed. simpl. apply splice1_NoDup. exact Hnodup. }
  split; [exact Hwins|]. split; [|split; [|split]].
  - unfold getWindowCount. subst m'. unfold onWindowClosed. simpl.
    assert (Hidx : exists i, indexOf win (WINDOWS m) = Some i /\ i < length (WINDOWS m)).
    { clear -Hin. induction (WINDOWS m) as [|x l IH];
        [apply elem_of_nil in Hin; contradiction|].
      simpl. destruct (win_id x =? win_id win) eqn:E.
      - exists 0. split; [reflexivity | lia].
      - apply elem_of_cons in Hin as [-> | Hin].
        + rewrite Nat.eqb_refl in E. discriminate.
        + destruct (IH Hin) as (i & -> & Hi). exists (S i). split; [reflexivity | lia]. }
    destruct Hidx as (i & -> & Hi). simpl.
    rewrite length_delete; [lia|]. apply lookup_lt_is_Some. exact Hi.
  - destruct (getWindowById (win_id win) m') as [w|] eqn:Hget; [|reflexivity].
    apply getWindowById_Some in Hget as [Hw Hid]. rewrite Hwins in Hw.
    apply list_elem_of_In, filter_In in Hw as [_ Hw].
    rewrite Hid, Nat.eqb_refl in Hw. discriminate.
  - intros w Hw Hother. apply getWindowById_unique; [exact Hnodup'|].
    rewrite Hwins. apply list_elem_of_In, filter_In. split.
    + apply list_elem_of_In. exact Hw.
    + apply negb_true_iff, Nat.eqb_neq. exact Hother.
  - reflexivity.
Qed.

End UniqueIds.

Section UnknownWindow.
Context `{!Platform, !Host, !WindowsFinder}.

(** X11. When [onWindowClosed] is given a window that is not in the
    list (no live window has its identity), [indexOf] yields [-1] and
    [splice(-1, 1)] removes the last live window instead; the events
    are fired all the same, the close event with the identity of the
    window given. *)
Theorem onWindowClosed_unknown_window (m : WindowsManager) (win : CodeWindow) :
  Forall (fun w => win_id w <> win_id win) (WINDOWS m) ->
  let m' := onWindowClosed win m in
  WINDOWS m' = removelast (WINDOWS m)
  /\ (forall l w, WINDOWS m = l ++ [w] -> WINDOWS m' = l)
  /\ windowClose m' = windowClose m ++ [win_id win]
  /\ length (countChanged m') = length (countChanged m) + 1.
Proof.
  intros Hunknown m'.
  assert (Hwins : WINDOWS m' = removelast (WINDOWS m)).
  { subst m'. unfold onWindowClosed. simpl.
    rewrite (indexOf_unknown _ _ Hunknown). reflexivity. }
  split; [exact Hwins|]. split; [|split].
  - intros l w Hl. rewrite Hwins, Hl. apply removelast_last.
  - reflexivity.
  - subst m'. unfold onWindowClosed. simpl. rewrite length_app. reflexivity.
Qed.

End UnknownWindow.

(** ** What [open] does to the manager *)

Lemma sameEntries_refl m : sameEntries m m.
Proof. repeat split. Qed.

Lemma sameEntries_trans m1 m2 m3 :
  sameEntries m1 m2 -> sameEntries m2 m3 -> sameEntries m1 m3.
Proof.
  intros (Ho & Ha & Hp & Hc) (Ho' & Ha' & Hp' & Hc').
  repeat split; etrans; eassumption.
Qed.

Lemma entryOf_withUiState write st : entryOf (withUiState write st) = entryOf st.
Proof. reflexivity. Qed.

Lemma writeStoredUiStates_sameEntries write m :
  sameEntries m (writeStoredUiStates write m).
Proof.
  unfold sameEntries, writeStoredUiStates. cbn.
  split; [|split; [|split]].
  - rewrite fmap_imap.
    rewrite (imap_ext _ (fun _ => entryOf)); [apply imap_const|].
    intros i st _. reflexivity.
  - destruct (lastActiveWindow (windowsState m)); reflexivity.
  - destruct (lastPluginDevelopmentHostWindow (windowsState m)); reflexivity.
  - destruct (lastClosedWindowState m); reflexivity.
Qed.

Lemma extendsManager_refl m : extendsManager m m.
Proof.
  unfold extendsManager. split; [apply sameEntries_refl|].
  repeat (split; [reflexivity|]).
  exists [], []. rewrite !app_nil_r. simpl. repeat split; lia.
Qed.

Section OpenExtends.
Context `{!Platform, !Host, !ILifecycleService, !IBackupMainService,
          !IWorkspacesMainService, !IConfigurationService,
          !IEnvironmentService, !WindowsFinder, !IInstantiationService}.

Lemma openInBrowserWindow_extends m0 o m :
  extendsManager m0 m -> extendsManager m0 (snd (openInBrowserWindow o m)).
Proof.
  intros (Hentries & Hstorage & Hclose & Hloads
          & added & events & Hwins & Hids & Hnext & Hevents & Hlen & Hnone).
  assert (Hloads' : pendingLoads m0
                    `prefix_of` pendingLoads (snd (openInBrowserWindow o m))).
  { rewrite openInBrowserWindow_pendingLoads.
    etrans; [exact Hloads | apply prefix_app_r; reflexivity]. }
  unfold extendsManager. unfold openInBrowserWindow in *.
  destruct (windowToReuse o m) as [w|]; cbn [snd] in *.
  - split; [exact Hentries|]. repeat (split; [assumption|]).
    exists added, events. repeat split; try assumption; apply Hnone; assumption.
  - split.
    { eapply sameEntries_trans; [exact Hentries|].
      apply (writeStoredUiStates_sameEntries
               (storedUiState (nextWindowId m) o (WINDOWS m) (windowsState m)
                  (lastClosedWindowState m)) m). }
    simpl in *. repeat (split; [assumption|]).
    eexists (added ++ [_]), (events ++ [_]).
    rewrite Hwins, Hevents, <- !app_assoc, !length_app, fmap_app. simpl.
    rewrite createInstance_id, Hnext, Hids, Hlen.
    split; [reflexivity|]. split; [rewrite Nat.add_1_r, seq_S; reflexivity|].
    split; [lia|]. split; [reflexivity|]. split; [lia|].
    intros Hnil. destruct added; discriminate.
Qed.

Lemma open_extendsManager openConfig m used m' :
  open openConfig m = Some (used, m') -> extendsManager m m'.
Proof.
  unfold open. destruct (classifyFiles _ _) as [[fOpen fCreate] fDiff].
  unfold doOpenWith, doOpen. intros (s & Hsteps & [= <- <-])%bind_Some.
  apply doOpenSteps_placed in Hsteps.
  apply (placed_mgr (extendsManager m) (openInBrowserWindow_extends m) _ _ Hsteps).
  apply extendsManager_refl.
Qed.

(** X12. [open] only adds windows: on return the windows that were
    live are still in the list, in order, followed by the windows the
    call created; each created window has a fresh identity (the next
    ones, in order) and was announced by one windows-count-changed
    event.  The storage and the close events are untouched, and the
    loads requested before are still pending.  The stored window
    states (the opened windows, the last active, the last extension
    development host and the last closed window) keep their workspace,
    folder and backup path, place by place; their UI states can be
    written to when a window is created (a stored full-screen mode is
    set to normal in the object [getNewWindowState] returned), and
    when the call created no window the windows state and the last
    closed window's state are untouched. *)
Theorem open_extends openConfig m used m' :
  open openConfig m = Some (used, m') ->
  sameEntries m m'
  /\ storage m' = storage m
  /\ windowClose m' = windowClose m
  /\ pendingLoads m `prefix_of` pendingLoads m'
  /\ exists added events,
       WINDOWS m' = WINDOWS m ++ added
       /\ win_id <$> added = seq (nextWindowId m) (length added)
       /\ nextWindowId m' = nextWindowId m + length added
       /\ countChanged m' = countChanged m ++ events
       /\ length events = length added
       /\ (added = [] ->
           windowsState m' = windowsState m
           /\ lastClosedWindowState m' = lastClosedWindowState m).
Proof. apply open_extendsManager. Qed.

End OpenExtends.

(** ** A forced new window *)

(** With [forceNewWindow] and without [forceReuseWindow], the settings
    are not consulted. *)
Lemma shouldOpenNewWindow_forced `{!IConfigurationService} (openConfig : IOpenConfiguration) :
  forceNewWindow openConfig = true ->
  forceReuseWindow openConfig = false ->
  shouldOpenNewWindow openConfig = (true, Some true).
Proof.
  intros Hnew Hreuse. unfold shouldOpenNewWindow. rewrite Hnew, Hreuse. simpl.
  rewrite orb_true_r. reflexivity.
Qed.

Section ForcedNewWindow.
Context `{!Platform, !Host, !ILifecycleService, !IBackupMainService,
          !IWorkspacesMainService, !IConfigurationService,
          !IEnvironmentService, !WindowsFinder, !IInstantiationService}.

Lemma placed_forcedInv s s' : placed s s' -> forcedInv s -> forcedInv s'.
Proof.
  intros Hstep [Hflag Hlog].
  destruct Hstep as [w s|f s|w s|o s Hf
                    |o ws w opened s Hfound Hopened Hpath Hforce Huse
                    |ws w s Hfound|o s Hf|f w s Hfound|o s Hf|o s Hf|o s Hf Hw];
    unfold forcedInv; simpl; rewrite ?pushOpened_flag, ?pushOpened_placements;
    (split; [first [exact Hflag | reflexivity]|]);
    try exact Hlog;
    (apply Forall_app; split; [exact Hlog|]);
    apply Forall_singleton; simpl;
    first [ discriminate
          | intros _; rewrite Hflag in Hf; split;
            [exact Hf | apply pushOpened_created; exact Hf]
          | intros _; split; [exact Hf | apply pushOpened_created; exact Hf] ].
Qed.

Lemma rtc_placed_forcedInv s s' : rtc placed s s' -> forcedInv s -> forcedInv s'.
Proof.
  intros Hrun. induction Hrun as [s|s s1 s' Hstep _ IH]; [auto|].
  intros Hs. apply IH. eapply placed_forcedInv; eassumption.
Qed.

(** X13. A request with [forceNewWindow] and without
    [forceReuseWindow] opens in new windows whatever the settings say:
    the open-in-new-window decisions are both "yes", and every
    placement of [doOpen] that opens a window for files, for a
    workspace or folder that no live window has open, or for an empty
    window (restored or not) passes [forceNewWindow] and creates its
    window; the flag is still set on return. *)
Theorem doOpen_forced_new_window openConfig wsOpen wsRestore foldersOpen foldersRestore
  emptyRestore emptyToOpen fOpen fCreate fDiff m s :
  forceNewWindow openConfig = true ->
  forceReuseWindow openConfig = false ->
  doOpenSteps openConfig wsOpen wsRestore foldersOpen foldersRestore emptyRestore
    emptyToOpen fOpen fCreate fDiff m = Some s ->
  shouldOpenNewWindow openConfig = (true, Some true)
  /\ openFolderInNewWindow s = true
  /\ Forall (fun p => opensWindow (p_kind p) = true ->
                      p_forceNewWindow p = true /\ p_created p = true)
       (placements s).
Proof.
  intros Hnew Hreuse Hsteps.
  pose proof (shouldOpenNewWindow_forced openConfig Hnew Hreuse) as Hforced.
  split; [exact Hforced|].
  apply doOpenSteps_placed in Hsteps.
  apply rtc_placed_forcedInv in Hsteps; [exact Hsteps|].
  split; [|apply Forall_nil_2].
  unfold initialOpenState. cbn [openFolderInNewWindow]. rewrite Hforced. reflexivity.
Qed.

End ForcedNewWindow.

(** ** New windows on demand *)

Section NewWindows.
Context `{!Platform, !Host, !ILifecycleService, !IBackupMainService,
          !IWorkspacesMainService, !IConfigurationService,
          !IEnvironmentService, !WindowsFinder, !IInstantiationService}.

(** A request that forces an empty window, gives no path and is not
    the initial startup opens one empty window. *)
Lemma open_forceEmpty openConfig m :
  pathsToOpen openConfig = None ->
  forceEmpty openConfig = true ->
  initialStartup openConfig = false ->
  open openConfig m
  = let r := openInBrowserWindow
               (emptyLoad openConfig (fst (shouldOpenNewWindow openConfig))) m in
    Some ([fst r], snd r).
Proof.
  intros Hpaths Hempty Hinitial.
  unfold open, getWindowsToOpen. rewrite Hpaths, Hempty.
  unfold classifyFiles. simpl. rewrite andb_false_r.
  unfold doOpenWith, getWindowsToOpen. rewrite Hpaths, Hempty.
  unfold workspacesToOpenOf, foldersToOpenOf, workspacesToRestoreOf,
    foldersToRestoreOf, emptyToRestoreOf, emptyToOpenOf, restores.
  rewrite Hinitial. simpl.
  unfold doOpen, doOpenSteps, placementSteps, openFilesStep, openWorkspacesStep,
    openFoldersStep. simpl.
  unfold openEmptyStep. simpl. unfold openEmptyWindow, pushOpened, optionsFor. simpl.
  unfold emptyLoad.
  destruct (openInBrowserWindow _ m) as [w m']. reflexivity.
Qed.

(** One call of [openNewWindow]. *)
Lemma openNewWindow_once (context : OpenContext) (m : WindowsManager) :
  exists w m',
    openNewWindow context m = Some m'
    /\ WINDOWS m' = WINDOWS m ++ [w]
    /\ win_id w = nextWindowId m
    /\ nextWindowId m' = S (nextWindowId m)
    /\ countChanged m'
       = countChanged m
         ++ [({| oldCount := getWindowCount m; newCount := getWindowCount m + 1 |},
              getWindowCount m')]
    /\ (exists o, pendingLoads m' = pendingLoads m ++ [(win_id w, o)] /\ isEmptyLoad o).
Proof.
  unfold openNewWindow.
  rewrite open_forceEmpty by reflexivity.
  rewrite (shouldOpenNewWindow_forced (newWindowConfiguration context))
    by reflexivity.
  cbn [fst]. unfold openInBrowserWindow, windowToReuse. cbn.
  eexists _, _. split; [reflexivity|]. cbn.
  split; [reflexivity|]. split; [apply createInstance_id|].
  split; [reflexivity|]. split.
  - unfold getWindowCount. cbn. rewrite length_app. cbn.
    do 3 f_equal. f_equal; lia.
  - eexists. split; [reflexivity|]. repeat split.
Qed.

(** X14. [openNewWindow] always creates exactly one window: the live
    windows are kept and followed by the new one, which has the next
    free identity, is announced by one windows-count-changed event
    with the counts before and after, and is asked to load an empty
    window.  Two calls in a row give two distinct windows. *)
Theorem openNewWindow_creates (context : OpenContext) (m : WindowsManager) :
  exists w m',
    openNewWindow context m = Some m'
    /\ WINDOWS m' = WINDOWS m ++ [w]
    /\ win_id w = nextWindowId m
    /\ nextWindowId m' = S (nextWindowId m)
    /\ countChanged m'
       = countChanged m
         ++ [({| oldCount := getWindowCount m; newCount := getWindowCount m + 1 |},
              getWindowCount m')]
    /\ (exists o, pendingLoads m' = pendingLoads m ++ [(win_id w, o)] /\ isEmptyLoad o)
    /\ forall context',
         exists w' m'',
           openNewWindow context' m' = Some m''
           /\ WINDOWS m'' = WINDOWS m ++ [w; w']
           /\ win_id w' <> win_id w.
Proof.
  destruct (openNewWindow_once context m)
    as (w & m' & Hopen & Hwins & Hid & Hnext & Hev & Hload).
  exists w, m'. repeat (split; [assumption|]).
  intros context'.
  destruct (openNewWindow_once context' m') as (w' & m'' & Hopen' & Hwins' & Hid' & _).
  exists w', m''. split; [exact Hopen'|]. split.
  - rewrite Hwins', Hwins, <- app_assoc. reflexivity.
  - rewrite Hid', Hid, Hnext. lia.
Qed.

Lemma indexOf_last win (l : list CodeWindow) :
  Forall (fun w => win_id w <> win_id win) l ->
  indexOf win (l ++ [win]) = Some (length l).
Proof.
  induction 1 as [|x l Hx _ IH]; simpl.
  - rewrite Nat.eqb_refl. reflexivity.
  - apply Nat.eqb_neq in Hx. rewrite Hx, IH. reflexivity.
Qed.

(** X15. Opening a window and closing it is a round trip on the list
    of live windows: in a manager whose windows have identities below
    the next one (every reachable manager), the window [openNewWindow]
    creates is the one [onWindowClosed] removes, the list is then what
    it was before, and the two windows-count-changed events are the
    count going up by one and down again. *)
Theorem open_then_close (context : OpenContext) (m : WindowsManager) :
  wfManager m ->
  exists w m',
    openNewWindow context m = Some m'
    /\ WINDOWS m' = WINDOWS m ++ [w]
    /\ WINDOWS (onWindowClosed w m') = WINDOWS m
    /\ windowClose (onWindowClosed w m') = windowClose m ++ [win_id w]
    /\ countChanged (onWindowClosed w m')
       = countChanged m
         ++ [({| oldCount := getWindowCount m; newCount := getWindowCount m + 1 |},
              getWindowCount m + 1);
             ({| oldCount := getWindowCount m + 1; newCount := getWindowCount m |},
              getWindowCount m)].
Proof.
  intros Hwf.
  destruct (openNewWindow_once context m)
    as (w & m' & Hopen & Hwins & Hid & Hnext & Hev & _).
  exists w, m'. split; [exact Hopen|]. split; [exact Hwins|].
  assert (Hclosed : splice1 (indexOf w (WINDOWS m')) (WINDOWS m') = WINDOWS m).
  { rewrite Hwins, indexOf_last.
    - simpl. rewrite (delete_middle (WINDOWS m) [] w). apply app_nil_r.
    - eapply Forall_impl; [exact Hwf|]. simpl. intros x Hx. lia. }
  assert (Hclose : windowClose m' = windowClose m).
  { unfold openNewWindow in Hopen.
    apply fmap_Some in Hopen as ([used m1] & Hopen & ->).
    destruct (open_extendsManager _ _ _ _ Hopen) as (_ & _ & Hsame & _).
    exact Hsame. }
  unfold onWindowClosed. cbn. rewrite Hclosed.
  split; [reflexivity|]. split; [rewrite Hclose; reflexivity|].
  rewrite Hev, <- app_assoc. unfold getWindowCount. rewrite Hwins, length_app. cbn.
  reflexivity.
Qed.

(** X16. [focusLastActive] always returns a live window: the last
    active window when there is one, and then the manager is left as
    it was; otherwise a window it creates for an empty load, which is
    then the only one added to the list. *)
Theorem focusLastActive_live (cli : ParsedArgs) (context : OpenContext) (m : WindowsManager) :
  exists w m',
    focusLastActive cli context m = Some (Some w, m')
    /\ w ∈ WINDOWS m'
    /\ (forall lastActive, getLastActiveWindow (WINDOWS m) = Some lastActive ->
        w = lastActive /\ m' = m)
    /\ (getLastActiveWindow (WINDOWS m) = None ->
        WINDOWS m' = WINDOWS m ++ [w] /\ win_id w = nextWindowId m).
Proof.
  unfold focusLastActive.
  destruct (getLastActiveWindow (WINDOWS m)) as [lastActive|] eqn:Hactive.
  - exists lastActive, m. split; [reflexivity|]. split.
    + eapply getLastActiveWindow_elem. exact Hactive.
    + split; [intros w [= <-]; auto | discriminate].
  - rewrite open_forceEmpty by reflexivity. cbn [mbind option_bind fst snd head].
    set (o := emptyLoad _ _).
    assert (Hnew : windowToReuse o m = None).
    { unfold windowToReuse. destruct (o_forceNewWindow o); [reflexivity|].
      exact Hactive. }
    unfold openInBrowserWindow. rewrite Hnew. cbn.
    eexists _, _. split; [reflexivity|]. split.
    + cbn. apply elem_of_app. right. apply list_elem_of_singleton. reflexivity.
    + split; [discriminate|]. intros _. cbn.
      split; [reflexivity | apply createInstance_id].
Qed.

End NewWindows.

(** ** The files of a request go to one window *)

Section Openings.
Context `{!Platform, !Host, !ILifecycleService, !IBackupMainService,
          !IWorkspacesMainService, !IConfigurationService,
          !IEnvironmentService, !WindowsFinder, !IInstantiationService}.

#[local] Hint Constructors opening : core.
#[local] Hint Resolve rtc_refl rtc_once : core.

Lemma forEachM_opening {A} openConfig (f : A -> OpenState -> option OpenState) :
  (forall x s s', f x s = Some s' -> rtc (opening openConfig) s s') ->
  forall l s s', forEachM f l s = Some s' -> rtc (opening openConfig) s s'.
Proof.
  intros Hf l. induction l as [|x l IH]; simpl; intros s s' Hrun.
  - injection Hrun as <-. apply rtc_refl.
  - destruct (f x s) as [s1|] eqn:Hx; [|discriminate].
    eapply rtc_trans; [eapply Hf; eassumption | eapply IH; eassumption].
Qed.

Lemma openFilesStep_opening openConfig flag foldersToRestore emptyToRestore s :
  rtc (opening openConfig) s
    (openFilesStep openConfig flag foldersToRestore emptyToRestore s).
Proof.
  unfold openFilesStep.
  destruct (foldersToOpen s), foldersToRestore, emptyToRestore; auto.
  destruct (filesToOpen s ++ filesToCreate s ++ filesToDiff s); auto.
  destruct (findBestWindowOrFolderForFile _ _ _ _ _) as [w|f|]; auto.
  destruct (openedWorkspace w); auto.
  destruct (nonEmpty (openedFolderPath w)); auto.
Qed.

Lemma reloadMovedWorkspace_opening openConfig ws s s' :
  reloadMovedWorkspace openConfig ws s = Some s' -> rtc (opening openConfig) s s'.
Proof.
  unfold reloadMovedWorkspace.
  destruct (findWindowOnWorkspace _ _) as [w|]; [|intros [= <-]; auto].
  destruct (openedWorkspace w); [|discriminate].
  destruct (negb _); intros [= <-]; auto.
Qed.

Lemma openRemainingWorkspace_opening openConfig wins ws s s' :
  openRemainingWorkspace openConfig wins ws s = Some s' ->
  rtc (opening openConfig) s s'.
Proof.
  unfold openRemainingWorkspace.
  destruct (someOnWorkspace wins ws) as [[|]|]; [| |discriminate];
    intros [= <-]; auto.
Qed.

Lemma openWorkspacesStep_opening openConfig workspacesToRestore s s' :
  openWorkspacesStep openConfig workspacesToRestore s = Some s' ->
  rtc (opening openConfig) s s'.
Proof.
  unfold openWorkspacesStep.
  destruct (distinct ws_id _) as [|ws all] eqn:Hall; [intros [= <-]; auto|].
  intros (s1 & Hfirst & Hthird)%bind_Some.
  eapply rtc_trans;
    [eapply forEachM_opening; [apply reloadMovedWorkspace_opening | exact Hfirst]|].
  eapply rtc_trans;
    [|eapply forEachM_opening; [apply openRemainingWorkspace_opening | exact Hthird]].
  destruct (coalesce _); auto.
Qed.

Lemma openRemainingFolder_opening openConfig wins f s s' :
  openRemainingFolder openConfig wins f s = Some s' -> rtc (opening openConfig) s s'.
Proof.
  unfold openRemainingFolder. destruct (existsb _ _); intros [= <-]; auto.
Qed.

Lemma openFoldersStep_opening openConfig foldersToRestore s s' :
  openFoldersStep openConfig foldersToRestore s = Some s' ->
  rtc (opening openConfig) s s'.
Proof.
  unfold openFoldersStep.
  destruct (distinct folderKey _) as [|f all] eqn:Hall; [intros [= <-]; auto|].
  intros Hfirst.
  eapply rtc_trans;
    [|eapply forEachM_opening; [apply openRemainingFolder_opening | exact Hfirst]].
  destruct (coalesce _); auto.
Qed.

Lemma restoreEmptyWindow_opening openConfig b s s' :
  restoreEmptyWindow openConfig b s = Some s' -> rtc (opening openConfig) s s'.
Proof. unfold restoreEmptyWindow. intros [= <-]. auto. Qed.

Lemma placementSteps_opening openConfig wsRestore foldersRestore emptyRestore flag s s' :
  placementSteps openConfig wsRestore foldersRestore emptyRestore flag s = Some s' ->
  rtc (opening openConfig) s s'.
Proof.
  unfold placementSteps.
  intros (s1 & Hfirst & (s2 & Hsecond & Hthird)%bind_Some)%bind_Some.
  eapply rtc_trans; [apply openFilesStep_opening|].
  eapply rtc_trans; [eapply openWorkspacesStep_opening; exact Hfirst|].
  eapply rtc_trans; [eapply openFoldersStep_opening; exact Hsecond|].
  eapply forEachM_opening; [apply restoreEmptyWindow_opening | exact Hthird].
Qed.

Lemma filesOnce_snoc_noFiles fOpen fCreate fDiff loads l :
  filesOnce fOpen fCreate fDiff loads ->
  noFiles l.2 ->
  filesOnce fOpen fCreate fDiff (loads ++ [l]).
Proof.
  destruct loads as [|l0 loads]; simpl.
  - intros _ Hl. split; [left; exact Hl | apply Forall_nil_2].
  - intros [Hfirst Hrest] Hl. split; [exact Hfirst|].
    apply Forall_app. split; [exact Hrest | apply Forall_singleton; exact Hl].
Qed.

Lemma filesInv_push fOpen fCreate fDiff (s : OpenState)
  (loads : list (nat * IOpenBrowserWindowOptions)) (l : nat * IOpenBrowserWindowOptions) :
  (placements s = [] ->
   filesToOpen s = fOpen /\ filesToCreate s = fCreate /\ filesToDiff s = fDiff) ->
  (placements s <> [] ->
   filesToOpen s = [] /\ filesToCreate s = [] /\ filesToDiff s = []) ->
  (loads <> [] -> placements s <> []) ->
  filesOnce fOpen fCreate fDiff loads ->
  o_filesToOpen l.2 = filesToOpen s ->
  o_filesToCreate l.2 = filesToCreate s ->
  o_filesToDiff l.2 = filesToDiff s ->
  filesOnce fOpen fCreate fDiff (loads ++ [l]).
Proof.
  intros Hfirst Hlater Hloads Honce Hopen Hcreate Hdiff.
  destruct (placements s) as [|p log] eqn:Hlog.
  - destruct loads as [|l0 loads]; [|exfalso; apply Hloads; [discriminate | reflexivity]].
    simpl. split; [|apply Forall_nil_2]. right.
    destruct (Hfirst eq_refl) as (<- & <- & <-). auto.
  - apply filesOnce_snoc_noFiles; [exact Honce|].
    destruct Hlater as (Ho & Hc & Hd); [discriminate|].
    unfold noFiles. rewrite Hopen, Hcreate, Hdiff. auto.
Qed.

Lemma opening_filesInv openConfig m0 fOpen fCreate fDiff s s' :
  opening openConfig s s' ->
  filesInv m0 fOpen fCreate fDiff s -> filesInv m0 fOpen fCreate fDiff s'.
Proof.
  intros Hstep (Hfirst & Hlater & loads & Hloads & Hplaced & Honce).
  assert (Hsnoc : forall (log : list Placement) p, log ++ [p] <> []).
  { intros log p Hnil. apply app_eq_nil in Hnil as [_ Hnil]. discriminate. }
  destruct Hstep as [w s|f s|w s|s|ws w s|w s|ws s|w s|f s|b s];
    unfold filesInv; simpl;
    rewrite ?pushOpened_placements, ?pushOpened_mgr, ?openInBrowserWindow_pendingLoads;
    try (split; [exact Hfirst|]; split; [exact Hlater|]; exists loads; auto; fail);
    (split; [intros Hnil; exfalso; eapply Hsnoc; exact Hnil|]);
    (split; [auto|]);
    first [ exists loads; split; [exact Hloads|]; split; [intros _; apply Hsnoc | exact Honce]
          | eexists (loads ++ [_]); rewrite Hloads, <- app_assoc;
            split; [reflexivity|]; split; [intros _; apply Hsnoc|];
            eapply filesInv_push; eauto ].
Qed.

Lemma rtc_opening_filesInv openConfig m0 fOpen fCreate fDiff s s' :
  rtc (opening openConfig) s s' ->
  filesInv m0 fOpen fCreate fDiff s -> filesInv m0 fOpen fCreate fDiff s'.
Proof.
  intros Hrun. induction Hrun as [s|s s1 s' Hstep _ IH]; [auto|].
  intros Hs. apply IH. eapply opening_filesInv; eassumption.
Qed.

Lemma iter_openEmptyWindow_filesOnce openConfig fOpen fCreate fDiff m0 n s :
  (exists loads, pendingLoads (mgr s) = pendingLoads m0 ++ loads
                 /\ filesOnce fOpen fCreate fDiff loads) ->
  exists loads,
    pendingLoads (mgr (Nat.iter n (openEmptyWindow openConfig) s))
    = pendingLoads m0 ++ loads
    /\ filesOnce fOpen fCreate fDiff loads.
Proof.
  intros Hs. induction n as [|n (loads & Hloads & Honce)]; [exact Hs|].
  rewrite Nat.iter_succ. unfold openEmptyWindow at 1. simpl.
  rewrite pushOpened_mgr, openInBrowserWindow_pendingLoads, Hloads, <- app_assoc.
  eexists. split; [reflexivity|].
  apply filesOnce_snoc_noFiles; [exact Honce|]. repeat split.
Qed.

(** X17. The files of a request are handed to one window at most:
    among the loads one [doOpen] requests, only the first one can
    carry files to open, to create or to diff, and it carries either
    none or exactly the three lists [doOpen] was given; every later
    load carries no file. *)
Theorem doOpen_files_once openConfig wsOpen wsRestore foldersOpen foldersRestore
  emptyRestore emptyToOpen fOpen fCreate fDiff m s :
  doOpenSteps openConfig wsOpen wsRestore foldersOpen foldersRestore emptyRestore
    emptyToOpen fOpen fCreate fDiff m = Some s ->
  exists loads,
    pendingLoads (mgr s) = pendingLoads m ++ loads
    /\ Forall (fun l => noFiles l.2
                        \/ (o_filesToOpen l.2 = fOpen
                            /\ o_filesToCreate l.2 = fCreate
                            /\ o_filesToDiff l.2 = fDiff))
         (take 1 loads)
    /\ Forall (fun l => noFiles l.2) (drop 1 loads).
Proof.
  unfold doOpenSteps. intros (s1 & Hplace & [= <-])%bind_Some.
  apply placementSteps_opening in Hplace.
  apply (rtc_opening_filesInv _ m fOpen fCreate fDiff) in Hplace.
  - destruct Hplace as (_ & _ & loads & Hloads & _ & Honce).
    assert (Hfinal : exists loads',
              pendingLoads (mgr (openEmptyStep openConfig emptyToOpen s1))
              = pendingLoads m ++ loads'
              /\ filesOnce fOpen fCreate fDiff loads').
    { unfold openEmptyStep. destruct (usedWindows s1); [|eauto].
      apply iter_openEmptyWindow_filesOnce. eauto. }
    destruct Hfinal as (loads' & Hloads' & Honce').
    exists loads'. split; [exact Hloads'|].
    destruct loads' as [|l rest]; simpl.
    + split; apply Forall_nil_2.
    + destruct Honce' as [Hl Hrest]. rewrite drop_0.
      split; [apply Forall_singleton; exact Hl | exact Hrest].
  - split; [intros _; simpl; auto|]. split; [intros Hne; contradiction|].
    exists []. simpl. rewrite app_nil_r. repeat split. intros Hne. contradiction.
Qed.

(** With [forceReuseWindow] no new window is asked for. *)
Lemma shouldOpenNewWindow_reuse (openConfig : IOpenConfiguration) :
  forceReuseWindow openConfig = true ->
  shouldOpenNewWindow openConfig = (false, Some false).
Proof.
  intros Hreuse. unfold shouldOpenNewWindow. rewrite Hreuse.
  destruct (forceNewWindow openConfig), (preferNewWindow openConfig); reflexivity.
Qed.

Lemma reuseInv_snoc m0 (s s' : OpenState) (p : Placement) :
  reuseInv m0 s ->
  placements s' = placements s ++ [p] ->
  (openFolderInNewWindow s = false -> mgr s = m0 -> reusesLastActive m0 p) ->
  reuseInv m0 s'.
Proof.
  unfold reuseInv. intros Hs -> Hp.
  destruct (placements s) as [|q log]; simpl; [|exact Hs].
  destruct Hs as [Hflag Hmgr]. auto.
Qed.

Lemma pushOpened_reusesLastActive m0 k (o : IOpenBrowserWindowOptions) (s : OpenState) :
  o_forceNewWindow o = openFolderInNewWindow s ->
  o_windowToUse o = None ->
  openFolderInNewWindow s = false -> mgr s = m0 ->
  reusesLastActive m0
    {| p_kind := k; p_window := fst (openInBrowserWindow o (mgr s));
       p_forceNewWindow := o_forceNewWindow o;
       p_created := negb (isSome (windowToReuse o (mgr s)));
       p_flag := openFolderInNewWindow s |}.
Proof.
  intros Hforce Huse Hflag Hmgr _. simpl.
  unfold windowToReuse. rewrite Hforce, Hflag, Huse, Hmgr. auto.
Qed.

Lemma opening_reuseInv openConfig m0 s s' :
  opening openConfig s s' -> reuseInv m0 s -> reuseInv m0 s'.
Proof.
  intros Hstep Hs.
  destruct Hstep as [w s|f s|w s|s|ws w s|w s|ws s|w s|f s|b s];
    try exact Hs;
    (eapply reuseInv_snoc;
     [ exact Hs
     | simpl; rewrite ?pushOpened_placements; reflexivity
     | first [ apply pushOpened_reusesLastActive; reflexivity
             | intros _ _ [Hkind | Hkind]; discriminate ] ]).
Qed.

Lemma rtc_opening_reuseInv openConfig m0 s s' :
  rtc (opening openConfig) s s' -> reuseInv m0 s -> reuseInv m0 s'.
Proof.
  intros Hrun. induction Hrun as [s|s s1 s' Hstep _ IH]; [auto|].
  intros Hs. apply IH. eapply opening_reuseInv; eassumption.
Qed.

Lemma iter_openEmptyWindow_reuseInv openConfig m0 n s :
  reuseInv m0 s -> reuseInv m0 (Nat.iter n (openEmptyWindow openConfig) s).
Proof.
  intros Hs. induction n as [|n IH]; [exact Hs|].
  rewrite Nat.iter_succ. eapply reuseInv_snoc; [exact IH | |].
  - unfold openEmptyWindow. simpl. rewrite pushOpened_placements. reflexivity.
  - apply pushOpened_reusesLastActive; reflexivity.
Qed.

(** X18. A request with [forceReuseWindow] asks for no new window,
    whatever the settings and the other flags say: both
    open-in-new-window decisions are "no", and the first window
    [doOpen] uses, when it is opened for a workspace or folder that no
    live window has open or for an empty window, is not forced to be
    new: it is the last active window whenever there is one, and a
    window is created only when there is none. *)
Theorem doOpen_force_reuse openConfig wsOpen wsRestore foldersOpen foldersRestore
  emptyRestore emptyToOpen fOpen fCreate fDiff m s p rest :
  forceReuseWindow openConfig = true ->
  doOpenSteps openConfig wsOpen wsRestore foldersOpen foldersRestore emptyRestore
    emptyToOpen fOpen fCreate fDiff m = Some s ->
  placements s = p :: rest ->
  shouldOpenNewWindow openConfig = (false, Some false)
  /\ (opensRemaining (p_kind p) = true \/ p_kind p = EmptyOpen ->
      p_forceNewWindow p = false
      /\ (p_created p = true <-> getLastActiveWindow (WINDOWS m) = None)).
Proof.
  intros Hreuse Hsteps Hlog.
  pose proof (shouldOpenNewWindow_reuse openConfig Hreuse) as Hno.
  split; [exact Hno|].
  unfold doOpenSteps in Hsteps.
  apply bind_Some in Hsteps as (s1 & Hplace & [= <-]).
  apply placementSteps_opening in Hplace.
  apply (rtc_opening_reuseInv _ m) in Hplace.
  - assert (Hfinal : reuseInv m (openEmptyStep openConfig emptyToOpen s1)).
    { unfold openEmptyStep. destruct (usedWindows s1); [|exact Hplace].
      apply iter_openEmptyWindow_reuseInv. exact Hplace. }
    unfold reuseInv in Hfinal. rewrite Hlog in Hfinal.
    intros Hkind. destruct (Hfinal Hkind) as [Hforce Hcreated].
    split; [exact Hforce|]. rewrite Hcreated.
    destruct (getLastActiveWindow (WINDOWS m)); simpl; split;
      intros; first [reflexivity | discriminate].
  - unfold reuseInv, initialOpenState. cbn [placements openFolderInNewWindow mgr].
    rewrite Hno. split; reflexivity.
Qed.

End Openings.

(** ** Resolving paths *)

Lemma length_coalesce_map {A B} (f : A -> option B) (l : list A) :
  length (coalesce (map f l)) = length (List.filter (fun x => isSome (f x)) l).
Proof.
  unfold coalesce. induction l as [|x l IH]; [reflexivity|].
  cbn. destruct (f x); cbn; cbn in IH; rewrite IH; reflexivity.
Qed.

Lemma coalesce_map_Forall {A B} (P : B -> Prop) (f : A -> option B) (l : list A) :
  (forall x y, f x = Some y -> P y) -> Forall P (coalesce (map f l)).
Proof.
  intros Hf. unfold coalesce. induction l as [|x l IH]; [apply Forall_nil_2|].
  cbn. cbn in IH. destruct (f x) as [y|] eqn:Hx; cbn; [|exact IH].
  apply Forall_cons. split; [eapply Hf; exact Hx | exact IH].
Qed.

Section PathProperties.
Context `{!Platform, !Host, !ILifecycleService, !IBackupMainService,
          !IWorkspacesMainService, !IConfigurationService}.

(** What [parsePath] returns, by what is on the disk. *)
Lemma parsePath_cases (p : string) (ignoreFileNotFound gotoLineMode : bool) :
  match parsePath p ignoreFileNotFound gotoLineMode with
  | None =>
      isGiven p = false
      \/ (statSync (candidateOf gotoLineMode p) = None /\ ignoreFileNotFound = false)
  | Some t =>
      isGiven p = true
      /\ to_backupPath t = None
      /\ match statSync (candidateOf gotoLineMode p) with
         | Some IsFile =>
             createFilePath t = false /\ to_folderPath t = None
             /\ match resolveWorkspaceSync (candidateOf gotoLineMode p) with
                | Some stored =>
                    to_workspace t
                    = Some {| ws_id := sw_id stored;
                              ws_configPath := candidateOf gotoLineMode p |}
                    /\ filePath t = None
                | None =>
                    to_workspace t = None
                    /\ filePath t = Some (candidateOf gotoLineMode p)
                end
         | Some (IsDirectory | IsOther) =>
             createFilePath t = false /\ to_workspace t = None
             /\ to_folderPath t = Some (candidateOf gotoLineMode p)
             /\ filePath t = None
         | None =>
             ignoreFileNotFound = true
             /\ createFilePath t = true /\ to_workspace t = None
             /\ to_folderPath t = None
             /\ filePath t = Some (candidateOf gotoLineMode p)
         end
  end.
Proof.
  unfold parsePath, candidateOf, isGiven.
  destruct (String.eqb p EmptyString); [left; reflexivity|].
  destruct gotoLineMode; simpl.
  - destruct (parseLineAndColumnAware p) as [[anyPath line] column]. simpl.
    destruct (statSync (normalize anyPath)) as [[| |]|].
    + destruct (resolveWorkspaceSync (normalize anyPath)); simpl; auto 10.
    + simpl. auto 10.
    + simpl. auto 10.
    + destruct ignoreFileNotFound; simpl; auto 10.
  - destruct (statSync (normalize p)) as [[| |]|].
    + destruct (resolveWorkspaceSync (normalize p)); simpl; auto 10.
    + simpl. auto 10.
    + simpl. auto 10.
    + destruct ignoreFileNotFound; simpl; auto 10.
Qed.

(** X19. A path resolves to a target of exactly one kind: a
    workspace, a folder or a file, never a backup.  It resolves to
    nothing exactly when it is empty, or is not on the disk while
    missing files are not ignored; the target is a file to create
    exactly when the path is not on the disk. *)
Theorem parsePath_target (p : string) (ignoreFileNotFound gotoLineMode : bool) :
  (parsePath p ignoreFileNotFound gotoLineMode = None
   <-> isGiven p = false
       \/ (statSync (candidateOf gotoLineMode p) = None /\ ignoreFileNotFound = false))
  /\ forall t, parsePath p ignoreFileNotFound gotoLineMode = Some t ->
       oneKind t
       /\ to_backupPath t = None
       /\ (createFilePath t = true <-> statSync (candidateOf gotoLineMode p) = None).
Proof.
  pose proof (parsePath_cases p ignoreFileNotFound gotoLineMode) as Hcases.
  destruct (parsePath p ignoreFileNotFound gotoLineMode) as [t|] eqn:Hparse.
  - destruct Hcases as (Hgiven & Hbackup & Hstat). split.
    + split; [discriminate|]. intros [Hno | [Hgone Hignore]]; [congruence|].
      rewrite Hgone in Hstat. destruct Hstat as [Htrue _]. congruence.
    + intros t' [= <-]. split; [|split; [exact Hbackup|]].
      * unfold oneKind.
        destruct (statSync (candidateOf gotoLineMode p)) as [[| |]|].
        -- destruct Hstat as (_ & Hfolder & Hres).
           destruct (resolveWorkspaceSync _); destruct Hres as [Hws Hfile];
             rewrite Hws, Hfile, Hfolder; eauto 10.
        -- destruct Hstat as (_ & Hws & Hfolder & Hfile).
           rewrite Hws, Hfile, Hfolder; eauto 10.
        -- destruct Hstat as (_ & Hws & Hfolder & Hfile).
           rewrite Hws, Hfile, Hfolder; eauto 10.
        -- destruct Hstat as (_ & _ & Hws & Hfolder & Hfile).
           rewrite Hws, Hfile, Hfolder; eauto 10.
      * destruct (statSync (candidateOf gotoLineMode p)) as [[| |]|].
        -- destruct Hstat as (Hcreate & _). rewrite Hcreate.
           split; discriminate.
        -- destruct Hstat as (Hcreate & _). rewrite Hcreate.
           split; discriminate.
        -- destruct Hstat as (Hcreate & _). rewrite Hcreate.
           split; discriminate.
        -- destruct Hstat as (_ & Hcreate & _). rewrite Hcreate.
           split; reflexivity.
  - split; [|discriminate]. split; [intros _; exact Hcases | reflexivity].
Qed.

Lemma parsePath_isSome_ignore p gotoLineMode :
  isSome (parsePath p true gotoLineMode) = isGiven p.
Proof.
  pose proof (parsePath_cases p true gotoLineMode) as Hcases.
  destruct (parsePath p true gotoLineMode) as [t|]; simpl.
  - destruct Hcases as [-> _]. reflexivity.
  - destruct Hcases as [-> | [_ Hfalse]]; [reflexivity | discriminate].
Qed.

Lemma parsePath_isSome p gotoLineMode :
  isSome (parsePath p false gotoLineMode) = isOnDisk gotoLineMode p.
Proof.
  pose proof (parsePath_cases p false gotoLineMode) as Hcases. unfold isOnDisk.
  destruct (parsePath p false gotoLineMode) as [t|]; simpl.
  - destruct Hcases as (-> & _ & Hstat).
    destruct (statSync (candidateOf gotoLineMode p)) as [[| |]|]; [reflexivity..|].
    destruct Hstat as [Hfalse _]. discriminate.
  - destruct Hcases as [-> | [-> _]]; [reflexivity|].
    rewrite andb_false_r. reflexivity.
Qed.

Lemma parsePath_existing p gotoLineMode t :
  parsePath p false gotoLineMode = Some t -> createFilePath t = false.
Proof.
  intros Hparse. pose proof (parsePath_cases p false gotoLineMode) as Hcases.
  rewrite Hparse in Hcases. destruct Hcases as (_ & _ & Hstat).
  destruct (statSync (candidateOf gotoLineMode p)) as [[| |]|].
  - apply Hstat.
  - apply Hstat.
  - apply Hstat.
  - destruct Hstat as [Hfalse _]. discriminate.
Qed.

(** A given path that is not on the disk, when missing files are
    ignored, is a file to create. *)
Lemma parsePath_missing p gotoLineMode :
  isGiven p = true ->
  statSync (candidateOf gotoLineMode p) = None ->
  parsePath p true gotoLineMode = Some (fileToCreate (candidateOf gotoLineMode p)).
Proof.
  unfold parsePath, candidateOf, isGiven.
  destruct (String.eqb p EmptyString); [discriminate|]. intros _.
  destruct gotoLineMode; simpl.
  - destruct (parseLineAndColumnAware p) as [[anyPath line] column]. simpl.
    intros ->. reflexivity.
  - intros ->. reflexivity.
Qed.

(** A path that is on the disk resolves to the same target whether
    missing files are ignored or not. *)
Lemma parsePath_on_disk p gotoLineMode :
  statSync (candidateOf gotoLineMode p) <> None ->
  parsePath p true gotoLineMode = parsePath p false gotoLineMode.
Proof.
  unfold parsePath, candidateOf.
  destruct (String.eqb p EmptyString); [reflexivity|].
  destruct gotoLineMode; simpl.
  - destruct (parseLineAndColumnAware p) as [[anyPath line] column]. simpl.
    destruct (statSync (normalize anyPath)) as [[| |]|]; congruence.
  - destruct (statSync (normalize p)) as [[| |]|]; congruence.
Qed.

(** X20. A path that is not on the disk is dropped when it comes
    through the API and becomes a file to create when it comes from
    the command line.  [doExtractPathsFromAPI] returns one target for
    every given path that is on the disk, none of them to create, and
    every target it returns is what [parsePath] makes of such a path.
    [doExtractPathsFromCLI] returns one target for every argument that
    is not empty, and the empty window when there is none, so it never
    returns an empty list; for an argument that is not on the disk the
    target is the file to create at the path looked up, for one that
    is on the disk it is the target the API gives; and it returns
    nothing else. *)
Theorem doExtractPaths_missing (paths : list string) (gotoLineMode : bool) (cli : ParsedArgs) :
  length (doExtractPathsFromAPI paths gotoLineMode)
  = length (List.filter (isOnDisk gotoLineMode) paths)
  /\ Forall (fun t => createFilePath t = false) (doExtractPathsFromAPI paths gotoLineMode)
  /\ (forall t, t ∈ doExtractPathsFromAPI paths gotoLineMode <->
         exists p, p ∈ paths /\ isOnDisk gotoLineMode p = true
                   /\ parsePath p false gotoLineMode = Some t)
  /\ doExtractPathsFromCLI cli <> []
  /\ (List.filter isGiven (args_ cli) = [] -> doExtractPathsFromCLI cli = [emptyWindow])
  /\ (List.filter isGiven (args_ cli) <> [] ->
      length (doExtractPathsFromCLI cli) = length (List.filter isGiven (args_ cli)))
  /\ (forall p, p ∈ args_ cli -> isGiven p = true ->
       statSync (candidateOf (goto cli) p) = None ->
       fileToCreate (candidateOf (goto cli) p) ∈ doExtractPathsFromCLI cli)
  /\ (forall p, p ∈ args_ cli -> isOnDisk (goto cli) p = true ->
       exists t, parsePath p false (goto cli) = Some t
                 /\ createFilePath t = false
                 /\ t ∈ doExtractPathsFromCLI cli)
  /\ (forall t, t ∈ doExtractPathsFromCLI cli ->
       (t = emptyWindow /\ List.filter isGiven (args_ cli) = [])
       \/ exists p, p ∈ args_ cli /\ isGiven p = true
                    /\ parsePath p true (goto cli) = Some t).
Proof.
  assert (Hcli : length (coalesce (map (fun c => parsePath c true (goto cli)) (args_ cli)))
                 = length (List.filter isGiven (args_ cli))).
  { rewrite length_coalesce_map. f_equal. apply filter_ext.
    intros p. apply parsePath_isSome_ignore. }
  assert (Hin : forall p t, p ∈ args_ cli -> parsePath p true (goto cli) = Some t ->
                  t ∈ doExtractPathsFromCLI cli).
  { intros p t Hp Hparse. unfold doExtractPathsFromCLI.
    assert (Ht : t ∈ coalesce (map (fun c => parsePath c true (goto cli)) (args_ cli)))
      by (apply elem_of_coalesce_map; eauto).
    destruct (coalesce _); [inversion Ht | exact Ht]. }
  split; [|split; [|split; [|split; [|split; [|split; [|split; [|split]]]]]]].
  - unfold doExtractPathsFromAPI. rewrite length_coalesce_map. f_equal.
    apply filter_ext. intros p. apply parsePath_isSome.
  - unfold doExtractPathsFromAPI. apply coalesce_map_Forall.
    intros p t. apply parsePath_existing.
  - intros t. unfold doExtractPathsFromAPI. rewrite elem_of_coalesce_map.
    split; intros (p & Hp & Hparse).
    + exists p. split; [exact Hp|]. split; [|exact Hparse].
      rewrite <- (parsePath_isSome p gotoLineMode), Hparse. reflexivity.
    + exists p. split; [exact Hp | apply Hparse].
  - unfold doExtractPathsFromCLI. destruct (coalesce _); discriminate.
  - intros Hnone. unfold doExtractPathsFromCLI. rewrite Hnone in Hcli.
    destruct (coalesce _); [reflexivity | discriminate].
  - intros Hsome. unfold doExtractPathsFromCLI.
    destruct (coalesce _) as [|t ts] eqn:Hc; [|exact Hcli].
    exfalso. apply Hsome. apply nil_length_inv. rewrite <- Hcli. reflexivity.
  - intros p Hp Hgiven Hgone. apply (Hin p); [exact Hp|].
    apply parsePath_missing; assumption.
  - intros p Hp Hdisk.
    destruct (parsePath p false (goto cli)) as [t|] eqn:Hparse.
    + exists t. split; [reflexivity|]. split; [eapply parsePath_existing; exact Hparse|].
      apply (Hin p); [exact Hp|]. rewrite parsePath_on_disk; [exact Hparse|].
      unfold isOnDisk in Hdisk. apply andb_prop in Hdisk as [_ Hstat].
      destruct (statSync (candidateOf (goto cli) p)); [discriminate | discriminate].
    + rewrite <- (parsePath_isSome p (goto cli)), Hparse in Hdisk. discriminate.
  - intros t Ht. unfold doExtractPathsFromCLI in Ht.
    destruct (coalesce (map (fun c => parsePath c true (goto cli)) (args_ cli)))
      as [|t0 ts] eqn:Hc.
    + left. apply list_elem_of_singleton in Ht. split; [exact Ht|].
      apply nil_length_inv. rewrite <- Hcli. reflexivity.
    + right. rewrite <- Hc in Ht. apply elem_of_coalesce_map in Ht as (p & Hp & Hparse).
      exists p. split; [exact Hp|]. split; [|exact Hparse].
      rewrite <- (parsePath_isSome_ignore p (goto cli)), Hparse. reflexivity.
Qed.

(** A workspace or folder that [parsePath] validates is nothing
    else. *)
Lemma parsePath_restorable p t :
  parsePath p false false = Some t ->
  isSome (to_workspace t) = true \/ truthy (to_folderPath t) = true ->
  restorableTarget t.
Proof.
  intros Hparse Hkind. pose proof (parsePath_cases p false false) as Hcases.
  rewrite Hparse in Hcases. destruct Hcases as (_ & Hbackup & Hstat).
  unfold restorableTarget.
  destruct (statSync (candidateOf false p)) as [[| |]|].
  - destruct Hstat as (Hcreate & Hfolder & Hres).
    destruct (resolveWorkspaceSync _); destruct Hres as [Hws Hfile].
    + auto.
    + exfalso. rewrite Hws, Hfolder in Hkind. destruct Hkind; discriminate.
  - destruct Hstat as (Hcreate & _ & _ & Hfile). auto.
  - destruct Hstat as (Hcreate & _ & _ & Hfile). auto.
  - destruct Hstat as [Hfalse _]. discriminate.
Qed.

Lemma restoreAll_restorable mode st :
  Forall restorableTarget (restoreAll mode st)
  /\ (mode <> RestoreAll -> Forall (fun t => to_backupPath t = None) (restoreAll mode st)).
Proof.
  unfold restoreAll.
  set (parseWorkspace := fun c => parsePath (ws_configPath c) false false).
  set (parseFolder := fun c => parsePath c false false).
  assert (Hws : forall l,
            Forall (fun t => restorableTarget t /\ to_backupPath t = None)
              (List.filter (fun w => isSome (to_workspace w)) (omap parseWorkspace l))).
  { intros l. apply Forall_forall. intros t Ht.
    apply list_elem_of_In, filter_In in Ht as [Ht Hkind].
    apply list_elem_of_In, list_elem_of_omap in Ht as (c & _ & Hparse).
    split; [eapply parsePath_restorable; eauto|].
    pose proof (parsePath_cases (ws_configPath c) false false) as Hcases.
    unfold parseWorkspace in Hparse. rewrite Hparse in Hcases. apply Hcases. }
  assert (Hfolders : forall l,
            Forall (fun t => restorableTarget t /\ to_backupPath t = None)
              (List.filter (fun w => truthy (to_folderPath w)) (omap parseFolder l))).
  { intros l. apply Forall_forall. intros t Ht.
    apply list_elem_of_In, filter_In in Ht as [Ht Hkind].
    apply list_elem_of_In, list_elem_of_omap in Ht as (c & _ & Hparse).
    split; [eapply parsePath_restorable; eauto|].
    pose proof (parsePath_cases c false false) as Hcases.
    unfold parseFolder in Hparse. rewrite Hparse in Hcases. apply Hcases. }
  split.
  - apply Forall_app. split; [eapply Forall_impl; [apply Hws|]; intros t Ht; apply Ht|].
    apply Forall_app. split;
      [eapply Forall_impl; [apply Hfolders|]; intros t Ht; apply Ht|].
    destruct mode; try apply Forall_nil_2.
    apply Forall_forall. intros t Ht.
    apply list_elem_of_In, in_map_iff in Ht as (b & <- & _). split; reflexivity.
  - intros Hmode.
    apply Forall_app. split; [eapply Forall_impl; [apply Hws|]; intros t Ht; apply Ht|].
    apply Forall_app. split;
      [eapply Forall_impl; [apply Hfolders|]; intros t Ht; apply Ht|].
    destruct mode; try apply Forall_nil_2. contradiction.
Qed.

(** X21. Restoring the last session never gives nothing and never
    gives a file: [doGetWindowsFromLastSession] returns at least one
    target, none of which has a file path or is to be created; in the
    modes "one" and "none" it returns exactly one target; in the mode
    "folders" no target is an empty window with a backup. *)
Theorem doGetWindowsFromLastSession_targets (m : WindowsManager) :
  doGetWindowsFromLastSession m <> []
  /\ Forall restorableTarget (doGetWindowsFromLastSession m)
  /\ (getRestoreWindowsSetting = RestoreOne \/ getRestoreWindowsSetting = RestoreNone ->
      length (doGetWindowsFromLastSession m) = 1)
  /\ (getRestoreWindowsSetting = RestoreNone ->
      doGetWindowsFromLastSession m = [emptyWindow])
  /\ (getRestoreWindowsSetting = RestoreFolders ->
      Forall (fun t => to_backupPath t = None) (doGetWindowsFromLastSession m)).
Proof.
  assert (Hempty : restorableTarget emptyWindow) by (split; reflexivity).
  assert (Hone : forall la, exists t,
            default [emptyWindow] (restoreOne la) = [t] /\ restorableTarget t).
  { intros la. unfold restoreOne.
    destruct la as [la|]; [|eauto].
    destruct (workspace la) as [c|].
    - destruct (parsePath (ws_configPath c) false false) as [t|] eqn:Hparse; [|eauto].
      destruct (isSome (to_workspace t)) eqn:Hkind; [|eauto].
      exists t. split; [reflexivity|]. eapply parsePath_restorable; eauto.
    - destruct (nonEmpty (folderPath la)) as [folder|].
      + destruct (parsePath folder false false) as [t|] eqn:Hparse; [|eauto].
        destruct (truthy (to_folderPath t)) eqn:Hkind; [|eauto].
        exists t. split; [reflexivity|]. eapply parsePath_restorable; eauto.
      + destruct (nonEmpty (backupPath la)) as [backup|]; [|eauto].
        eexists. split; [reflexivity|]. split; reflexivity. }
  unfold doGetWindowsFromLastSession.
  destruct getRestoreWindowsSetting eqn:Hmode.
  - destruct (restoreAll_restorable RestoreAll (windowsState m)) as [Hall _].
    destruct (restoreAll RestoreAll (windowsState m)) as [|t ts].
    + split; [discriminate|]. split; [apply Forall_singleton; exact Hempty|].
      split; [intros [Hfalse | Hfalse]; discriminate|].
      split; discriminate.
    + split; [discriminate|]. split; [exact Hall|].
      split; [intros [Hfalse | Hfalse]; discriminate|].
      split; discriminate.
  - destruct (restoreAll_restorable RestoreFolders (windowsState m)) as [Hall Hback].
    specialize (Hback ltac:(discriminate)).
    destruct (restoreAll RestoreFolders (windowsState m)) as [|t ts].
    + split; [discriminate|]. split; [apply Forall_singleton; exact Hempty|].
      split; [intros [Hfalse | Hfalse]; discriminate|].
      split; [discriminate|]. intros _. apply Forall_singleton. reflexivity.
    + split; [discriminate|]. split; [exact Hall|].
      split; [intros [Hfalse | Hfalse]; discriminate|].
      split; [discriminate|]. intros _. exact Hback.
  - destruct (Hone (lastActiveWindow (windowsState m))) as (t & -> & Ht).
    split; [discriminate|]. split; [apply Forall_singleton; exact Ht|].
    split; [reflexivity|]. split; discriminate.
  - split; [discriminate|]. split; [apply Forall_singleton; exact Hempty|].
    split; [reflexivity|]. split; [reflexivity|]. discriminate.
Qed.

(** A workspace or folder that [parsePath] returns is on the disk. *)
Lemma parsePath_onDisk p ignoreFileNotFound gotoLineMode t :
  parsePath p ignoreFileNotFound gotoLineMode = Some t -> onDisk t.
Proof.
  intros Hparse.
  pose proof (parsePath_cases p ignoreFileNotFound gotoLineMode) as Hcases.
  rewrite Hparse in Hcases. destruct Hcases as (_ & _ & Hstat).
  unfold onDisk.
  destruct (statSync (candidateOf gotoLineMode p)) as [[| |]|] eqn:Hdisk.
  - destruct Hstat as (_ & Hfolder & Hres).
    destruct (resolveWorkspaceSync (candidateOf gotoLineMode p)) as [stored|] eqn:Hstored;
      destruct Hres as [Hws _]; rewrite Hws, Hfolder.
    + split; [|discriminate]. intros w [= <-]. simpl. eauto.
    + split; discriminate.
  - destruct Hstat as (_ & Hws & Hfolder & _). rewrite Hws, Hfolder.
    split; [discriminate|]. intros f [= <-]. eexists. split; [exact Hdisk | discriminate].
  - destruct Hstat as (_ & Hws & Hfolder & _). rewrite Hws, Hfolder.
    split; [discriminate|]. intros f [= <-]. eexists. split; [exact Hdisk | discriminate].
  - destruct Hstat as (_ & _ & Hws & Hfolder & _). rewrite Hws, Hfolder.
    split; discriminate.
Qed.

Lemma restoreAll_onDisk mode st : Forall onDisk (restoreAll mode st).
Proof.
  unfold restoreAll.
  assert (Hparsed : forall {A} (f : A -> option IWindowToOpen) (g : IWindowToOpen -> bool) l,
            (forall c t, f c = Some t -> onDisk t) ->
            Forall onDisk (List.filter g (omap f l))).
  { intros A f g l Hf. apply Forall_forall. intros t Ht.
    apply list_elem_of_In, filter_In in Ht as [Ht _].
    apply list_elem_of_In, list_elem_of_omap in Ht as (c & _ & Hparse).
    eapply Hf. exact Hparse. }
  apply Forall_app. split.
  { apply Hparsed. intros c t. apply parsePath_onDisk. }
  apply Forall_app. split.
  { apply Hparsed. intros c t. apply parsePath_onDisk. }
  destruct mode; try apply Forall_nil_2.
  apply Forall_forall. intros t Ht.
  apply list_elem_of_In, in_map_iff in Ht as (b & <- & _). split; discriminate.
Qed.

(** X22. What is restored from the last session is on the disk:
    every workspace among the targets of [doGetWindowsFromLastSession]
    has a configuration path that is a file in which the workspaces
    service finds a workspace, whose id it carries, and every folder
    among them is a path of the disk that is not a file ([parsePath]
    asks [isFile()] only, so a FIFO, a socket or a device is restored
    as a folder just as a directory is); the same holds of the
    workspaces [doGetUntitledWorkspacesFromLastSession] returns.
    Conversely every given path of the disk that is not a file is
    validated as a folder. *)
Theorem restored_targets_on_disk (m : WindowsManager) :
  Forall onDisk (doGetWindowsFromLastSession m)
  /\ Forall (fun w =>
               statSync (ws_configPath w) = Some IsFile
               /\ exists stored,
                    resolveWorkspaceSync (ws_configPath w) = Some stored
                    /\ ws_id w = sw_id stored)
       (doGetUntitledWorkspacesFromLastSession m)
  /\ forall p stats,
       isGiven p = true ->
       statSync (candidateOf false p) = Some stats ->
       stats <> IsFile ->
       parsePath p false false = Some (folderTarget (candidateOf false p)).
Proof.
  assert (Hempty : onDisk emptyWindow) by (split; discriminate).
  split; [|split].
  - unfold doGetWindowsFromLastSession. destruct getRestoreWindowsSetting.
    + pose proof (restoreAll_onDisk RestoreAll (windowsState m)) as Hall.
      destruct (restoreAll RestoreAll (windowsState m));
        [apply Forall_singleton; exact Hempty | exact Hall].
    + pose proof (restoreAll_onDisk RestoreFolders (windowsState m)) as Hall.
      destruct (restoreAll RestoreFolders (windowsState m));
        [apply Forall_singleton; exact Hempty | exact Hall].
    + unfold restoreOne. destruct (lastActiveWindow (windowsState m)) as [la|];
        [|apply Forall_singleton; exact Hempty].
      destruct (workspace la) as [c|].
      * destruct (parsePath (ws_configPath c) false false) as [t|] eqn:Hparse;
          [|apply Forall_singleton; exact Hempty].
        destruct (isSome (to_workspace t));
          apply Forall_singleton; [eapply parsePath_onDisk; exact Hparse | exact Hempty].
      * destruct (nonEmpty (folderPath la)) as [folder|].
        -- destruct (parsePath folder false false) as [t|] eqn:Hparse;
             [|apply Forall_singleton; exact Hempty].
           destruct (truthy (to_folderPath t));
             apply Forall_singleton; [eapply parsePath_onDisk; exact Hparse | exact Hempty].
        -- destruct (nonEmpty (backupPath la)); apply Forall_singleton;
             [split; discriminate | exact Hempty].
    + apply Forall_singleton. exact Hempty.
  - unfold doGetUntitledWorkspacesFromLastSession.
    apply coalesce_map_Forall. intros c w.
    destruct (parsePath (ws_configPath c) false false) as [t|] eqn:Hparse;
      [|discriminate].
    intros Hw. apply parsePath_onDisk in Hparse as [Hws _]. apply Hws. exact Hw.
  - intros p stats Hgiven Hstat Hother. unfold parsePath, isGiven, candidateOf in *.
    destruct (String.eqb p EmptyString); [discriminate|].
    rewrite Hstat. destruct stats; [contradiction | reflexivity | reflexivity].
Qed.

End PathProperties.

(** ** The prompt to save an untitled workspace, again *)

Section PromptChoices.
Context `{!Platform, !IWorkspacesMainService}.

Lemma buttons_length : length buttons = 3.
Proof. unfold buttons. destruct isWindows, isLinux; reflexivity. Qed.

(** X23. The prompt handles each of its three buttons, and raises
    only for an index that is none of them.  The untitled workspace is
    deleted exactly when the user chose Don't Save, and then the
    unload is not vetoed; Save and Cancel never delete it. *)
Theorem promptToSaveUntitledWorkspace_deletes
  (workspace : IWorkspaceIdentifier) (res : nat) (target : option string) :
  (is_Some (promptToSaveUntitledWorkspace workspace res target) <-> res < 3)
  /\ forall r, promptToSaveUntitledWorkspace workspace res target = Some r ->
       (deletedUntitledWorkspace r = Some workspace
        <-> buttons !! res = Some DONT_SAVE)
       /\ (deletedUntitledWorkspace r = None
           <-> buttons !! res = Some SAVE \/ buttons !! res = Some CANCEL)
       /\ (buttons !! res = Some DONT_SAVE -> veto r = VetoValue false).
Proof.
  unfold promptToSaveUntitledWorkspace. split.
  - rewrite <- buttons_length, <- lookup_lt_is_Some.
    destruct (buttons !! res) as [[| |]|]; try destruct (nonEmpty target);
      split; intros [x Hx]; try discriminate; eauto.
  - intros r.
    destruct (buttons !! res) as [[| |]|]; try destruct (nonEmpty target);
      intros [= <-]; simpl;
      (split; [split; [discriminate || reflexivity | discriminate || reflexivity]|]);
      (split; [split; [try discriminate; auto
                      | try reflexivity; intros [Hf | Hf]; discriminate]|]);
      first [discriminate | reflexivity].
Qed.

(** X24. A window on an untitled workspace that is the only window:
    closing it asks whether to save the workspace on macOS only (on
    Windows and Linux the application quits with its last window),
    while loading something else into it asks on every platform. *)
Theorem onBeforeWindowUnload_sole_window window (workspace : IWorkspaceIdentifier)
  (m : WindowsManager) (res : nat) (target : option string) :
  openedWorkspace window = Some workspace ->
  isUntitledWorkspace workspace = true ->
  getWindowCount m = 1 ->
  res < 3 ->
  (onBeforeWindowUnload CLOSE window m res target = NotAsked <-> isMacintosh = false)
  /\ (exists r, onBeforeWindowUnload LOAD window m res target = Asked r)
  /\ onBeforeWindowUnload RELOAD window m res target = NotAsked
  /\ onBeforeWindowUnload QUIT window m res target = NotAsked.
Proof.
  intros Hws Huntitled Hone Hres.
  assert (Hprompt : exists r,
            promptToSaveUntitledWorkspace workspace res target = Some r).
  { unfold promptToSaveUntitledWorkspace.
    rewrite <- buttons_length in Hres. apply lookup_lt_is_Some in Hres as [c Hc].
    rewrite Hc. destruct c; try destruct (nonEmpty target); eauto. }
  destruct Hprompt as [r Hr].
  unfold onBeforeWindowUnload. rewrite Hws, Huntitled, Hone, Hr. simpl.
  split; [|split; [eauto | split; reflexivity]].
  destruct isMacintosh; simpl; split; try reflexivity; discriminate.
Qed.

End PromptChoices.

(** ** A workspace saved to another location *)

Lemma updateConfigPath_pointsTo e st : pointsTo e (updateConfigPath e st).
Proof.
  unfold pointsTo, updateConfigPath. intros w.
  destruct (workspace st) as [w0|] eqn:Hws; [|rewrite Hws; discriminate].
  destruct (String.eqb (ws_id w0) (ws_id (sv_workspace e))) eqn:Hid; simpl.
  - destruct (String.eqb (ws_configPath w0) (ws_configPath (sv_workspace e))) eqn:Hpath;
      simpl.
    + rewrite Hws. intros [= <-] _. apply String.eqb_eq. exact Hpath.
    + intros [= <-] _. reflexivity.
  - rewrite Hws. intros [= <-] Heq. apply String.eqb_neq in Hid. contradiction.
Qed.

Lemma updateConfigPath_stable e st : pointsTo e st -> updateConfigPath e st = st.
Proof.
  unfold pointsTo, updateConfigPath. intros Hst.
  destruct (workspace st) as [w|]; [|reflexivity].
  destruct (String.eqb (ws_id w) (ws_id (sv_workspace e))) eqn:Hid; [|reflexivity].
  apply String.eqb_eq in Hid. rewrite (Hst w eq_refl Hid), String.eqb_refl.
  reflexivity.
Qed.

Lemma updateConfigPath_other e st :
  (forall w, workspace st = Some w -> ws_id w <> ws_id (sv_workspace e)) ->
  updateConfigPath e st = st.
Proof.
  intros Hother. apply updateConfigPath_stable. intros w Hw Hid.
  exfalso. exact (Hother w Hw Hid).
Qed.

Lemma updateConfigPath_keeps e st :
  folderPath (updateConfigPath e st) = folderPath st
  /\ backupPath (updateConfigPath e st) = backupPath st
  /\ uiState (updateConfigPath e st) = uiState st
  /\ ws_id <$> workspace (updateConfigPath e st) = ws_id <$> workspace st.
Proof.
  unfold updateConfigPath. destruct (workspace st) as [w|] eqn:Hws.
  - destruct (_ && _); simpl; rewrite ?Hws; auto.
  - rewrite Hws. auto.
Qed.

Lemma storedStates_onWorkspaceSaved e m :
  storedStates (onWorkspaceSaved e m) = map (updateConfigPath e) (storedStates m).
Proof.
  unfold storedStates, onWorkspaceSaved. simpl. rewrite !map_app.
  destruct (lastClosedWindowState m), (lastActiveWindow (windowsState m)),
    (lastPluginDevelopmentHostWindow (windowsState m)); reflexivity.
Qed.

(** X25. After a workspace was saved to another location, every
    stored window state for that workspace (the last closed window,
    the last active window, the last extension development host
    window and the opened windows) has the new configuration path; a
    state keeps its workspace id, folder path, backup path and UI
    state, and a state for another workspace or for none is not
    changed.  The storage service is not written, and handling the
    same event again changes nothing. *)
Theorem onWorkspaceSaved_configPath (e : IWorkspaceSavedEvent) (m : WindowsManager) :
  let m' := onWorkspaceSaved e m in
  Forall (pointsTo e) (storedStates m')
  /\ length (storedStates m') = length (storedStates m)
  /\ (forall i st, storedStates m !! i = Some st ->
      exists st',
        storedStates m' !! i = Some st'
        /\ folderPath st' = folderPath st
        /\ backupPath st' = backupPath st
        /\ uiState st' = uiState st
        /\ ws_id <$> workspace st' = ws_id <$> workspace st
        /\ ((forall w, workspace st = Some w -> ws_id w <> ws_id (sv_workspace e)) ->
            st' = st))
  /\ storage m' = storage m
  /\ onWorkspaceSaved e m' = m'.
Proof.
  intros m'. subst m'. rewrite storedStates_onWorkspaceSaved.
  split; [|split; [|split; [|split]]].
  - apply Forall_forall. intros st Hst.
    apply list_elem_of_In, in_map_iff in Hst as (st0 & <- & _).
    apply updateConfigPath_pointsTo.
  - apply length_map.
  - intros i st Hi. exists (updateConfigPath e st).
    change (map (updateConfigPath e) (storedStates m))
      with (updateConfigPath e <$> storedStates m).
    rewrite list_lookup_fmap, Hi.
    destruct (updateConfigPath_keeps e st) as (Hf & Hb & Hu & Hw).
    repeat (split; [first [reflexivity | assumption]|]).
    apply updateConfigPath_other.
  - reflexivity.
  - unfold onWorkspaceSaved. simpl.
    assert (Hopt : forall o : option IWindowState,
              option_map (updateConfigPath e) (option_map (updateConfigPath e) o)
              = option_map (updateConfigPath e) o).
    { intros [st|]; simpl; [|reflexivity].
      rewrite (updateConfigPath_stable e _ (updateConfigPath_pointsTo e st)).
      reflexivity. }
    rewrite !Hopt. unfold set_lastClosedWindowState, set_windowsState. simpl.
    f_equal. f_equal. rewrite map_map. apply map_ext. intros st.
    apply updateConfigPath_stable, updateConfigPath_pointsTo.
Qed.

(** ** Keeping a new window off the existing ones *)

(** A round of the loop of [ensureNoOverlap] leaves no more edges
    ahead, and fewer when the origin shares an edge. *)
Lemma edgesAhead_le (bounds : list Rectangle) (x y : Z) :
  edgesAhead bounds (x + 30) (y + 30) <= edgesAhead bounds x y.
Proof.
  unfold edgesAhead. induction bounds as [|b bounds IH]; simpl; [lia|].
  destruct (x + 30 <=? r_x b)%Z eqn:Hx', (x <=? r_x b)%Z eqn:Hx,
           (y + 30 <=? r_y b)%Z eqn:Hy', (y <=? r_y b)%Z eqn:Hy; simpl;
    try lia.
  all: repeat match goal with
              | H : (_ <=? _)%Z = true |- _ => apply Z.leb_le in H
              | H : (_ <=? _)%Z = false |- _ => apply Z.leb_gt in H
              end; lia.
Qed.

Lemma edgesAhead_lt (bounds : list Rectangle) (x y : Z) :
  sharesEdge bounds x y = true ->
  edgesAhead bounds (x + 30) (y + 30) < edgesAhead bounds x y.
Proof.
  unfold sharesEdge. induction bounds as [|b bounds IH]; simpl; [discriminate|].
  intros Hshare. apply orb_true_iff in Hshare as [Hb | Hrest].
  - pose proof (edgesAhead_le bounds x y) as Hle. unfold edgesAhead in *. simpl.
    apply orb_true_iff in Hb as [Hb | Hb]; apply Z.eqb_eq in Hb;
      destruct (x + 30 <=? r_x b)%Z eqn:Hx', (x <=? r_x b)%Z eqn:Hx,
               (y + 30 <=? r_y b)%Z eqn:Hy', (y <=? r_y b)%Z eqn:Hy; simpl;
      repeat match goal with
             | H : (_ <=? _)%Z = true |- _ => apply Z.leb_le in H
             | H : (_ <=? _)%Z = false |- _ => apply Z.leb_gt in H
             end; lia.
  - specialize (IH Hrest). unfold edgesAhead in *. simpl.
    destruct (x + 30 <=? r_x b)%Z eqn:Hx', (x <=? r_x b)%Z eqn:Hx,
             (y + 30 <=? r_y b)%Z eqn:Hy', (y <=? r_y b)%Z eqn:Hy; simpl;
      repeat match goal with
             | H : (_ <=? _)%Z = true |- _ => apply Z.leb_le in H
             | H : (_ <=? _)%Z = false |- _ => apply Z.leb_gt in H
             end; lia.
Qed.

Lemma edgesAhead_bound (bounds : list Rectangle) (x y : Z) :
  edgesAhead bounds x y <= 2 * length bounds.
Proof.
  unfold edgesAhead.
  pose proof (filter_length_le (fun b => (x <=? r_x b)%Z) bounds).
  pose proof (filter_length_le (fun b => (y <=? r_y b)%Z) bounds).
  lia.
Qed.

Lemma nudged_succ k x y : nudged (S k) x y = nudged k (x + 30) (y + 30).
Proof. unfold nudged. f_equal; lia. Qed.

Lemma nudged_zero x y : nudged 0 x y = (x, y).
Proof. unfold nudged. f_equal; lia. Qed.

Lemma nudge_rounds (bounds : list Rectangle) (n : nat) :
  forall x y,
    edgesAhead bounds x y <= n ->
    exists k,
      k <= n
      /\ (forall fuel, k < fuel -> nudge fuel bounds x y = Some (nudged k x y))
      /\ sharesEdge bounds (nudged k x y).1 (nudged k x y).2 = false
      /\ (forall j, j < k ->
          sharesEdge bounds (nudged j x y).1 (nudged j x y).2 = true).
Proof.
  induction n as [|n IH]; intros x y Hn.
  - destruct (sharesEdge bounds x y) eqn:Hshare.
    + apply edgesAhead_lt in Hshare. lia.
    + exists 0. rewrite nudged_zero. split; [lia|]. split; [|split].
      * intros [|fuel] Hfuel; [lia|]. simpl. rewrite Hshare. reflexivity.
      * exact Hshare.
      * intros j Hj. lia.
  - destruct (sharesEdge bounds x y) eqn:Hshare.
    + pose proof (edgesAhead_lt bounds x y Hshare) as Hlt.
      destruct (IH (x + 30)%Z (y + 30)%Z) as (k & Hk & Hrun & Hfree & Hbefore); [lia|].
      exists (S k). rewrite nudged_succ. split; [lia|]. split; [|split].
      * intros [|fuel] Hfuel; [lia|]. simpl. rewrite Hshare. apply Hrun. lia.
      * exact Hfree.
      * intros [|j] Hj; [rewrite nudged_zero; exact Hshare|].
        rewrite nudged_succ. apply Hbefore. lia.
    + exists 0. rewrite nudged_zero. split; [lia|]. split; [|split].
      * intros [|fuel] Hfuel; [lia|]. simpl. rewrite Hshare. reflexivity.
      * exact Hshare.
      * intros j Hj. lia.
Qed.

(** X26. The loop of [ensureNoOverlap] ends: with [n] live windows
    it tests its condition at most [2 n + 1] times.  The origin it
    returns is the given one moved by (30, 30) some [k <= 2 n] times,
    the first such origin that shares neither its x with the x of a
    live window nor its y with the y of one; so no live window has the
    same top-left corner as the new window. *)
Theorem ensureNoOverlap_terminates (existingWindowBounds : list Rectangle) (x y : Z) :
  exists k,
    k <= 2 * length existingWindowBounds
    /\ (forall fuel, 2 * length existingWindowBounds < fuel ->
        ensureNoOverlap fuel existingWindowBounds x y = Some (nudged k x y))
    /\ Forall (fun b => r_x b <> (nudged k x y).1 /\ r_y b <> (nudged k x y).2)
         existingWindowBounds
    /\ (forall j, j < k ->
        exists b, b ∈ existingWindowBounds
                  /\ (r_x b = (nudged j x y).1 \/ r_y b = (nudged j x y).2)).
Proof.
  destruct (nudge_rounds existingWindowBounds (2 * length existingWindowBounds) x y
              (edgesAhead_bound _ _ _)) as (k & Hk & Hrun & Hfree & Hbefore).
  exists k. split; [exact Hk|]. split; [|split].
  - intros fuel Hfuel. unfold ensureNoOverlap.
    destruct existingWindowBounds as [|b bounds] eqn:Hbounds.
    + simpl in Hk. assert (k = 0) as -> by lia. rewrite nudged_zero. reflexivity.
    + apply Hrun. lia.
  - apply Forall_forall. intros b Hb.
    unfold sharesEdge in Hfree.
    assert (Hb' : (r_x b =? (nudged k x y).1)%Z || (r_y b =? (nudged k x y).2)%Z = false).
    { destruct (_ || _) eqn:E; [|reflexivity].
      assert (Hex : existsb (fun b => (r_x b =? (nudged k x y).1)%Z
                                      || (r_y b =? (nudged k x y).2)%Z)
                      existingWindowBounds = true).
      { apply existsb_exists. exists b. split; [apply list_elem_of_In; exact Hb | exact E]. }
      congruence. }
    apply orb_false_iff in Hb' as [Hx Hy].
    split; apply Z.eqb_neq; assumption.
  - intros j Hj. specialize (Hbefore j Hj). unfold sharesEdge in Hbefore.
    apply existsb_exists in Hbefore as (b & Hb & Hshare).
    exists b. split; [apply list_elem_of_In; exact Hb|].
    apply orb_true_iff in Hshare as [Hx | Hy]; [left | right]; apply Z.eqb_eq; assumption.
Qed.

(** ** The file and folder picker *)

Lemma getStringItem_setItem key s m :
  getStringItem key (storage (setItem key (StoredString s) m)) = Some s.
Proof. unfold getStringItem, setItem. simpl. rewrite lookup_insert_eq. reflexivity. Qed.

Section Picker.
Context `{!Platform, !Host, !ILifecycleService, !IBackupMainService,
          !IWorkspacesMainService, !IConfigurationService,
          !IEnvironmentService, !WindowsFinder, !IInstantiationService, !Paths}.

Lemma open_storage openConfig m used m' :
  open openConfig m = Some (used, m') -> storage m' = storage m.
Proof.
  intros Hopen.
  destruct (open_extendsManager _ _ _ _ Hopen) as (_ & Hstorage & _).
  exact Hstorage.
Qed.

(** X27. The picker remembers where the user was: after a dialog in
    which paths were picked, the directory of the first picked path is
    stored, and it is the default path of the next dialog that is
    given none, whatever [open] did with the picked paths.  A
    dialog that is cancelled (it returns nothing, or no path) opens
    nothing and leaves the manager and the storage as they were. *)
Theorem picker_working_dir (options : INativeOpenDialogOptions) (folders files : bool)
  (m : WindowsManager) :
  (forall p ps shown m',
     doPickAndOpen options folders files (Some (p :: ps)) m = Some (shown, m') ->
     getStringItem workingDirPickerStorageKey (storage m') = Some (dirname p)
     /\ forall options' folders' files',
          nonEmpty (d_defaultPath (default noDialogOptions (n_dialogOptions options')))
          = None ->
          d_defaultPath
            (shownDialogOptions (internalOptions options' folders' files') m')
          = Some (dirname p))
  /\ (forall picked, picked = None \/ picked = Some [] ->
      exists shown,
        doPickAndOpen options folders files picked m = Some (shown, m)).
Proof.
  split.
  - intros p ps shown m'. unfold doPickAndOpen, pickAndOpen, getFileOrFolderPaths.
    intros (r & Hopen & [= <- <-])%bind_Some.
    destruct r as [used m1]. apply open_storage in Hopen. simpl.
    assert (Hstored : getStringItem workingDirPickerStorageKey (storage m1)
                      = Some (dirname p)).
    { rewrite Hopen. apply getStringItem_setItem. }
    split; [exact Hstored|].
    intros options' folders' files' Hnone.
    unfold shownDialogOptions, internalOptions. simpl.
    rewrite Hnone. exact Hstored.
  - intros picked [-> | ->]; eexists; reflexivity.
Qed.

(** X28. What the picker shows is decided by the entry point, not
    by the caller's dialog properties: whatever properties the options
    carry, the dialog allows multiple selections and creating
    directories, picks directories exactly when folders are asked for,
    and picks files when files are asked for or folders are not.  A
    title the caller gave is kept; otherwise it is "Open", "Open
    Folder" or "Open File". *)
Theorem picker_properties (options : INativeOpenDialogOptions) (folders files : bool)
  (picked : option (list string)) (m : WindowsManager) shown m' :
  doPickAndOpen options folders files picked m = Some (shown, m') ->
  d_properties shown
  = Some (["multiSelections"]
          ++ (if folders then ["openDirectory"] else [])
          ++ (if files || negb folders then ["openFile"] else [])
          ++ ["createDirectory"])
  /\ (forall t,
        nonEmpty (d_title (default noDialogOptions (n_dialogOptions options))) = Some t ->
        d_title shown = Some t)
  /\ (nonEmpty (d_title (default noDialogOptions (n_dialogOptions options))) = None ->
      d_title shown
      = Some (if folders && files then "Open"
              else if folders then "Open Folder" else "Open File")).
Proof.
  unfold doPickAndOpen, pickAndOpen, getFileOrFolderPaths.
  set (shown0 := shownDialogOptions (internalOptions options folders files) m).
  intros Hrun.
  assert (Hshown : shown = shown0).
  { destruct picked as [[|p ps]|].
    - injection Hrun as <- _. reflexivity.
    - apply bind_Some in Hrun as (r & _ & [= <- _]). reflexivity.
    - injection Hrun as <- _. reflexivity. }
  subst shown shown0. unfold shownDialogOptions, internalOptions. simpl.
  split; [destruct folders, files; reflexivity|].
  split.
  - intros t ->. reflexivity.
  - intros ->. reflexivity.
Qed.

End Picker.

(** * Examples in the concrete world *)

Section Examples.
#[local] Existing Instances
  Demo.linux Demo.host Demo.running Demo.backups Demo.workspaces Demo.settings
  Demo.environment Demo.finder Demo.factory.

(** A close event during a quit leaves the manager alone. *)
Lemma onBeforeWindowClose_quit_requested_witness :
  @isQuitRequested Demo.quitting = true
  /\ @onBeforeWindowClose _ _ Demo.quitting Demo.closing Demo.sameFolderTwice
     = Demo.sameFolderTwice.
Proof.
  split; [reflexivity|].
  apply (onBeforeWindowClose_quit_requested Demo.quitting [] Demo.sameFolderTwice eq_refl).
Defined.

(** With two windows open, a quit persists both snapshots. *)
Lemma onBeforeQuit_openedWindows_witness :
  1 < getWindowCount Demo.sameFolderTwice
  /\ exists persisted,
       getItem windowsStateStorageKey (storage (onBeforeQuit Demo.sameFolderTwice))
       = Some persisted
       /\ Legacy.openedWindows persisted
          = Some (map Legacy.ofState (map toWindowState (WINDOWS Demo.sameFolderTwice))).
Proof.
  split; [vm_compute; lia|].
  destruct (onBeforeQuit_openedWindows Demo.sameFolderTwice)
    as (persisted & opened & Hget & Hopened & Hmany & _).
  exists persisted. split; [exact Hget|].
  rewrite Hopened, Hmany; [reflexivity | vm_compute; lia].
Defined.

(** Two files on the disk in diff mode are diffed. *)
Lemma open_diffMode_witness :
  diffMode Demo.diffTwo = true
  /\ List.filter isFileToOpen (getWindowsToOpen Demo.diffTwo Demo.fresh)
     = [Demo.fileTarget "/repo/a.ts" false; Demo.fileTarget "/repo/b.ts" false]
  /\ open Demo.diffTwo Demo.fresh
     = doOpenWith Demo.diffTwo Demo.fresh [] []
         [Demo.fileTarget "/repo/a.ts" false; Demo.fileTarget "/repo/b.ts" false].
Proof.
  split; [reflexivity|]. split; [vm_compute; reflexivity|].
  destruct (open_diffMode Demo.diffTwo Demo.fresh eq_refl) as [Htwo _].
  destruct Htwo as (a & b & Hplain & Hopen); [vm_compute; reflexivity|].
  rewrite Hopen. vm_compute in Hplain. injection Hplain as <- <-. reflexivity.
Defined.

(** The window opened for them is asked to load the two files as files
    to diff, and no file to open or to create. *)
Example open_diffMode_load :
  (fun r => map (fun l => (o_filesToOpen (snd l), o_filesToCreate (snd l),
                           o_filesToDiff (snd l)))
              (pendingLoads (snd r))) <$> open Demo.diffTwo Demo.fresh
  = Some [([], [],
           [Demo.fileTarget "/repo/a.ts" false; Demo.fileTarget "/repo/b.ts" false])].
Proof. vm_compute. reflexivity. Qed.

(** Closing one of two windows on [/repo] updates both stored entries
    for [/repo] and leaves the entry of the other folder. *)
Lemma onBeforeWindowClose_updates_all_matching_witness :
  isQuitRequested = false
  /\ isExtensionDevelopmentHost Demo.closing = false
  /\ isSome (openedWorkspace Demo.closing) || truthy (openedFolderPath Demo.closing) = true
  /\ openedWindows
       (windowsState
          (onBeforeWindowClose Demo.closing Demo.sameFolderTwice))
     = [ {| workspace := None; folderPath := Some "/repo"; backupPath := None;
            uiState := Demo.moved |};
         Demo.stateOn "/other";
         {| workspace := None; folderPath := Some "/repo"; backupPath := None;
            uiState := Demo.moved |} ].
Proof.
  split; [reflexivity|]. split; [reflexivity|]. split; [reflexivity|].
  destruct (onBeforeWindowClose_updates_all_matching Demo.running Demo.closing
              Demo.sameFolderTwice eq_refl eq_refl eq_refl) as [Hlen Hall].
  apply list_eq. intros [|[|[|i]]].
  - apply (Hall 0 (Demo.stateOn "/repo") eq_refl). right.
    exists "/repo". split; reflexivity.
  - apply (Hall 1 (Demo.stateOn "/other") eq_refl).
    intros [(w & ow & Hw & _) | (f & [= <-] & Heq)]; discriminate.
  - apply (Hall 2 (Demo.stateOn "/repo") eq_refl). right.
    exists "/repo". split; reflexivity.
  - apply lookup_ge_None_2. rewrite Hlen. simpl. lia.
Defined.

(** The workspace of the last session is gone: one empty window. *)
Lemma restore_one_unresolved_workspace_witness :
  getRestoreWindowsSetting = RestoreOne
  /\ lastActiveWindow (windowsState Demo.lostWorkspace)
     = Some {| workspace := Some (Demo.workspaceTwo "/ws/two.code-workspace");
               folderPath := Some "/repo"; backupPath := None;
               uiState := Demo.geometry |}
  /\ parsePath "/ws/two.code-workspace" false false = None
  /\ doGetWindowsFromLastSession Demo.lostWorkspace = [emptyWindow].
Proof.
  split; [reflexivity|]. split; [reflexivity|]. split; [reflexivity|].
  eapply restore_one_unresolved_workspace.
  - reflexivity.
  - reflexivity.
  - reflexivity.
  - intros v Hv. vm_compute in Hv. discriminate.
Defined.

(** On Windows the buttons are Save, Don't Save, Cancel.  Cancel
    vetoes; Save with a target does not, although the save fails. *)
Lemma promptToSaveUntitledWorkspace_veto_witness :
  @buttons Demo.windows !! 2 = Some CANCEL
  /\ veto <$> @promptToSaveUntitledWorkspace Demo.windows Demo.brokenWorkspaces
                (Demo.workspaceOne "/tmp/untitled") 2 None
     = Some (VetoValue true)
  /\ @saveWorkspace Demo.brokenWorkspaces (Demo.workspaceOne "/tmp/untitled") "/home/one"
     = Rejected "EACCES"
  /\ vetoOutcome <$> (veto <$> @promptToSaveUntitledWorkspace Demo.windows
                                 Demo.brokenWorkspaces
                                 (Demo.workspaceOne "/tmp/untitled") 0 (Some "/home/one"))
     = Some (Fulfilled false).
Proof.
  split; [reflexivity|]. split; [|split; [reflexivity|]].
  - destruct (@promptToSaveUntitledWorkspace_veto Demo.windows Demo.brokenWorkspaces
                (Demo.workspaceOne "/tmp/untitled") 2 None)
      as (Hcancel & _ & _).
    apply Hcancel. reflexivity.
  - destruct (@promptToSaveUntitledWorkspace_veto Demo.windows Demo.brokenWorkspaces
                (Demo.workspaceOne "/tmp/untitled") 0 (Some "/home/one"))
      as (_ & _ & Hsave).
    destruct (Hsave eq_refl "/home/one" eq_refl) as [-> Hfalse].
    reflexivity.
Defined.

(** A window is opened and closed: two events, each off by one. *)
Lemma countChanged_events_witness :
  reachable Demo.openedThenClosed
  /\ countChanged Demo.openedThenClosed
     = [({| oldCount := 0; newCount := 1 |}, 1); ({| oldCount := 1; newCount := 0 |}, 0)]
  /\ Forall countChangedOk (countChanged Demo.openedThenClosed).
Proof.
  assert (Hreach : reachable Demo.openedThenClosed).
  { exists ∅. eapply rtc_l; [apply step_openInBrowserWindow|].
    apply rtc_once. apply step_onWindowClosed. }
  split; [exact Hreach|]. split; [reflexivity|].
  apply (countChanged_events Demo.openedThenClosed Hreach).
Defined.

End Examples.

(** ** Examples of [open] and [doOpen] *)

Section OpenExamples.
#[local] Existing Instances
  Demo.linux Demo.host Demo.running Demo.backups Demo.workspaces Demo.settings
  Demo.environment Demo.finder Demo.factory.

(** What [doOpen] does with two workspaces that two live windows have
    open under another configuration path: the kind of each placement,
    the flag it saw, the [forceNewWindow] it passed, whether it created
    its window, and the window. *)
Example reloadBoth_placements :
  (fun s => map (fun p => (p_kind p, p_flag p, p_forceNewWindow p, p_created p,
                           win_id (p_window p)))
              (placements s)) <$> Demo.reloadBoth
  = Some [(WorkspaceReload, false, false, false, 0);
          (WorkspaceReload, true, false, false, 1);
          (WorkspaceExisting, true, false, false, 0)].
Proof. vm_compute. reflexivity. Qed.


(** Two workspaces that no window has open: the second one is opened
    after the first set the flag, in a new window. *)
#[local] Abbreviation openBoth :=
  (doOpenSteps Demo.config
     [Demo.workspaceOne "/ws/one.code-workspace";
      Demo.workspaceTwo "/ws/two.code-workspace"]
     [] [] [] [] 0 [] [] [] Demo.fresh).

(** Two workspaces that two live windows have open under another
    configuration path. *)
#[local] Abbreviation reloadTwo :=
  (doOpenSteps Demo.config
     [Demo.workspaceOne "/new/one.code-workspace";
      Demo.workspaceTwo "/new/two.code-workspace"]
     [] [] [] [] 0 [] [] [] Demo.twoWorkspaces).


(** A path that is not on the disk, given to [open]: no placement, no
    empty target, no window. *)
Lemma open_missing_path_no_window :
  usedWindows <$> openPlacement Demo.openMissing Demo.fresh = Some []
  /\ ~ 1 <= length (List.filter isEmptyToOpen
                      (getWindowsToOpen Demo.openMissing Demo.fresh))
  /\ fst <$> open Demo.openMissing Demo.fresh = Some [].
Proof.
  split; [vm_compute; reflexivity|]. split; [vm_compute; lia|].
  vm_compute. reflexivity.
Qed.

Lemma wfManager_fresh : wfManager Demo.fresh.
Proof. apply Forall_nil_2. Qed.

(** A forced empty window: one window is opened. *)
Lemma open_empty_windows_witness :
  wfManager Demo.fresh
  /\ usedWindows <$> openPlacement Demo.openEmpty Demo.fresh = Some []
  /\ exists used m',
       open Demo.openEmpty Demo.fresh = Some (used, m')
       /\ length used = 1.
Proof.
  split; [exact wfManager_fresh|]. split; [vm_compute; reflexivity|].
  let r := eval vm_compute in (openPlacement Demo.openEmpty Demo.fresh) in
  match r with
  | Some ?s0 =>
      assert (Hplace : openPlacement Demo.openEmpty Demo.fresh = Some s0)
        by (vm_compute; reflexivity);
      assert (Hnone : usedWindows s0 = []) by reflexivity
  end.
  destruct (open_empty_windows Demo.openEmpty Demo.fresh _ wfManager_fresh Hplace Hnone)
    as (used & m' & loads & Hopen & Hlen & _ & _ & _ & _ & _ & Hforced).
  exists used, m'. split; [exact Hopen|].
  rewrite Hlen. apply Hforced; [reflexivity | left; reflexivity].
Defined.

End OpenExamples.

(** * Further examples in the concrete world *)

Section FurtherExamples.
#[local] Existing Instances
  Demo.linux Demo.host Demo.running Demo.backups Demo.workspaces Demo.settings
  Demo.environment Demo.finder Demo.factory Scenes.paths.


(** Two windows on [/repo]: after a quit and a restart the state of
    the first is among the opened windows. *)
Lemma onBeforeQuit_restart_witness :
  Demo.closing ∈ WINDOWS Demo.sameFolderTwice
  /\ toWindowState Demo.closing
     ∈ openedWindows
         (windowsState (newWindowsManager (storage (onBeforeQuit Demo.sameFolderTwice)))).
Proof.
  assert (Hin : Demo.closing ∈ WINDOWS Demo.sameFolderTwice) by (left).
  split; [exact Hin|].
  destruct (onBeforeQuit_restart Demo.sameFolderTwice) as (_ & _ & Hopened).
  apply Hopened; [exact Hin | reflexivity | vm_compute; lia].
Defined.

(** The only window closes, then the application quits. *)
Lemma close_last_window_then_quit_witness :
  isQuitRequested = false
  /\ getWindowCount Scenes.oneWindow = 1
  /\ exists persisted,
       getItem windowsStateStorageKey
         (storage (onBeforeQuit
                     (onWindowClosed Demo.closing
                        (onBeforeWindowClose Demo.closing Scenes.oneWindow))))
       = Some persisted
       /\ Legacy.lastActiveWindow persisted
          = Some (Legacy.ofState (toWindowState Demo.closing)).
Proof.
  split; [reflexivity|]. split; [reflexivity|].
  destruct (close_last_window_then_quit Demo.running Demo.closing Scenes.oneWindow
              eq_refl eq_refl) as [Hquit _].
  destruct (Hquit _ (or_intror eq_refl)) as (persisted & Hget & Hlast & _).
  exists persisted. split; assumption.
Defined.

(** Two windows, none an extension development host: the last one is
    persisted as the last active window. *)
Lemma onBeforeQuit_lastActiveWindow_witness :
  lastClosedWindowState Demo.sameFolderTwice = None
  /\ exists persisted,
       getItem windowsStateStorageKey (storage (onBeforeQuit Demo.sameFolderTwice))
       = Some persisted
       /\ ~ Legacy.lastActiveWindow persisted = None.
Proof.
  split; [reflexivity|].
  destruct (onBeforeQuit_lastActiveWindow Demo.sameFolderTwice eq_refl)
    as (persisted & Hget & _ & Hnone).
  exists persisted. split; [exact Hget|].
  intros Habsent. apply Hnone in Habsent. apply Forall_inv in Habsent. discriminate.
Defined.

(** An extension development host closes: its state is remembered and
    the opened windows are not touched. *)
Lemma onBeforeWindowClose_extension_host_witness :
  isQuitRequested = false
  /\ isExtensionDevelopmentHost Scenes.devHost = true
  /\ openedWindows (windowsState (onBeforeWindowClose Scenes.devHost Demo.sameFolderTwice))
     = openedWindows (windowsState Demo.sameFolderTwice)
  /\ lastPluginDevelopmentHostWindow
       (windowsState (onBeforeWindowClose Scenes.devHost Demo.sameFolderTwice))
     = Some (toWindowState Scenes.devHost).
Proof.
  split; [reflexivity|]. split; [reflexivity|].
  destruct (onBeforeWindowClose_extension_host Demo.running Scenes.devHost
              Demo.sameFolderTwice eq_refl eq_refl) as (Hopened & _ & Hhost & _).
  split; [exact Hopened | exact Hhost].
Defined.

(** A window on [/repo] closes; the next window on [/repo] gets its
    geometry. *)
Lemma reopened_window_geometry_witness :
  isQuitRequested = false
  /\ isExtensionDevelopmentHost Demo.closing = false
  /\ Demo.stateOn "/repo" ∈ openedWindows (windowsState Demo.sameFolderTwice)
  /\ getStoredWindowState Scenes.folderConfiguration
       (onBeforeWindowClose Demo.closing Demo.sameFolderTwice)
     = Some Demo.moved.
Proof.
  split; [reflexivity|]. split; [reflexivity|].
  assert (Hin : Demo.stateOn "/repo" ∈ openedWindows (windowsState Demo.sameFolderTwice))
    by (left).
  split; [exact Hin|].
  destruct (reopened_window_geometry Demo.running Demo.closing Demo.sameFolderTwice
              Scenes.folderConfiguration eq_refl eq_refl eq_refl eq_refl)
    as [_ Hfolder].
  apply (Hfolder "/repo" eq_refl eq_refl eq_refl).
  exists (Demo.stateOn "/repo"). split; [exact Hin | reflexivity].
Defined.

(** The only window closes; the next empty window gets its geometry,
    also after a quit and a restart. *)
Lemma first_window_geometry_witness :
  isQuitRequested = false
  /\ getWindowCount Scenes.oneWindow = 1
  /\ plainConfiguration Scenes.emptyConfiguration
  /\ getStoredWindowState Scenes.emptyConfiguration
       (newWindowsManager
          (storage (onBeforeQuit
                      (onWindowClosed Demo.closing
                         (onBeforeWindowClose Demo.closing Scenes.oneWindow)))))
     = Some Demo.moved.
Proof.
  assert (Hplain : plainConfiguration Scenes.emptyConfiguration)
    by (repeat split).
  split; [reflexivity|]. split; [reflexivity|]. split; [exact Hplain|].
  apply (first_window_geometry Demo.running Demo.closing Scenes.oneWindow
           Scenes.emptyConfiguration eq_refl eq_refl Hplain).
Defined.

Lemma reachable_opened :
  reachable (snd (openInBrowserWindow Demo.emptyOptions Demo.fresh)).
Proof. exists ∅. apply rtc_once. apply step_openInBrowserWindow. Qed.

(** The window just opened is found by its identity. *)
Lemma getWindowById_live_witness :
  reachable (snd (openInBrowserWindow Demo.emptyOptions Demo.fresh))
  /\ getWindowById 0 (snd (openInBrowserWindow Demo.emptyOptions Demo.fresh))
     = Some (fst (openInBrowserWindow Demo.emptyOptions Demo.fresh)).
Proof.
  split; [exact reachable_opened|].
  destruct (getWindowById_live _ reachable_opened) as (_ & Hfind & _).
  assert (Hin : fst (openInBrowserWindow Demo.emptyOptions Demo.fresh)
                ∈ WINDOWS (snd (openInBrowserWindow Demo.emptyOptions Demo.fresh)))
    by (left).
  exact (Hfind _ Hin).
Defined.

(** The window just opened is closed: no window is left. *)
Lemma onWindowClosed_removes_witness :
  reachable (snd (openInBrowserWindow Demo.emptyOptions Demo.fresh))
  /\ fst (openInBrowserWindow Demo.emptyOptions Demo.fresh)
     ∈ WINDOWS (snd (openInBrowserWindow Demo.emptyOptions Demo.fresh))
  /\ getWindowCount Demo.openedThenClosed + 1 = 1
  /\ getWindowById 0 Demo.openedThenClosed = None.
Proof.
  assert (Hin : fst (openInBrowserWindow Demo.emptyOptions Demo.fresh)
                ∈ WINDOWS (snd (openInBrowserWindow Demo.emptyOptions Demo.fresh)))
    by (left).
  split; [exact reachable_opened|]. split; [exact Hin|].
  destruct (onWindowClosed_removes _ _ reachable_opened Hin)
    as (_ & Hcount & Hgone & _).
  split; [exact Hcount | exact Hgone].
Defined.

(** A window that is not in the list is closed: the last live window
    is dropped from the list. *)
Lemma onWindowClosed_unknown_window_witness :
  Forall (fun w => win_id w <> 7) (WINDOWS Demo.sameFolderTwice)
  /\ WINDOWS (onWindowClosed (Demo.windowOn 7 None None) Demo.sameFolderTwice)
     = [Demo.closing].
Proof.
  assert (Hunknown : Forall (fun w => win_id w <> win_id (Demo.windowOn 7 None None))
                       (WINDOWS Demo.sameFolderTwice)).
  { repeat constructor; simpl; lia. }
  split; [exact Hunknown|].
  destruct (onWindowClosed_unknown_window Demo.sameFolderTwice
              (Demo.windowOn 7 None None) Hunknown) as (_ & Hlast & _).
  apply (Hlast [Demo.closing] (Demo.windowOn 1 None (Some "/repo"))). reflexivity.
Defined.

(** A folder that no window has open, with a forced new window, while
    a window is live: the window is created. *)
#[local] Abbreviation openForced :=
  (doOpenSteps Scenes.forcedFolder [] [] ["/other"] [] [] 0 [] [] [] Scenes.oneWindow).

Lemma doOpen_forced_new_window_witness :
  forceNewWindow Scenes.forcedFolder = true
  /\ forceReuseWindow Scenes.forcedFolder = false
  /\ exists s p,
       openForced = Some s
       /\ placements s = [p]
       /\ p_kind p = FolderOpen
       /\ p_created p = true.
Proof.
  split; [reflexivity|]. split; [reflexivity|].
  let r := eval vm_compute in openForced in
  match r with
  | Some ?s0 => assert (Hrun : openForced = Some s0) by (vm_compute; reflexivity)
  end.
  match type of Hrun with
  | _ = Some ?s0 =>
      assert (Hlog : placements s0 = [_]) by reflexivity;
      exists s0
  end.
  eexists. split; [exact Hrun|]. split; [exact Hlog|]. split; [reflexivity|].
  destruct (doOpen_forced_new_window Scenes.forcedFolder _ _ _ _ _ _ _ _ _ _ _
              eq_refl eq_refl Hrun)
    as (_ & _ & Hall).
  rewrite Hlog in Hall. apply Forall_inv in Hall. apply Hall. reflexivity.
Defined.

(** A window is opened in the fresh manager and closed: no window is
    left. *)
Lemma open_then_close_witness :
  wfManager Demo.fresh
  /\ exists w m',
       openNewWindow CLI Demo.fresh = Some m'
       /\ WINDOWS m' = [w]
       /\ WINDOWS (onWindowClosed w m') = [].
Proof.
  split; [exact wfManager_fresh|].
  destruct (open_then_close CLI Demo.fresh wfManager_fresh)
    as (w & m' & Hopen & Hwins & Hclosed & _).
  exists w, m'. split; [exact Hopen|]. split; [exact Hwins | exact Hclosed].
Defined.

(** A folder that no window has open, with a forced reuse, while a
    window is live: the live window is used. *)
#[local] Abbreviation openReused :=
  (doOpenSteps Scenes.reusedFolder [] [] ["/other"] [] [] 0 [] [] [] Scenes.oneWindow).

Lemma doOpen_force_reuse_witness :
  forceReuseWindow Scenes.reusedFolder = true
  /\ getLastActiveWindow (WINDOWS Scenes.oneWindow) = Some Demo.closing
  /\ exists s p,
       openReused = Some s
       /\ placements s = [p]
       /\ p_kind p = FolderOpen
       /\ p_forceNewWindow p = false
       /\ ~ p_created p = true.
Proof.
  split; [reflexivity|]. split; [reflexivity|].
  let r := eval vm_compute in openReused in
  match r with
  | Some ?s0 => assert (Hrun : openReused = Some s0) by (vm_compute; reflexivity)
  end.
  match type of Hrun with
  | _ = Some ?s0 =>
      assert (Hlog : placements s0 = [_]) by reflexivity;
      exists s0
  end.
  eexists. split; [exact Hrun|]. split; [exact Hlog|]. split; [reflexivity|].
  destruct (doOpen_force_reuse Scenes.reusedFolder _ _ _ _ _ _ _ _ _ _ _ _ _
              eq_refl Hrun Hlog) as [_ Hfirst].
  destruct Hfirst as [Hforce Hcreated]; [left; reflexivity|].
  split; [exact Hforce|]. intros Htrue. apply Hcreated in Htrue. discriminate.
Defined.

(** No window is live: [focusLastActive] creates one. *)
Lemma focusLastActive_live_witness :
  getLastActiveWindow (WINDOWS Demo.fresh) = None
  /\ exists w m',
       focusLastActive Demo.noArgs CLI Demo.fresh = Some (Some w, m')
       /\ WINDOWS m' = [w].
Proof.
  split; [reflexivity|].
  destruct (focusLastActive_live Demo.noArgs CLI Demo.fresh)
    as (w & m' & Hfocus & _ & _ & Hnew).
  exists w, m'. split; [exact Hfocus|].
  destruct (Hnew eq_refl) as [Hwins _]. exact Hwins.
Defined.

(** A file and a folder are opened together: the window for the folder
    is given the file, and no other load is requested. *)
#[local] Abbreviation openFileAndFolder :=
  (doOpenSteps Demo.config [] [] ["/repo"] [] [] 0
     [Demo.fileTarget "/repo/a.ts" false] [] [] Demo.fresh).

Lemma doOpen_files_once_witness :
  exists s loads,
    openFileAndFolder = Some s
    /\ pendingLoads (mgr s) = pendingLoads Demo.fresh ++ loads
    /\ Forall (fun l => noFiles l.2) (drop 1 loads).
Proof.
  let r := eval vm_compute in openFileAndFolder in
  match r with
  | Some ?s0 => assert (Hrun : openFileAndFolder = Some s0) by (vm_compute; reflexivity);
                exists s0
  end.
  destruct (doOpen_files_once _ _ _ _ _ _ _ _ _ _ _ _ Hrun)
    as (loads & Hloads & _ & Hrest).
  exists loads. split; [exact Hrun|]. split; [exact Hloads | exact Hrest].
Defined.

(** A file of the disk resolves to a file target that is not to be
    created. *)
Lemma parsePath_target_witness :
  exists t,
    parsePath "/repo/a.ts" false false = Some t
    /\ oneKind t
    /\ ~ createFilePath t = true.
Proof.
  exists (Demo.fileTarget "/repo/a.ts" false).
  assert (Hparse : parsePath "/repo/a.ts" false false
                   = Some (Demo.fileTarget "/repo/a.ts" false)) by reflexivity.
  split; [exact Hparse|].
  destruct (parsePath_target "/repo/a.ts" false false) as [_ Htarget].
  destruct (Htarget _ Hparse) as (Hkind & _ & Hcreate).
  split; [exact Hkind|]. intros Htrue. apply Hcreate in Htrue. discriminate.
Defined.

(** A path that is not on the disk: from the command line it is a
    file to create, through the API it is dropped. *)
Lemma doExtractPaths_missing_witness :
  (List.filter isGiven (args_ Scenes.missingArgs) <> []
   /\ "/gone" ∈ args_ Scenes.missingArgs
   /\ isGiven "/gone" = true
   /\ statSync (candidateOf (goto Scenes.missingArgs) "/gone") = None)
  /\ length (doExtractPathsFromCLI Scenes.missingArgs) = 1
  /\ fileToCreate "/gone" ∈ doExtractPathsFromCLI Scenes.missingArgs
  /\ length (doExtractPathsFromAPI ["/gone"] false) = 0.
Proof.
  assert (Hgiven : List.filter isGiven (args_ Scenes.missingArgs) <> [])
    by discriminate.
  assert (Hin : "/gone" ∈ args_ Scenes.missingArgs) by (simpl; constructor).
  split; [split; [exact Hgiven|]; split; [exact Hin|]; split; reflexivity|].
  destruct (doExtractPaths_missing ["/gone"] false Scenes.missingArgs)
    as (Hapi & _ & _ & _ & _ & Hcli & Hcreate & _).
  split; [exact (Hcli Hgiven)|].
  split; [exact (Hcreate _ Hin eq_refl eq_refl) | exact Hapi].
Defined.

(** The mode "one" with a lost workspace: one target. *)
Lemma doGetWindowsFromLastSession_targets_witness :
  getRestoreWindowsSetting = RestoreOne
  /\ length (doGetWindowsFromLastSession Demo.lostWorkspace) = 1.
Proof.
  split; [reflexivity|].
  destruct (doGetWindowsFromLastSession_targets Demo.lostWorkspace)
    as (_ & _ & Hone & _).
  apply Hone. left. reflexivity.
Defined.

(** On Windows the second button is Don't Save: the workspace is
    deleted and the unload goes on. *)
Lemma promptToSaveUntitledWorkspace_deletes_witness :
  @buttons Demo.windows !! 1 = Some DONT_SAVE
  /\ exists r,
       @promptToSaveUntitledWorkspace Demo.windows Demo.brokenWorkspaces
         (Demo.workspaceOne "/tmp/untitled") 1 None = Some r
       /\ deletedUntitledWorkspace r = Some (Demo.workspaceOne "/tmp/untitled")
       /\ veto r = VetoValue false.
Proof.
  split; [reflexivity|].
  destruct (@promptToSaveUntitledWorkspace_deletes Demo.windows Demo.brokenWorkspaces
              (Demo.workspaceOne "/tmp/untitled") 1 None) as [Hsome Hdeletes].
  destruct (proj2 Hsome) as [r Hr]; [lia|].
  exists r. split; [exact Hr|].
  destruct (Hdeletes r Hr) as (Hdeleted & _ & Hveto).
  split; [apply Hdeleted; reflexivity | apply Hveto; reflexivity].
Defined.

(** On Linux, closing the only window does not ask. *)
Lemma onBeforeWindowUnload_sole_window_witness :
  @isUntitledWorkspace Demo.brokenWorkspaces (Demo.workspaceOne "/tmp/untitled") = true
  /\ getWindowCount Scenes.untitledOnly = 1
  /\ @onBeforeWindowUnload Demo.linux Demo.brokenWorkspaces CLOSE Scenes.untitledWindow
       Scenes.untitledOnly 0 None
     = NotAsked.
Proof.
  split; [reflexivity|]. split; [reflexivity|].
  destruct (@onBeforeWindowUnload_sole_window Demo.linux Demo.brokenWorkspaces
              Scenes.untitledWindow (Demo.workspaceOne "/tmp/untitled")
              Scenes.untitledOnly 0 None eq_refl eq_refl eq_refl)
    as (Hclose & _); [lia|].
  apply Hclose. reflexivity.
Defined.

(** The workspace of the stored last active window was saved to
    another location. *)
Lemma onWorkspaceSaved_configPath_witness :
  exists st,
    storedStates Demo.lostWorkspace !! 0 = Some st
    /\ (ws_configPath <$> workspace st) = Some "/ws/two.code-workspace"
    /\ Forall (pointsTo Scenes.savedTwo)
         (storedStates (onWorkspaceSaved Scenes.savedTwo Demo.lostWorkspace))
    /\ exists st',
         storedStates (onWorkspaceSaved Scenes.savedTwo Demo.lostWorkspace) !! 0
         = Some st'
         /\ folderPath st' = folderPath st.
Proof.
  eexists. split; [reflexivity|]. split; [reflexivity|].
  destruct (onWorkspaceSaved_configPath Scenes.savedTwo Demo.lostWorkspace)
    as (Hall & _ & Hkeeps & _).
  split; [exact Hall|].
  destruct (Hkeeps 0 _ eq_refl) as (st' & Hst' & Hfolder & _).
  exists st'. split; [exact Hst' | exact Hfolder].
Defined.

(** Two windows on the diagonal: the new window is moved twice. *)
Lemma ensureNoOverlap_terminates_witness :
  exists k,
    ensureNoOverlap 5 Scenes.diagonal 0 0 = Some (nudged k 0 0)
    /\ Forall (fun b => r_x b <> (nudged k 0 0).1 /\ r_y b <> (nudged k 0 0).2)
         Scenes.diagonal.
Proof.
  destruct (ensureNoOverlap_terminates Scenes.diagonal 0 0)
    as (k & _ & Hrun & Hfree & _).
  exists k. split; [apply Hrun; simpl; lia | exact Hfree].
Defined.

(** A file is picked in [/repo]: the next dialog starts there. *)
#[local] Abbreviation pickFile :=
  (pickFileAndOpen Scenes.pickOptions (Some ["/repo/a.ts"]) Demo.fresh).

Lemma picker_working_dir_witness :
  exists shown m',
    pickFile = Some (shown, m')
    /\ d_defaultPath
         (shownDialogOptions (internalOptions Scenes.pickOptions true false) m')
       = Some "/repo".
Proof.
  let r := eval vm_compute in pickFile in
  match r with
  | Some (?d, ?m0) =>
      assert (Hrun : pickFile = Some (d, m0)) by (vm_compute; reflexivity);
      exists d, m0
  end.
  split; [exact Hrun|].
  destruct (picker_working_dir Scenes.pickOptions false true Demo.fresh)
    as [Hpicked _].
  destruct (Hpicked _ _ _ _ Hrun) as [_ Hnext].
  apply (Hnext Scenes.pickOptions true false). reflexivity.
Defined.

(** The caller asked for [openFile] alone: the dialog allows multiple
    selections all the same. *)
Lemma picker_properties_witness :
  d_properties <$> n_dialogOptions Scenes.pickOptions = Some (Some ["openFile"])
  /\ exists shown m',
       pickFile = Some (shown, m')
       /\ d_properties shown
          = Some ["multiSelections"; "openFile"; "createDirectory"]
       /\ d_title shown = Some "Open File".
Proof.
  split; [reflexivity|].
  let r := eval vm_compute in pickFile in
  match r with
  | Some (?d, ?m0) =>
      assert (Hrun : pickFile = Some (d, m0)) by (vm_compute; reflexivity);
      exists d, m0
  end.
  split; [exact Hrun|].
  destruct (picker_properties _ _ _ _ _ _ _ Hrun) as (Hprops & _ & Htitle).
  split; [exact Hprops | apply Htitle; reflexivity].
Defined.

End FurtherExamples.

(** ** A disk with a device *)

Section DeviceExamples.
#[local] Existing Instances
  Demo.linux Scenes.devices Demo.running Demo.backups Demo.workspaces
  Demo.settings.

(** The device [/dev/null] is on the disk and is not a file: it is
    validated as a folder, and restored as one from the last
    session. *)
Lemma restored_targets_on_disk_witness :
  (isGiven "/dev/null" = true
   /\ statSync (candidateOf false "/dev/null") = Some IsOther
   /\ IsOther <> IsFile)
  /\ parsePath "/dev/null" false false = Some (folderTarget "/dev/null")
  /\ doGetWindowsFromLastSession Scenes.lastOnDevice = [folderTarget "/dev/null"]
  /\ Forall onDisk (doGetWindowsFromLastSession Scenes.lastOnDevice).
Proof.
  assert (Hother : IsOther <> IsFile) by discriminate.
  split; [split; [reflexivity|]; split; [reflexivity | exact Hother]|].
  destruct (restored_targets_on_disk Scenes.lastOnDevice) as (Hall & _ & Hfolder).
  split; [exact (Hfolder "/dev/null" IsOther eq_refl eq_refl Hother)|].
  split; [reflexivity | exact Hall].
Defined.

End DeviceExamples.

(** ** A stored full-screen mode *)

Section StoredModeExamples.
#[local] Existing Instances
  Demo.linux Demo.host Demo.running Demo.backups Demo.workspaces Demo.settings
  Demo.environment Demo.finder Scenes.downgrading.

#[local] Abbreviation openFullscreen :=
  (open Scenes.openRepo Scenes.fullscreenStored).

(** The folder [/repo] is opened in a new window while its stored
    entry is full screen: one window is added, the storage is
    untouched, the stored entry is still for [/repo] and its mode is
    now normal. *)
Lemma open_extends_witness :
  exists used m',
    openFullscreen = Some (used, m')
    /\ storage m' = storage Scenes.fullscreenStored
    /\ (exists added, WINDOWS m' = WINDOWS Scenes.fullscreenStored ++ added
                      /\ win_id <$> added = seq 0 (length added))
    /\ folderPath <$> openedWindows (windowsState m') = [Some "/repo"]
    /\ ui_mode <$> (uiState <$> openedWindows (windowsState m')) = [Normal]
    /\ ui_mode <$> (uiState <$> openedWindows (windowsState Scenes.fullscreenStored))
       = [Fullscreen].
Proof.
  let r := eval vm_compute in openFullscreen in
  match r with
  | Some (?u, ?m0) =>
      assert (Hrun : openFullscreen = Some (u, m0)) by (vm_compute; reflexivity);
      exists u, m0
  end.
  split; [exact Hrun|].
  destruct (open_extends _ _ _ _ Hrun)
    as (_ & Hstorage & _ & _ & added & events & Hwins & Hids & _).
  split; [exact Hstorage|].
  split; [exists added; split; [exact Hwins | exact Hids]|].
  split; [reflexivity|]. split; reflexivity.
Defined.

End StoredModeExamples.
